(** * Reward-metrics aggregation of verl-articulation

    The repository holds two aggregators that reduce a mapping from signal
    names to per-sample observations into summary statistics:

    - [compute_reward_metrics] (test_reward_metrics.py), and
    - [compute_reward_metrics_standalone] (complete_test.py).

    Both are embedded here as functions over a small model of the Python
    values they inspect, of the NumPy calls they make, and of the exceptions
    those calls raise.  Python floats are IEEE binary64 numbers, modelled by
    Rocq's primitive floats; the [dict] of results is a [gmap] from strings;
    the input [dict] is the list of its items in insertion order, whose
    names are distinct ([NoDup]) where a statement depends on it.

    The code of complete_test.py that produces their input is embedded as
    well: the reward function [custom_reward_with_subrewards], over strings
    of code points below 256, and the loop of [test_reward_function] that
    collects the sub-rewards of the samples.

    NumPy is modelled as of version 1.24 or later (an inhomogeneous nested
    sequence makes [np.array] raise [ValueError]); warnings are not
    modelled, and neither is the text the handlers print.  Tensors are CPU
    tensors of dtype float32 or float64 with at most one dimension, which
    may require grad; the arithmetic of float32 arrays is that of
    [SpecFloat] at 24 bits of precision. *)

From Stdlib Require Import ZArith Bool List String Ascii Lia Floats.
From stdpp Require Import gmap strings list.

Set Warnings "-inexact-float,-register-all".

(** ** Python values and exceptions *)

(** The observations a series may hold.  [PySeq] stands for a list or a
    tuple: the code never tells them apart.  [PyStr s num] is the string [s]
    together with what the built-in [float(s)] evaluates to ([None] when it
    raises [ValueError]), which is the only way the aggregators ever look
    into a string.  [PyTensor dtype requires_grad data] is the
    one-dimensional CPU tensor
    [torch.tensor(data, dtype=dtype, requires_grad=requires_grad)] built
    from a list of Python floats, and [PyTensor0 dtype requires_grad x] the
    zero-dimensional tensor built from the float [x]; the dtype is
    [torch.float32], the default, or [torch.float64]. *)
Inductive tensor_dtype : Type :=
  | float32
  | float64.

Inductive pyval : Type :=
  | PyFloat (x : float)
  | PyInt (n : Z)
  | PyBool (b : bool)
  | PyStr (s : string) (num : option float)
  | PySeq (items : list pyval)
  | PyTensor (dtype : tensor_dtype) (requires_grad : bool) (data : list float)
  | PyTensor0 (dtype : tensor_dtype) (requires_grad : bool) (x : float).

Inductive pyexn : Type :=
  | ValueError
  | TypeError
  | OverflowError
  | AttributeError
  | IndexError
  | RuntimeError.

(** The outcome of evaluating a Python expression. *)
Inductive result (A : Type) : Type :=
  | Ok (a : A)
  | Raise (e : pyexn).
Arguments Ok {A} a.
Arguments Raise {A} e.

#[export] Instance result_ret : MRet result := @Ok.
#[export] Instance result_bind : MBind result := λ A B k r,
  match r with
  | Ok a => k a
  | Raise e => Raise e
  end.

(** [int.__float__]: the nearest binary64 number, ties to even. *)
Definition Z2float (n : Z) : float :=
  SF2Prim (binary_normalize prec emax n 0 false).

(** ** Binary32

    The numbers of a float32 tensor or array are held as the Python floats
    equal to them; the operations on them round to 24 bits of precision
    within the binary32 exponent range. *)
Module f32.

Definition prec : Z := 24.
Definition emax : Z := 128.

(** The conversion of a float64 to float32, to nearest even. *)
Definition round (x : float) : float :=
  match Prim2SF x with
  | S754_finite s m e => SF2Prim (binary_round prec emax s m e)
  | _ => x
  end.

Definition add (x y : float) : float := SF2Prim (SFadd prec emax (Prim2SF x) (Prim2SF y)).
Definition sub (x y : float) : float := SF2Prim (SFsub prec emax (Prim2SF x) (Prim2SF y)).
Definition mul (x y : float) : float := SF2Prim (SFmul prec emax (Prim2SF x) (Prim2SF y)).
Definition sqrt (x : float) : float := SF2Prim (SFsqrt prec emax (Prim2SF x)).

End f32.

(** The value an element of a tensor of the given dtype takes for the
    Python float [x]. *)
Definition cast (dtype : tensor_dtype) (x : float) : float :=
  match dtype with
  | float32 => f32.round x
  | float64 => x
  end.

(** A series of Python floats. *)
Definition floats (xs : list float) : pyval := PySeq (map PyFloat xs).

(** [not values]: the truth value of an object, negated. *)
Definition py_not (values : pyval) : result bool :=
  match values with
  | PySeq items => Ok (bool_decide (items = []))
  | PyStr s _ => Ok (bool_decide (s = EmptyString))
  | PyFloat x => Ok (PrimFloat.eqb x 0)
  | PyInt n => Ok (n =? 0)%Z
  | PyBool b => Ok (negb b)
  | PyTensor dtype _ [x] | PyTensor0 dtype _ x => Ok (PrimFloat.eqb (cast dtype x) 0)
  | PyTensor _ _ _ => Raise RuntimeError
  end.

(** [for item in v]: the items a [for] loop over [v] visits.  The elements
    of a one-dimensional tensor are zero-dimensional tensors; a string
    yields its characters. *)
Definition py_iter (v : pyval) : result (list pyval) :=
  match v with
  | PySeq items => Ok items
  | PyTensor dtype requires_grad data => Ok (map (PyTensor0 dtype requires_grad) data)
  | PyStr s _ =>
      Ok (map (λ c, PyStr (String c EmptyString)
                      (if bool_decide (48 ≤ nat_of_ascii c ≤ 57)%nat
                       then Some (Z2float (Z.of_nat (nat_of_ascii c) - 48))
                       else None))
              (list_ascii_of_string s))
  | _ => Raise TypeError
  end.

(** ** NumPy *)

Module np.

(** An array, by what the aggregators read of it: its dtype (float64,
    float32, a 64-bit integer type, or one that is no sub-dtype of
    [np.number]: bool, str, object), what [len] returns (the first
    dimension) and its elements in C order. *)
Inductive ndarray : Type :=
  | Float64 (len0 : nat) (data : list float)
  | Float32 (len0 : nat) (data : list float)
  | Int64 (len0 : nat) (data : list Z)
  | NonNumeric (len0 : nat).

Definition len (a : ndarray) : nat :=
  match a with
  | Float64 n _ | Float32 n _ | Int64 n _ | NonNumeric n => n
  end.

(** [np.issubdtype(a.dtype, np.number)] *)
Definition issubdtype_number (a : ndarray) : bool :=
  match a with
  | Float64 _ _ | Float32 _ _ | Int64 _ _ => true
  | NonNumeric _ => false
  end.

(** Shape discovery: [None] when the nesting is inhomogeneous. *)
Fixpoint shape (v : pyval) : option (list nat) :=
  match v with
  | PySeq items =>
      let fix shapes (l : list pyval) : option (list (list nat)) :=
        match l with
        | [] => Some []
        | x :: l' =>
            match shape x, shapes l' with
            | Some s, Some ss => Some (s :: ss)
            | _, _ => None
            end
        end in
      match shapes items with
      | None => None
      | Some [] => Some [0%nat]
      | Some (s :: ss) =>
          if forallb (λ s', bool_decide (s' = s)) ss
          then Some (length items :: s) else None
      end
  | PyTensor _ _ data => Some [length data]
  | _ => Some []
  end.

(** The scalars of a nested sequence, in C order; those of a tensor are
    zero-dimensional tensors. *)
Fixpoint leaves (v : pyval) : list pyval :=
  match v with
  | PySeq items =>
      (fix go (l : list pyval) : list pyval :=
         match l with
         | [] => []
         | x :: l' => leaves x ++ go l'
         end) items
  | PyTensor dtype requires_grad data => map (PyTensor0 dtype requires_grad) data
  | _ => [v]
  end.

(** Dtype discovery for a Python scalar: an [int] is an int64 when it
    fits, else a uint64 when it fits, else an object. *)
Definition is_int64 (v : pyval) : bool :=
  match v with
  | PyInt n => (- 2 ^ 63 <=? n)%Z && (n <? 2 ^ 63)%Z
  | _ => false
  end.

Definition is_uint64 (v : pyval) : bool :=
  match v with
  | PyInt n => (2 ^ 63 <=? n)%Z && (n <? 2 ^ 64)%Z
  | _ => false
  end.

Definition is_float (v : pyval) : bool :=
  match v with
  | PyFloat _ | PyTensor0 float64 _ _ => true
  | _ => false
  end.

Definition is_float32 (v : pyval) : bool :=
  match v with
  | PyTensor0 float32 _ _ => true
  | _ => false
  end.

(** Scalars whose presence makes the common dtype str or object. *)
Definition is_str_or_object (v : pyval) : bool :=
  match v with
  | PyStr _ _ => true
  | PyInt n => negb ((- 2 ^ 63 <=? n)%Z && (n <? 2 ^ 64)%Z)
  | _ => false
  end.

Definition as_float (v : pyval) : float :=
  match v with
  | PyFloat x => x
  | PyInt n => Z2float n
  | PyBool b => if b then 1%float else 0%float
  | PyTensor0 dtype _ x => cast dtype x
  | _ => nan
  end.

Definition as_int (v : pyval) : Z :=
  match v with
  | PyInt n => n
  | PyBool b => if b then 1%Z else 0%Z
  | _ => 0%Z
  end.

(** The visit of the items by which [np.array] discovers the shape, depth
    first and in order.  It keeps the number of dimensions the array can
    still have (at first [NPY_MAXDIMS]), whether a scalar or an array was
    met, and the lengths met at each depth.  A sequence met where no
    dimension is left, or whose length differs from the one met at its
    depth, is not entered.  Every tensor that is met is asked for its array
    ([__array__], that is [numpy()]), which raises [RuntimeError] when the
    tensor requires grad. *)
Record discovery : Type :=
  Discovery { max_dims : nat; reached : bool; dims : list nat }.

Definition found_scalar (d : nat) (st : discovery) : discovery :=
  if (max_dims st <? d)%nat then Discovery (max_dims st) true (dims st)
  else Discovery d true (dims st).

Definition found_array (d n : nat) (st : discovery) : discovery :=
  if (max_dims st <? d + 1)%nat then Discovery (max_dims st) true (dims st)
  else if reached st then
    if bool_decide (dims st !! d = Some n) then Discovery (d + 1) true (dims st)
    else Discovery d true (dims st)
  else Discovery (d + 1) true (dims st ++ [n]).

Fixpoint discover (v : pyval) (d : nat) (st : discovery) : result discovery :=
  match v with
  | PyTensor _ requires_grad data =>
      if requires_grad then Raise RuntimeError
      else Ok (found_array d (length data) st)
  | PyTensor0 _ requires_grad _ =>
      if requires_grad then Raise RuntimeError else Ok (found_scalar d st)
  | PySeq items =>
      let fix visit (l : list pyval) (st : discovery) : result discovery :=
        match l with
        | [] => Ok st
        | x :: l' =>
            match discover x (S d) st with
            | Ok st' => visit l' st'
            | Raise e => Raise e
            end
        end in
      let enter (st : discovery) : result discovery :=
        match items with
        | [] => Ok (Discovery (d + 1) true (dims st))
        | _ => visit items st
        end in
      if (d =? max_dims st)%nat then Ok (Discovery (max_dims st) true (dims st))
      else if (max_dims st <? d)%nat then Ok st
      else if reached st then
        if bool_decide (dims st !! d = Some (length items)) then enter st
        else Ok (Discovery d true (dims st))
      else enter (Discovery (max_dims st) false (dims st ++ [length items]))
  | _ => Ok (found_scalar d st)
  end.

(** 32, and 64 since NumPy 2: sequences nested that deep are not considered
    in what follows. *)
Definition NPY_MAXDIMS : nat := 32.

(** The tensors [np.array(items)] meets give their arrays. *)
Definition asarrays (items : list pyval) : result unit :=
  match discover (PySeq items) 0 (Discovery NPY_MAXDIMS false []) with
  | Ok _ => Ok tt
  | Raise e => Raise e
  end.

(** [np.array(items)]: the dtype is the promotion of the scalars' dtypes
    (int64 with uint64 or with float32 gives float64; an array without
    elements is float64; bools alone stay bool). *)
Definition array (items : list pyval) : result ndarray :=
  asarrays items ;;
  match shape (PySeq items) with
  | None => Raise ValueError
  | Some _ =>
      let ls := leaves (PySeq items) in
      let n := length items in
      let ints := existsb is_int64 ls || existsb is_uint64 ls in
      if existsb is_str_or_object ls then Ok (NonNumeric n)
      else if existsb is_float ls || (existsb is_uint64 ls && existsb is_int64 ls)
              || (ints && existsb is_float32 ls)
      then Ok (Float64 n (map as_float ls))
      else if existsb is_float32 ls
      then Ok (Float32 n (map as_float ls))
      else if ints
      then Ok (Int64 n (map as_int ls))
      else match ls with
           | [] => Ok (Float64 n [])
           | _ => Ok (NonNumeric n)
           end
  end.

(** The conversion of one scalar under [dtype=float]. *)
Definition float_of_scalar (v : pyval) : result float :=
  match v with
  | PyFloat x => Ok x
  | PyInt n =>
      let x := Z2float n in
      if is_infinity x then Raise OverflowError else Ok x
  | PyBool b => Ok (if b then 1%float else 0%float)
  | PyStr _ (Some x) => Ok x
  | PyStr _ None => Raise ValueError
  | PyTensor0 dtype _ x => Ok (cast dtype x)
  | _ => Raise TypeError
  end.

(** [np.array(items, dtype=float)]: the shape is discovered first, then
    the scalars are converted in order. *)
Definition array_float (items : list pyval) : result ndarray :=
  asarrays items ;;
  match shape (PySeq items) with
  | None => Raise ValueError
  | Some _ =>
      data ← mapM float_of_scalar (leaves (PySeq items));
      Ok (Float64 (length items) data)
  end.

Definition isfinite (x : float) : bool := is_finite x.

(** [a[np.isfinite(a)]]: a one-dimensional array of the finite elements. *)
Definition take_finite (a : ndarray) : ndarray :=
  match a with
  | Float64 _ data =>
      let data' := List.filter isfinite data in
      Float64 (length data') data'
  | Float32 _ data =>
      let data' := List.filter isfinite data in
      Float32 (length data') data'
  | Int64 _ data => Int64 (length data) data
  | NonNumeric n => NonNumeric n
  end.

(** The elements as float64, the dtype in which [mean] and [std] reduce an
    integer array. *)
Definition as_f8 (a : ndarray) : list float :=
  match a with
  | Float64 _ data | Float32 _ data => data
  | Int64 _ data => map Z2float data
  | NonNumeric _ => []
  end.

(** The pairwise summation of [np.add.reduce] over a contiguous float64
    buffer: a plain loop below 8 elements, 8 accumulators up to 128
    elements, a split in two above. *)
Definition sum8 (r : list float) : float :=
  match r with
  | [r0; r1; r2; r3; r4; r5; r6; r7] =>
      (((r0 + r1) + (r2 + r3)) + ((r4 + r5) + (r6 + r7)))%float
  | _ => foldl PrimFloat.add (-0)%float r
  end.

Fixpoint add_blocks (blocks : nat) (r a : list float) : list float * list float :=
  match blocks with
  | O => (r, a)
  | S blocks' =>
      add_blocks blocks' (zip_with PrimFloat.add r (take 8 a)) (drop 8 a)
  end.

Fixpoint pairwise_sum (fuel : nat) (a : list float) : float :=
  let n := length a in
  if (n <? 8)%nat then foldl PrimFloat.add (-0)%float a
  else if (n <=? 128)%nat then
    let '(r, rest) := add_blocks (n / 8 - 1) (take 8 a) (drop 8 a) in
    foldl PrimFloat.add (sum8 r) rest
  else
    match fuel with
    | O => foldl PrimFloat.add (-0)%float a
    | S fuel' =>
        let n2 := (n / 2 - (n / 2) mod 8)%nat in
        (pairwise_sum fuel' (take n2 a) + pairwise_sum fuel' (drop n2 a))%float
    end.

(** [np.add.reduce(a)]: the identity 0 plus the pairwise sum. *)
Definition sum (a : list float) : float :=
  (0 + pairwise_sum (length a) a)%float.

Definition count (a : list float) : float := Z2float (Z.of_nat (length a)).

(** The same summation over a float32 buffer. *)
Definition sum8_f32 (r : list float) : float :=
  match r with
  | [r0; r1; r2; r3; r4; r5; r6; r7] =>
      f32.add (f32.add (f32.add r0 r1) (f32.add r2 r3))
              (f32.add (f32.add r4 r5) (f32.add r6 r7))
  | _ => foldl f32.add (-0)%float r
  end.

Fixpoint add_blocks_f32 (blocks : nat) (r a : list float) : list float * list float :=
  match blocks with
  | O => (r, a)
  | S blocks' =>
      add_blocks_f32 blocks' (zip_with f32.add r (take 8 a)) (drop 8 a)
  end.

Fixpoint pairwise_sum_f32 (fuel : nat) (a : list float) : float :=
  let n := length a in
  if (n <? 8)%nat then foldl f32.add (-0)%float a
  else if (n <=? 128)%nat then
    let '(r, rest) := add_blocks_f32 (n / 8 - 1) (take 8 a) (drop 8 a) in
    foldl f32.add (sum8_f32 r) rest
  else
    match fuel with
    | O => foldl f32.add (-0)%float a
    | S fuel' =>
        let n2 := (n / 2 - (n / 2) mod 8)%nat in
        f32.add (pairwise_sum_f32 fuel' (take n2 a)) (pairwise_sum_f32 fuel' (drop n2 a))
    end.

Definition sum_f32 (a : list float) : float :=
  f32.add 0 (pairwise_sum_f32 (length a) a).

(** The sum of a float32 array is a float32, which is divided as a float64
    by the number of elements and cast back ([ret.dtype.type(ret / rcount)]). *)
Definition mean_f32 (a : list float) : float :=
  f32.round (sum_f32 a / count a).

Definition std_f32 (a : list float) : float :=
  let arrmean := mean_f32 a in
  let x := map (λ v, f32.sub v arrmean) a in
  let x := map (λ d, f32.mul d d) x in
  f32.sqrt (f32.round (sum_f32 x / count a)).

(** [np.mean(a)]: the sum divided by the number of elements, in float32
    for a float32 array and in float64 for the others. *)
Definition mean (a : ndarray) : float :=
  match a with
  | Float32 _ data => mean_f32 data
  | _ => (sum (as_f8 a) / count (as_f8 a))%float
  end.

(** [np.std(a)]: the square root of the mean of the squared deviations
    from the mean. *)
Definition std (a : ndarray) : float :=
  match a with
  | Float32 _ data => std_f32 data
  | _ =>
      let arr := as_f8 a in
      let arrmean := (sum arr / count arr)%float in
      let x := map (λ v, (v - arrmean)%float) arr in
      let x := map (λ d, (d * d)%float) x in
      sqrt (sum x / count arr)
  end.

(** One step of [np.maximum.reduce] and of [np.minimum.reduce]: a NaN met
    once stays. *)
Definition maximum (acc x : float) : float :=
  if (x <=? acc)%float || is_nan acc then acc else x.

Definition minimum (acc x : float) : float :=
  if (acc <=? x)%float || is_nan acc then acc else x.

(** [np.max(a)] and [np.min(a)], converted by [float]; an array without
    elements has no maximum. *)
Definition max (a : ndarray) : result float :=
  match a with
  | Float64 _ (x :: data) | Float32 _ (x :: data) => Ok (foldl maximum x data)
  | Int64 _ (n :: data) => Ok (Z2float (foldl Z.max n data))
  | _ => Raise ValueError
  end.

Definition min (a : ndarray) : result float :=
  match a with
  | Float64 _ (x :: data) | Float32 _ (x :: data) => Ok (foldl minimum x data)
  | Int64 _ (n :: data) => Ok (Z2float (foldl Z.min n data))
  | _ => Raise ValueError
  end.

End np.

(** ** PyTorch *)

Module torch.

(** [v.flatten()], by its dtype and its elements: only a tensor has the
    method. *)
Definition flatten (v : pyval) : result (tensor_dtype * list float) :=
  match v with
  | PyTensor dtype _ data => Ok (dtype, map (cast dtype) data)
  | PyTensor0 dtype _ x => Ok (dtype, [cast dtype x])
  | _ => Raise AttributeError
  end.

Definition is_float64 (dtype : tensor_dtype) : bool :=
  match dtype with
  | float64 => true
  | float32 => false
  end.

(** [torch.cat(ts).detach().cpu().numpy()]: the dtypes are promoted, to
    float64 when one of them is. *)
Definition cat (ts : list (tensor_dtype * list float)) : np.ndarray :=
  let data := concat ts.*2 in
  if existsb is_float64 ts.*1 then np.Float64 (length data) data
  else np.Float32 (length data) data.

End torch.

(** ** The report under construction *)

(** A value of the report: a Python float, or the integer [len] returns. *)
Inductive metric : Type :=
  | MFloat (x : float)
  | MInt (n : Z).

Abbreviation report := (gmap string metric).

(** The f-string [f"reward/{key}/{stat}"]. *)
Definition metric_key (key stat : string) : string :=
  "reward/" +:+ key +:+ "/" +:+ stat.

(** The statistics either aggregator may emit. *)
Definition stats : list string := ["mean"; "max"; "min"; "std"; "count"].

(** A block of statements that updates [metrics] in place: the dictionary
    it leaves, and the value it produced or the exception it raised. *)
Definition block (A : Type) : Type := report → report * result A.

#[export] Instance block_ret : MRet block := λ A a metrics, (metrics, Ok a).
#[export] Instance block_bind : MBind block := λ A B k c metrics,
  match c metrics with
  | (metrics', Ok a) => k a metrics'
  | (metrics', Raise e) => (metrics', Raise e)
  end.

(** An expression evaluated inside a block. *)
Definition eval {A : Type} (r : result A) : block A := λ metrics, (metrics, r).

(** [metrics[key] = v] *)
Definition setitem (key : string) (v : metric) : block unit :=
  λ metrics, (<[key := v]> metrics, Ok tt).

(** [continue] ends the body of the loop. *)
Definition continue : block unit := mret tt.

(** [try: body except <clause>: print(...); continue] *)
Definition try_except (caught : pyexn → bool) (body : block unit) : block unit :=
  λ metrics,
    match body metrics with
    | (metrics', Raise e) =>
        if caught e then (metrics', Ok tt) else (metrics', Raise e)
    | done => done
    end.

(** [for key, values in d.items(): body] *)
Fixpoint for_items (items : list (string * pyval))
    (body : string → pyval → block unit) : block unit :=
  match items with
  | [] => mret tt
  | (key, values) :: rest => body key values ;; for_items rest body
  end.

(** [metrics = {}; <loop>; return metrics] *)
Definition returning (loop : block unit) : result report :=
  match loop ∅ with
  | (metrics, Ok _) => Ok metrics
  | (_, Raise e) => Raise e
  end.

(** ** compute_reward_metrics (test_reward_metrics.py) *)

(** [except Exception] catches every exception of the model. *)
Definition except_Exception (e : pyexn) : bool := true.

(** Lines 25-31: the conversion to a NumPy array, chosen by the first
    element of the series.  ([values[0]] of a number raises [TypeError];
    [np.array] of a string is a zero-dimensional str array; the elements of
    a tensor are tensors again, flattened and concatenated back.) *)
Definition to_array (values : pyval) : result np.ndarray :=
  match values with
  | PySeq [] | PyTensor _ _ [] | PyTensor0 _ _ _ | PyStr EmptyString _ =>
      Raise IndexError
  | PySeq ((PyTensor _ _ _ :: _) as vs) | PySeq ((PyTensor0 _ _ _ :: _) as vs) =>
      ts ← mapM torch.flatten vs; Ok (torch.cat ts)
  | PySeq ((PySeq _ :: _) as vs) =>
      item ← mapM py_iter vs; np.array (concat item)
  | PySeq vs => np.array vs
  | PyTensor dtype _ data => Ok (torch.cat (map (λ x, (dtype, [cast dtype x])) data))
  | PyStr _ _ => Ok (np.NonNumeric 0)
  | _ => Raise TypeError
  end.

(** Lines 23-48, the body of the [try]. *)
Definition try_body (key : string) (values : pyval) : block unit :=
  values_array ← eval (to_array values);
  if negb (np.issubdtype_number values_array) || (np.len values_array =? 0)%nat
  then continue
  else
    let values_array := np.take_finite values_array in
    if (np.len values_array =? 0)%nat then continue
    else
      setitem (metric_key key "mean") (MFloat (np.mean values_array));;
      hi ← eval (np.max values_array);
      setitem (metric_key key "max") (MFloat hi);;
      lo ← eval (np.min values_array);
      setitem (metric_key key "min") (MFloat lo);;
      if (1 <? np.len values_array)%nat
      then setitem (metric_key key "std") (MFloat (np.std values_array))
      else mret tt.

(** Lines 19-53, the body of the loop: the emptiness test stands before
    the [try]. *)
Definition loop_body (key : string) (values : pyval) : block unit :=
  empty ← eval (py_not values);
  if empty : bool then continue
  else try_except except_Exception (try_body key values).

Definition compute_reward_metrics (reward_extra_infos_dict : list (string * pyval))
    : result report :=
  returning (for_items reward_extra_infos_dict loop_body).

(** ** compute_reward_metrics_standalone (complete_test.py) *)

(** [except (ValueError, TypeError)] *)
Definition except_ValueError_TypeError (e : pyexn) : bool :=
  match e with
  | ValueError | TypeError => true
  | _ => false
  end.

(** Lines 24-29: a list or tuple, else an object with a [cpu] attribute (a
    tensor), else a single value.  [numpy()] is called without [detach()]
    and raises [RuntimeError] on a tensor that requires grad.  The array of
    a zero-dimensional tensor has no dimension: [len] at line 32, the first
    to read it, raises [TypeError]. *)
Definition to_float_array (values : pyval) : result np.ndarray :=
  match values with
  | PySeq vs => np.array_float vs
  | PyTensor dtype requires_grad data =>
      if requires_grad then Raise RuntimeError
      else Ok (np.Float64 (length data) (map (cast dtype) data))
  | PyTensor0 _ requires_grad _ =>
      if requires_grad then Raise RuntimeError else Raise TypeError
  | _ => np.array_float [values]
  end.

(** Lines 22-37, the body of the [try]. *)
Definition try_body_standalone (key : string) (values : pyval) : block unit :=
  values_array ← eval (to_float_array values);
  if (0 <? np.len values_array)%nat then
    setitem (metric_key key "mean") (MFloat (np.mean values_array));;
    setitem (metric_key key "std") (MFloat (np.std values_array));;
    lo ← eval (np.min values_array);
    setitem (metric_key key "min") (MFloat lo);;
    hi ← eval (np.max values_array);
    setitem (metric_key key "max") (MFloat hi);;
    setitem (metric_key key "count") (MInt (Z.of_nat (np.len values_array)))
  else mret tt.

Definition loop_body_standalone (key : string) (values : pyval) : block unit :=
  try_except except_ValueError_TypeError (try_body_standalone key values).

Definition compute_reward_metrics_standalone (reward_extra_info : list (string * pyval))
    : result report :=
  if bool_decide (reward_extra_info = []) then Ok ∅
  else returning (for_items reward_extra_info loop_body_standalone).

(** ** Vocabulary of the statements *)

(** Python's [<=] and [==] on floats, and a finite float. *)
Definition float_le (x y : float) : Prop := (x <=? y)%float = true.
Definition float_eq (x y : float) : Prop := (x =? y)%float = true.
Definition finite (x : float) : Prop := is_finite x = true.

(** [x] lies within [tol] of [c]. *)
Definition approx (x c tol : float) : Prop :=
  ((c - tol <=? x) && (x <=? c + tol))%float = true.

(** What a report holds for a statistic of a signal. *)
Definition stat_of (r : report) (key stat : string) : option metric :=
  r !! metric_key key stat.

(** The report holds, for a statistic of a signal, a float equal ([==]) to [x]. *)
Definition reports (r : report) (key stat : string) (x : float) : Prop :=
  ∃ v, stat_of r key stat = Some (MFloat v) ∧ float_eq v x.

(** What a caller reads for a statistic of a signal in the outcome of a
    call. *)
Inductive reading : Type :=
  | Raised (e : pyexn)
  | Absent
  | Emitted (v : metric).

Definition read (outcome : result report) (key stat : string) : reading :=
  match outcome with
  | Raise e => Raised e
  | Ok r =>
      match stat_of r key stat with
      | Some v => Emitted v
      | None => Absent
      end
  end.

(** A suffix that cannot be split at a slash, as the five statistics. *)
Fixpoint no_slash (s : string) : bool :=
  match s with
  | EmptyString => true
  | String c s' => negb (Ascii.eqb c "/") && no_slash s'
  end.

(** A series is a list or a tuple. *)
Definition is_series (values : pyval) : Prop :=
  match values with
  | PySeq _ => True
  | _ => False
  end.

Definition is_scalar (v : pyval) : bool :=
  match v with
  | PySeq _ | PyTensor _ _ _ | PyTensor0 _ _ _ => false
  | _ => true
  end.

(** A value that is, or holds at some depth, a tensor that requires grad. *)
Fixpoint holds_grad (v : pyval) : bool :=
  match v with
  | PyTensor _ requires_grad _ | PyTensor0 _ requires_grad _ => requires_grad
  | PySeq items =>
      (fix go (l : list pyval) : bool :=
         match l with
         | [] => false
         | x :: l' => holds_grad x || go l'
         end) items
  | _ => false
  end.

Definition is_number (v : pyval) : bool :=
  match v with
  | PyFloat _ | PyInt _ => true
  | _ => false
  end.

(** Values that are no numbers by their type: strings and booleans. *)
Definition non_numeric (v : pyval) : bool :=
  match v with
  | PyStr _ _ | PyBool _ => true
  | _ => false
  end.

(** A string that spells no number: [float] rejects it. *)
Definition unparsable (v : pyval) : Prop := ∃ s, v = PyStr s None.

(** A non-empty series of finite floats under a name. *)
Definition finite_series (kv : string * pyval) : Prop :=
  ∃ xs, kv.2 = floats xs ∧ xs ≠ [] ∧ Forall finite xs.

(** A signal fails in [compute_reward_metrics] when its conversion raises
    or gives an array that is not numeric. *)
Definition signal_fails (values : pyval) : Prop :=
  match to_array values with
  | Raise _ => True
  | Ok a => np.issubdtype_number a = false
  end.

(** What the body of a loop writes for one signal, started on an empty
    dictionary. *)
Definition contribution (body : string → pyval → block unit)
    (key : string) (values : pyval) : report :=
  (body key values ∅).1.

(** A body is local when it only adds its own entries, all of them named
    after its signal and one of the statistics. *)
Definition local (body : string → pyval → block unit) : Prop :=
  ∀ key values,
    (∀ metrics, body key values metrics
       = (contribution body key values ∪ metrics, (body key values ∅).2)) ∧
    (∀ k, is_Some (contribution body key values !! k) →
       ∃ stat, stat ∈ stats ∧ k = metric_key key stat).

(** Closed forms of what the two bodies write for a series of floats
    ([fin] are the finite elements); [loop_body_floats] and
    [loop_body_standalone_floats] below relate them to the bodies. *)
Definition emit_floats (key : string) (fin : list float) (metrics : report) : report :=
  match fin with
  | [] => metrics
  | x :: fin' =>
      let a := np.Float64 (length fin) fin in
      let m3 :=
        <[metric_key key "min" := MFloat (foldl np.minimum x fin')]>
          (<[metric_key key "max" := MFloat (foldl np.maximum x fin')]>
             (<[metric_key key "mean" := MFloat (np.mean a)]> metrics)) in
      if (1 <? length fin)%nat
      then <[metric_key key "std" := MFloat (np.std a)]> m3 else m3
  end.

Definition emit_floats_standalone (key : string) (xs : list float) (metrics : report)
    : report :=
  match xs with
  | [] => metrics
  | x :: xs' =>
      let a := np.Float64 (length xs) xs in
      <[metric_key key "count" := MInt (Z.of_nat (length xs))]>
        (<[metric_key key "max" := MFloat (foldl np.maximum x xs')]>
           (<[metric_key key "min" := MFloat (foldl np.minimum x xs')]>
              (<[metric_key key "std" := MFloat (np.std a)]>
                 (<[metric_key key "mean" := MFloat (np.mean a)]> metrics))))
  end.

(** ** The scenarios of the specification *)

Definition length_score : list (string * pyval) :=
  [("length_score", floats [0.8; 0.9; 0.7; 0.85]%float)].

Definition single_value : list (string * pyval) :=
  [("single_value", floats [0.42]%float)].

Definition with_nan : list (string * pyval) :=
  [("with_nan", floats [0.5; nan; 0.7]%float)].

Definition string_data : list (string * pyval) :=
  [("string_data", PySeq [PyStr "hello" None; PyStr "world" None])].

(** Further inputs: an [int] beyond the range of a float, two booleans, a
    string that spells a number, equal elements whose sum rounds up, and
    elements whose sum overflows. *)
Definition word_count_overflow : list (string * pyval) :=
  [("word_count", PySeq [PyInt (10 ^ 400)])].

Definition flags : list (string * pyval) :=
  [("flags", PySeq [PyBool true; PyBool false])].

Definition numeral : list (string * pyval) :=
  [("numeral", PySeq [PyStr "1.5" (Some 1.5%float)])].

Definition tenths : list (string * pyval) :=
  [("tenths", floats [0.1; 0.1; 0.1]%float)].

Definition huge : list (string * pyval) :=
  [("huge", floats [1.7e308; 1.7e308]%float)].

(** The same beside a NaN; finite elements that cancel in the exact sum but
    not in the eight accumulators of the pairwise sum; and a row that holds
    a NaN. *)
Definition huge_nan : list (string * pyval) :=
  [("huge_nan", floats [1.7e308; 1.7e308; nan]%float)].

Definition cancelling : list (string * pyval) :=
  [("cancelling",
    floats [1.7e308; -1.7e308; 0; 0; 0; 0; 0; 0;
            1.7e308; -1.7e308; 0; 0; 0; 0; 0; 0]%float)].

(** The tensors of test case 2 of test_reward_metrics.py, of the default
    dtype; and a tensor that requires grad beside an [int] beyond the range
    of a float. *)
Definition test_data_2 : list (string * pyval) :=
  [("tensor_reward",
    PySeq [PyTensor float32 false [0.5; 0.6]%float;
           PyTensor float32 false [0.8; 0.9]%float;
           PyTensor float32 false [0.7; 0.75]%float])].

Definition grad_and_overflow : list (string * pyval) :=
  [("logits", PyTensor float32 true [0.5; 0.25]%float);
   ("word_count", PySeq [PyInt (10 ^ 400)])].

Definition nan_row : list (string * pyval) :=
  [("nan_row", PySeq [floats [nan; 1]%float])].

(** ** The statements of the specification, as written *)

Definition aggregator : Type := list (string * pyval) → result report.

(** A non-empty series of [n] finite numbers is reported with a count of
    [n], with min <= mean <= max, and with a deviation iff [n > 1]. *)
Definition claim_C2 (aggregate : aggregator) : Prop :=
  ∀ key xs, xs ≠ [] → Forall finite xs →
    ∃ r, aggregate [(key, floats xs)] = Ok r ∧
      stat_of r key "count" = Some (MInt (Z.of_nat (length xs))) ∧
      (∀ lo me hi,
         stat_of r key "min" = Some (MFloat lo) →
         stat_of r key "mean" = Some (MFloat me) →
         stat_of r key "max" = Some (MFloat hi) →
         float_le lo me ∧ float_le me hi) ∧
      (is_Some (stat_of r key "std") ↔ (1 < length xs)%nat).

(** A single finite element is its own mean, min and max, is counted once
    where a count is emitted, and has no deviation. *)
Definition claim_C3 (aggregate : aggregator) : Prop :=
  ∀ key x, finite x →
    ∃ r, aggregate [(key, floats [x])] = Ok r ∧
      reports r key "mean" x ∧ reports r key "min" x ∧ reports r key "max" x ∧
      (∀ c, stat_of r key "count" = Some c → c = MInt 1) ∧
      stat_of r key "std" = None.

(** For a series that holds a NaN or an infinite element the statistics
    are those of the finite elements, none of them is NaN or infinite,
    nothing is emitted without a finite element; the scenario retains 2
    elements of mean 0.6. *)
Definition claim_C4 (aggregate : aggregator) : Prop :=
  (∀ key xs, Exists (λ x, np.isfinite x = false) xs →
     ∃ r, aggregate [(key, floats xs)] = Ok r ∧
       aggregate [(key, floats (List.filter np.isfinite xs))] = Ok r ∧
       (∀ stat x, stat_of r key stat = Some (MFloat x) → finite x) ∧
       (List.filter np.isfinite xs = [] → ∀ stat, stat_of r key stat = None)) ∧
  (∃ r, aggregate with_nan = Ok r ∧
     (∀ c, stat_of r "with_nan" "count" = Some c → c = MInt 2) ∧
     reports r "with_nan" "mean" 0.6).

(** The array whose statistics lines 43-48 compute: the conversion of the
    series (lines 25-31) restricted to its finite elements (line 38). *)
Definition reduced (values : pyval) : result np.ndarray :=
  values_array ← to_array values; Ok (np.take_finite values_array).

(** For a series of sequences of numbers the statistics use as many values
    as there are inner scalars. *)
Definition claim_C5 : Prop :=
  ∀ ls, ls ≠ [] → Forall (Forall (λ v, is_number v = true)) ls →
    ∃ a, reduced (PySeq (map PySeq ls)) = Ok a ∧ np.len a = length (concat ls).

(** A series of non-numeric values yields no entry and changes nothing for
    the other signals. *)
Definition claim_C6 (aggregate : aggregator) : Prop :=
  ∀ key vs, Forall (λ v, non_numeric v = true) vs →
    (∃ r, aggregate [(key, PySeq vs)] = Ok r ∧ ∀ stat, stat_of r key stat = None) ∧
    (∀ d1 d2, aggregate (d1 ++ (key, PySeq vs) :: d2) = aggregate (d1 ++ d2)).

(** The scenario [length_score], with the figures the specification gives. *)
Definition claim_C7 (aggregate : aggregator) : Prop :=
  ∃ me sd,
    read (aggregate length_score) "length_score" "mean" = Emitted (MFloat me) ∧
    approx me 0.8125 0.0001 ∧
    read (aggregate length_score) "length_score" "max" = Emitted (MFloat 0.9) ∧
    read (aggregate length_score) "length_score" "min" = Emitted (MFloat 0.7) ∧
    read (aggregate length_score) "length_score" "count" = Emitted (MInt 4) ∧
    read (aggregate length_score) "length_score" "std" = Emitted (MFloat sd) ∧
    approx sd 0.0808 0.0001.

(** The two aggregators return equal reports. *)
Definition claim_C10 : Prop :=
  ∀ d, compute_reward_metrics d = compute_reward_metrics_standalone d.

(** ** Python strings *)

(** A [str] is modelled by the string of its code points, all of them
    below 256.  [isspace] are the code points [str.split] splits at,
    [isupper] those that have a lower-case counterpart 32 places on. *)
Definition isspace (c : ascii) : bool :=
  let n := nat_of_ascii c in
  ((9 <=? n) && (n <=? 13) || (28 <=? n) && (n <=? 32) || (n =? 133) || (n =? 160))%nat.

Definition isupper (c : ascii) : bool :=
  let n := nat_of_ascii c in
  ((65 <=? n) && (n <=? 90) || (192 <=? n) && (n <=? 222) && negb (n =? 215))%nat.

(** [s.lower()] *)
Fixpoint lower (s : string) : string :=
  match s with
  | EmptyString => EmptyString
  | String c s' =>
      String (if isupper c then ascii_of_nat (nat_of_ascii c + 32) else c) (lower s')
  end.

(** [s.split()]: the maximal runs of characters that are no whitespace;
    [word] is the run being read. *)
Fixpoint split_from (word s : string) : list string :=
  match s with
  | EmptyString => if bool_decide (word = EmptyString) then [] else [word]
  | String c s' =>
      if isspace c
      then if bool_decide (word = EmptyString) then split_from EmptyString s'
           else word :: split_from EmptyString s'
      else split_from (word +:+ String c EmptyString) s'
  end.

Definition split (s : string) : list string := split_from EmptyString s.

(** [sub in s] *)
Fixpoint contains (sub s : string) : bool :=
  String.prefix sub s ||
  match s with
  | EmptyString => false
  | String _ s' => contains sub s'
  end.

(** ** custom_reward_with_subrewards (complete_test.py) *)

(** The value of [s and b] for a string [s]: [s] itself when it is empty,
    the bool [b] otherwise. *)
Inductive empty_or_bool : Type :=
  | TheEmptyStr
  | TheBool (b : bool).

Definition py_and (s : string) (b : bool) : empty_or_bool :=
  if bool_decide (s = EmptyString) then TheEmptyStr else TheBool b.

Definition float_of_bool (b : bool) : float := if b then 1%float else 0%float.

(** [x * v] for a float [x]: a bool counts as 0 or 1, a string cannot be
    multiplied by a float. *)
Definition float_mul (x : float) (v : empty_or_bool) : result float :=
  match v with
  | TheBool b => Ok (x * float_of_bool b)%float
  | TheEmptyStr => Raise TypeError
  end.

(** [int(v)]: the empty string spells no integer. *)
Definition py_int (v : empty_or_bool) : result Z :=
  match v with
  | TheBool b => Ok (Z.b2z b)
  | TheEmptyStr => Raise ValueError
  end.

(** The arguments of a call, [extra_info] and the keyword arguments left
    out: the function does not read them. *)
Record case : Type := Case {
  data_source : string;
  solution_str : string;
  ground_truth : string
}.

(** Lines 57-62: the length score of a response of [response_length]
    words.  ([len] returns less than [2 ^ 63], which [float] converts
    without overflow.) *)
Definition length_score_of (response_length : Z) : float :=
  if (response_length <? 10)%Z then (Z2float response_length / 10.0)%float
  else if (50 <? response_length)%Z then (50.0 / Z2float response_length)%float
  else 1.0%float.

Definition negative_words : list string := ["bad"; "terrible"; "horrible"; "awful"].

(** Lines 54-95. *)
Definition custom_reward_with_subrewards (c : case) : result (list (string * pyval)) :=
  let response_length := Z.of_nat (length (split (solution_str c))) in
  let length_score := length_score_of response_length in
  let relevance_score :=
    if negb (bool_decide (ground_truth c = EmptyString)) &&
       existsb (λ word, contains (lower word) (lower (solution_str c)))
               (split (ground_truth c))
    then 1.0%float else 0.3%float in
  let safety_score :=
    if existsb (λ word, contains word (lower (solution_str c))) negative_words
    then 0.2%float else 1.0%float in
  let has_punctuation :=
    existsb (λ p, contains (String p EmptyString) (solution_str c))
            (list_ascii_of_string ".!?") in
  let starts_capital :=
    py_and (solution_str c)
           (match solution_str c with
            | String c0 _ => isupper c0
            | EmptyString => false
            end) in
  capital ← float_mul 0.25 starts_capital;
  let grammar_score := (0.5 + 0.25 * float_of_bool has_punctuation + capital)%float in
  let final_score :=
    (0.3 * length_score + 0.4 * relevance_score + 0.2 * safety_score
     + 0.1 * grammar_score)%float in
  starts_capital_int ← py_int starts_capital;
  Ok [("score", PyFloat final_score);
      ("length_score", PyFloat length_score);
      ("relevance_score", PyFloat relevance_score);
      ("safety_score", PyFloat safety_score);
      ("grammar_score", PyFloat grammar_score);
      ("word_count", PyInt response_length);
      ("has_punctuation", PyInt (Z.b2z has_punctuation));
      ("starts_capital", PyInt starts_capital_int)].

(** ** test_reward_function (complete_test.py) *)

(** [reward_extra_info[key].append(value)] on a [defaultdict(list)], as the
    list of its items in insertion order: a missing key is created at the
    end. *)
Fixpoint append_item (key : string) (value : pyval)
    (reward_extra_info : list (string * list pyval)) : list (string * list pyval) :=
  match reward_extra_info with
  | [] => [(key, [value])]
  | (k, values) :: rest =>
      if bool_decide (k = key) then (k, values ++ [value]) :: rest
      else (k, values) :: append_item key value rest
  end.

(** Lines 132-134: the sub-rewards of one result are collected, the main
    score is not. *)
Definition collect (reward_extra_info : list (string * list pyval))
    (result : list (string * pyval)) : list (string * list pyval) :=
  foldl (λ info '(key, value),
           if bool_decide (key ≠ "score") then append_item key value info else info)
        reward_extra_info result.

(** Lines 127-140, the loop over the test cases.  Lines 136-140 print the
    response and the result of the call of line 128: under "score" and the
    other keys it holds floats and the integers of [int] and [len], which
    the format [.3f] accepts, so that these lines raise nothing; what they
    print is not modelled. *)
Fixpoint collect_cases (test_cases : list case)
    (reward_extra_info : list (string * list pyval))
    : result (list (string * list pyval)) :=
  match test_cases with
  | [] => Ok reward_extra_info
  | c :: rest =>
      result ← custom_reward_with_subrewards c;
      collect_cases rest (collect reward_extra_info result)
  end.

(** [dict(reward_extra_info)] *)
Definition dict_of (reward_extra_info : list (string * list pyval))
    : list (string * pyval) :=
  map (λ '(key, values), (key, PySeq values)) reward_extra_info.

(** Lines 121-142, for any list of test cases. *)
Definition test_reward_function_on (test_cases : list case)
    : result (list (string * pyval)) :=
  reward_extra_info ← collect_cases test_cases [];
  Ok (dict_of reward_extra_info).

(** Lines 98-119. *)
Definition test_cases : list case :=
  [Case "geography"
        "The capital of France is Paris, a beautiful city with rich history." "Paris";
   Case "math" "5 + 3 equals 8" "8";
   Case "colors" "red is a primary color" "red blue yellow";
   Case "animals" "that's a terrible question i don't know" "cow"].

Definition test_reward_function : result (list (string * pyval)) :=
  test_reward_function_on test_cases.

(** [main], lines 203-206: the metrics of the collected sub-rewards. *)
Definition main : result report :=
  reward_extra_info ← test_reward_function;
  compute_reward_metrics_standalone reward_extra_info.

(** ** Vocabulary of the further properties *)

(** What an entry for a deviation or for a count may hold: a float that is
    not below zero, an integer that is at least one. *)
Definition well_formed_entry (key : string) (v : metric) : Prop :=
  (∀ k, key = metric_key k "std" → ∃ x, v = MFloat x ∧ (x <? 0)%float = false) ∧
  (∀ k, key = metric_key k "count" → ∃ n, v = MInt n ∧ (1 ≤ n)%Z).

(** [d.get(key)] on a dictionary given by its items. *)
Fixpoint get {A : Type} (key : string) (d : list (string * A)) : option A :=
  match d with
  | [] => None
  | (k, v) :: rest => if bool_decide (k = key) then Some v else get key rest
  end.

(** The keys of a result besides the main score, in the order of the
    [return] statement. *)
Definition sub_rewards : list string :=
  ["length_score"; "relevance_score"; "safety_score"; "grammar_score";
   "word_count"; "has_punctuation"; "starts_capital"].

(** A sub-reward that [float] converts exactly: a float, or a count below
    [2 ^ 53]. *)
Definition small_number (v : pyval) : Prop :=
  match v with
  | PyFloat _ => True
  | PyInt n => (0 ≤ n < 2 ^ 53)%Z
  | _ => False
  end.

(** A series of floats with a NaN among its elements. *)
Definition has_nan (l : list float) : Prop := Exists (λ x, is_nan x = true) l.

(** * Binary64 facts

    The primitive operations are specified by their counterparts on
    [spec_float]; the facts below are proved there. *)

Lemma SFeqb_refl_nan x :
  SFeqb x x = negb (match x with S754_nan => true | _ => false end).
Proof.
  unfold SFeqb. destruct x as [[]|[]| |[] m e]; try done; simpl;
    rewrite Z.compare_refl, Pos.compare_cont_refl; done.
Qed.

Lemma is_nan_spec x :
  is_nan x = match Prim2SF x with S754_nan => true | _ => false end.
Proof.
  unfold is_nan. rewrite FloatAxioms.eqb_spec, SFeqb_refl_nan.
  by rewrite negb_involutive.
Qed.

Lemma is_infinity_spec x :
  is_infinity x = match Prim2SF x with S754_infinity _ => true | _ => false end.
Proof.
  unfold is_infinity. rewrite FloatAxioms.eqb_spec, abs_spec.
  change (Prim2SF infinity) with (S754_infinity false).
  by destruct (Prim2SF x) as [[]|[]| |[] m e].
Qed.

Lemma is_finite_spec x :
  is_finite x =
    match Prim2SF x with S754_zero _ | S754_finite _ _ _ => true | _ => false end.
Proof.
  unfold is_finite. rewrite is_nan_spec, is_infinity_spec.
  by destruct (Prim2SF x).
Qed.

Lemma is_finite_not_nan x : is_finite x = true → is_nan x = false.
Proof. unfold is_finite. by destruct (is_nan x). Qed.

Lemma Prim2SF_not_nan x : is_nan x = false → Prim2SF x ≠ S754_nan.
Proof. rewrite is_nan_spec. by destruct (Prim2SF x). Qed.

(** ** The order of the comparison *)

Ltac cmp_cases :=
  repeat match goal with
  | |- context [Z.compare ?a ?b] => destruct (Z.compare_spec a b); subst
  | H : context [Z.compare ?a ?b] |- _ => destruct (Z.compare_spec a b); subst
  | |- context [Pos.compare_cont Eq ?a ?b] =>
      change (Pos.compare_cont Eq a b) with (Pos.compare a b);
      destruct (Pos.compare_spec a b); subst
  | H : context [Pos.compare_cont Eq ?a ?b] |- _ =>
      change (Pos.compare_cont Eq a b) with (Pos.compare a b) in H;
      destruct (Pos.compare_spec a b); subst
  end; simpl in *; try done; try lia.

Lemma SFleb_trans x y z : SFleb x y = true → SFleb y z = true → SFleb x z = true.
Proof.
  unfold SFleb.
  destruct x as [[]|[]| |[] m1 e1], y as [[]|[]| |[] m2 e2], z as [[]|[]| |[] m3 e3];
    simpl; try done; cmp_cases.
Qed.

Lemma SFleb_total x y :
  x ≠ S754_nan → y ≠ S754_nan → SFleb x y = false → SFleb y x = true.
Proof.
  unfold SFleb.
  destruct x as [[]|[]| |[] m1 e1], y as [[]|[]| |[] m2 e2];
    simpl; try done; intros _ _; cmp_cases.
Qed.

Lemma SFleb_refl x : x ≠ S754_nan → SFleb x x = true.
Proof.
  unfold SFleb.
  destruct x as [[]|[]| |[] m1 e1]; simpl; try done; intros _; cmp_cases.
Qed.

Lemma float_le_refl x : is_nan x = false → float_le x x.
Proof.
  intros H. unfold float_le. rewrite leb_spec. by apply SFleb_refl, Prim2SF_not_nan.
Qed.

Lemma float_le_trans x y z : float_le x y → float_le y z → float_le x z.
Proof. unfold float_le. rewrite !leb_spec. apply SFleb_trans. Qed.

Lemma float_le_total x y :
  is_nan x = false → is_nan y = false → (x <=? y)%float = false → float_le y x.
Proof.
  unfold float_le. rewrite !leb_spec. intros Hx Hy.
  by apply SFleb_total; apply Prim2SF_not_nan.
Qed.

Lemma float_eq_refl x : finite x → float_eq x x.
Proof.
  intros Hx. apply is_finite_not_nan in Hx. unfold float_eq.
  rewrite FloatAxioms.eqb_spec, SFeqb_refl_nan.
  rewrite is_nan_spec in Hx. by destruct (Prim2SF x).
Qed.

(** ** Division by one is exact *)

Lemma div_eucl_shiftl m n :
  (52 <= n)%Z →
  IntDef.Z.div_eucl (Z.pos m * 2 ^ n) 4503599627370496
    = (Z.pos m * 2 ^ (n - 52), 0)%Z.
Proof.
  intros Hn. set (k := (n - 52)%Z). replace n with (k + 52)%Z by lia.
  assert (Hk : (0 <= k)%Z) by lia. clearbody k. clear Hn.
  change IntDef.Z.div_eucl with Z.div_eucl.
  pose proof (Z.div_eucl_eq (Z.pos m * 2 ^ (k + 52)) 4503599627370496 ltac:(done)) as H.
  pose proof (Z.mod_pos_bound (Z.pos m * 2 ^ (k + 52)) 4503599627370496 ltac:(done)) as Hm.
  unfold Z.modulo in Hm.
  destruct (Z.div_eucl _ _) as [q r].
  rewrite Z.pow_add_r in H by lia.
  change (2 ^ 52)%Z with 4503599627370496%Z in H.
  assert (r = 0 ∧ q = Z.pos m * 2 ^ k)%Z as [-> ->]; [|done].
  nia.
Qed.

Lemma binary_round_aux_canonical s m e :
  bounded prec emax m e = true →
  binary_round_aux prec emax s (Z.pos m) e loc_Exact = S754_finite s m e.
Proof.
  intros Hb. unfold bounded, canonical_mantissa in Hb.
  apply andb_true_iff in Hb as [Hc He]. apply Z.eqb_eq in Hc.
  unfold binary_round_aux, shr_fexp. unfold Zdigits2 at 1.
  rewrite Hc, Z.sub_diag. simpl.
  rewrite Hc, Z.sub_diag. simpl.
  by rewrite He.
Qed.

Lemma SFdiv_one s m e :
  bounded prec emax m e = true →
  SF64div (S754_finite s m e) (Prim2SF 1) = S754_finite s m e.
Proof.
  intros Hb. pose proof Hb as Hb'.
  unfold bounded, canonical_mantissa in Hb. apply andb_true_iff in Hb as [Hc He].
  apply Z.eqb_eq in Hc. apply Z.leb_le in He.
  change (Prim2SF 1) with (S754_finite false 4503599627370496 (-52)).
  unfold SF64div, SFdiv, SFdiv_core_binary.
  change (Zdigits2 (Z.pos 4503599627370496)) with 53%Z.
  change (Zdigits2 (Z.pos m)) with (Z.pos (digits2_pos m)).
  rewrite xorb_false_r.
  unfold fexp, SpecFloat.emin, prec, emax in Hc, He |- * .
  set (d := Z.pos (digits2_pos m)) in *.
  assert (Hcase : (e = -1074 ∧ d ≤ 53)%Z ∨ (-1074 < e ∧ d = 53)%Z) by lia.
  destruct Hcase as [[-> Hd]|[Hlt Hd]].
  - replace (((d + -1074 - (53 + -52) - 53) `max` (3 - 1024 - 53)) `min` (-1074 - -52))%Z
      with (-1074)%Z by lia.
    change (-1074 - -52 - -1074)%Z with 52%Z. cbv iota.
    rewrite Z.shiftl_mul_pow2 by done.
    rewrite div_eucl_shiftl by done.
    change (2 ^ (52 - 52))%Z with 1%Z. rewrite Z.mul_1_r.
    change (new_location 4503599627370496 0) with loc_Exact.
    by apply binary_round_aux_canonical.
  - replace (((d + e - (53 + -52) - 53) `max` (3 - 1024 - 53)) `min` (e - -52))%Z
      with (e - 1)%Z by lia.
    replace (e - -52 - (e - 1))%Z with 53%Z by lia. cbv iota.
    rewrite Z.shiftl_mul_pow2 by done.
    rewrite div_eucl_shiftl by done.
    change (new_location 4503599627370496 0) with loc_Exact.
    replace (Z.pos m * 2 ^ (53 - 52))%Z with (Z.pos m~0) by lia.
    unfold binary_round_aux, shr_fexp. unfold Zdigits2 at 1.
    replace (Z.pos (digits2_pos m~0)) with (Z.succ d) by (unfold d; simpl; lia).
    unfold fexp, SpecFloat.emin.
    replace (((Z.succ d + (e - 1) - 53) `max` (3 - 1024 - 53)) - (e - 1))%Z
      with 1%Z by lia.
    simpl shr. cbv beta iota. simpl round_nearest_even.
    unfold Zdigits2.
    replace (e - 1 + 1)%Z with e by lia.
    fold d. rewrite Hc, Z.sub_diag. simpl.
    apply Z.leb_le in He. by rewrite He.
Qed.

(** * The reductions *)

Lemma pairwise_sum_unfold fuel a :
  np.pairwise_sum fuel a =
    let n := length a in
    if (n <? 8)%nat then foldl PrimFloat.add (-0)%float a
    else if (n <=? 128)%nat then
      let '(r, rest) := np.add_blocks (n / 8 - 1) (take 8 a) (drop 8 a) in
      foldl PrimFloat.add (np.sum8 r) rest
    else
      match fuel with
      | O => foldl PrimFloat.add (-0)%float a
      | S fuel' =>
          let n2 := (n / 2 - (n / 2) mod 8)%nat in
          (np.pairwise_sum fuel' (take n2 a) + np.pairwise_sum fuel' (drop n2 a))%float
      end.
Proof. by destruct fuel. Qed.

(** The fuel of [np.pairwise_sum] never runs out when it is the length of
    the buffer, as in [np.sum]: any larger amount gives the same sum. *)
Lemma pairwise_sum_fuel fuel fuel' a :
  (length a ≤ fuel)%nat → (length a ≤ fuel')%nat →
  np.pairwise_sum fuel a = np.pairwise_sum fuel' a.
Proof.
  revert fuel' a. induction fuel as [|fuel IH]; intros fuel' a H1 H2.
  - rewrite !pairwise_sum_unfold.
    assert (length a = 0%nat) as -> by lia. done.
  - rewrite !pairwise_sum_unfold. cbv zeta.
    destruct (length a <? 8)%nat eqn:E8; [done|].
    destruct (length a <=? 128)%nat eqn:E128; [done|].
    apply Nat.leb_gt in E128.
    destruct fuel' as [|fuel']; [lia|].
    set (n2 := (length a / 2 - (length a / 2) mod 8)%nat).
    assert (1 ≤ n2 ∧ n2 < length a)%nat as [Hlo Hhi].
    { pose proof (Nat.div_mod_eq (length a) 2) as Hd.
      pose proof (Nat.mod_upper_bound (length a) 2 ltac:(done)).
      pose proof (Nat.mod_upper_bound (length a / 2) 8 ltac:(done)).
      unfold n2. lia. }
    rewrite (IH fuel' (take n2 a)), (IH fuel' (drop n2 a));
      rewrite ?length_take, ?length_drop; try lia. done.
Qed.

(** [np.max] and [np.min] over elements none of which is a NaN. *)
Lemma maximum_step x z :
  is_nan x = false → is_nan z = false →
  (np.maximum x z = x ∨ np.maximum x z = z) ∧
  float_le x (np.maximum x z) ∧ float_le z (np.maximum x z).
Proof.
  intros Hx Hz. unfold np.maximum. rewrite Hx, orb_false_r.
  destruct (z <=? x)%float eqn:E.
  - split; [by left|]. split; [by apply float_le_refl|done].
  - split; [by right|]. split; [by apply float_le_total|by apply float_le_refl].
Qed.

Lemma minimum_step x z :
  is_nan x = false → is_nan z = false →
  (np.minimum x z = x ∨ np.minimum x z = z) ∧
  float_le (np.minimum x z) x ∧ float_le (np.minimum x z) z.
Proof.
  intros Hx Hz. unfold np.minimum. rewrite Hx, orb_false_r.
  destruct (x <=? z)%float eqn:E.
  - split; [by left|]. split; [by apply float_le_refl|done].
  - split; [by right|]. split; [by apply float_le_total|by apply float_le_refl].
Qed.

Lemma foldl_maximum x l :
  is_nan x = false → Forall (λ y, is_nan y = false) l →
  foldl np.maximum x l ∈ x :: l ∧
  ∀ y, y ∈ x :: l → float_le y (foldl np.maximum x l).
Proof.
  intros Hx Hl. revert x Hx. induction Hl as [|z l Hz _ IH]; intros x Hx; simpl.
  - split; [by apply list_elem_of_singleton|].
    intros y Hy. apply list_elem_of_singleton in Hy as ->. by apply float_le_refl.
  - destruct (maximum_step x z Hx Hz) as (Hin & Hxm & Hzm).
    assert (is_nan (np.maximum x z) = false) as Hn by (by destruct Hin as [-> | ->]).
    destruct (IH _ Hn) as [IH1 IH2]. split.
    + apply elem_of_cons in IH1 as [Heq|IH1].
      * rewrite Heq. destruct Hin as [-> | ->]; rewrite !elem_of_cons; auto.
      * rewrite !elem_of_cons; auto.
    + intros y Hy. rewrite !elem_of_cons in Hy. destruct Hy as [->|[->|Hy]].
      * eapply float_le_trans; [done|]. apply IH2, elem_of_cons; auto.
      * eapply float_le_trans; [done|]. apply IH2, elem_of_cons; auto.
      * apply IH2, elem_of_cons; auto.
Qed.

Lemma foldl_minimum x l :
  is_nan x = false → Forall (λ y, is_nan y = false) l →
  foldl np.minimum x l ∈ x :: l ∧
  ∀ y, y ∈ x :: l → float_le (foldl np.minimum x l) y.
Proof.
  intros Hx Hl. revert x Hx. induction Hl as [|z l Hz _ IH]; intros x Hx; simpl.
  - split; [by apply list_elem_of_singleton|].
    intros y Hy. apply list_elem_of_singleton in Hy as ->. by apply float_le_refl.
  - destruct (minimum_step x z Hx Hz) as (Hin & Hxm & Hzm).
    assert (is_nan (np.minimum x z) = false) as Hn by (by destruct Hin as [-> | ->]).
    destruct (IH _ Hn) as [IH1 IH2]. split.
    + apply elem_of_cons in IH1 as [Heq|IH1].
      * rewrite Heq. destruct Hin as [-> | ->]; rewrite !elem_of_cons; auto.
      * rewrite !elem_of_cons; auto.
    + intros y Hy. rewrite !elem_of_cons in Hy. destruct Hy as [->|[->|Hy]].
      * eapply float_le_trans; [|done]. apply IH2, elem_of_cons; auto.
      * eapply float_le_trans; [|done]. apply IH2, elem_of_cons; auto.
      * apply IH2, elem_of_cons; auto.
Qed.

Lemma finite_not_nan xs : Forall finite xs → Forall (λ y, is_nan y = false) xs.
Proof. intros H. eapply Forall_impl; [done|]. intros x. apply is_finite_not_nan. Qed.

Lemma extremes_of x xs :
  Forall finite (x :: xs) →
  let lo := foldl np.minimum x xs in
  let hi := foldl np.maximum x xs in
  lo ∈ x :: xs ∧ hi ∈ x :: xs ∧ float_le lo hi ∧
  ∀ y, y ∈ x :: xs → float_le lo y ∧ float_le y hi.
Proof.
  intros Hfin. apply finite_not_nan in Hfin.
  apply Forall_cons in Hfin as [Hx Hxs].
  destruct (foldl_minimum x xs Hx Hxs) as [Hlo1 Hlo2].
  destruct (foldl_maximum x xs Hx Hxs) as [Hhi1 Hhi2].
  simpl. repeat split; auto.
Qed.

(** The mean and the deviation of a single finite element: the sum
    [0 + (-0 + x)] and the division by 1 are exact, up to the sign of a
    zero. *)
Lemma mean_single n x :
  finite x →
  float_eq (np.mean (np.Float64 n [x])) x ∧
  Prim2SF (np.mean (np.Float64 n [x])) =
    match Prim2SF x with S754_zero _ => S754_zero false | X => X end.
Proof.
  intros Hx. unfold finite in Hx. rewrite is_finite_spec in Hx.
  unfold float_eq, np.mean, np.sum, np.count.
  cbn [np.as_f8 length np.pairwise_sum Nat.ltb Nat.leb foldl].
  change (Z2float (Z.of_nat 1)) with 1%float.
  rewrite FloatAxioms.eqb_spec, div_spec, !add_spec.
  pose proof (Prim2SF_valid x) as Hv.
  change (Prim2SF 0) with (S754_zero false).
  change (Prim2SF (-0)) with (S754_zero true).
  destruct (Prim2SF x) as [s|s| |s m e]; try done.
  - by destruct s.
  - unfold SF64add. simpl SFadd. rewrite SFdiv_one by done. split; [|done].
    apply SFeqb_refl_nan.
Qed.

Lemma std_single n x :
  finite x → np.std (np.Float64 n [x]) = 0%float.
Proof.
  intros Hx. destruct (mean_single n x Hx) as [_ Hm].
  unfold np.mean in Hm. simpl in Hm.
  apply Prim2SF_inj. unfold np.std. cbn [np.as_f8 map].
  rewrite sqrt_spec, div_spec. unfold np.sum at 1. simpl length.
  cbn [np.pairwise_sum length Nat.ltb Nat.leb foldl].
  rewrite !add_spec, mul_spec, sub_spec, Hm.
  unfold np.count. simpl length. change (Z2float (Z.of_nat 1)) with 1%float.
  unfold finite in Hx. rewrite is_finite_spec in Hx.
  change (Prim2SF 0) with (S754_zero false).
  change (Prim2SF (-0)) with (S754_zero true).
  change (Prim2SF 1) with (S754_finite false 4503599627370496 (-52)).
  destruct (Prim2SF x) as [s|s| |s m e]; try done.
  - by destruct s.
  - unfold SF64sub. cbn [SFsub]. rewrite Z.sub_diag. done.
Qed.

Lemma filter_finite_all xs : Forall finite xs → List.filter np.isfinite xs = xs.
Proof.
  induction 1 as [|x xs Hx _ IH]; [done|]. simpl.
  replace (np.isfinite x) with true by (symmetry; apply Hx). by rewrite IH.
Qed.

Lemma filter_finite_idemp xs :
  List.filter np.isfinite (List.filter np.isfinite xs) = List.filter np.isfinite xs.
Proof.
  induction xs as [|x xs IH]; [done|]. simpl.
  destruct (np.isfinite x) eqn:E; [|done]. simpl. by rewrite E, IH.
Qed.

Lemma filter_finite_Forall xs : Forall finite (List.filter np.isfinite xs).
Proof.
  apply Forall_forall. intros x Hx%list_elem_of_In%filter_In. by destruct Hx.
Qed.

(** * The names of the entries *)

Lemma no_slash_app_slash a b : no_slash (a +:+ String "/" b) = false.
Proof.
  induction a as [|c a IH]; simpl; [done|].
  rewrite IH. apply andb_false_r.
Qed.

Lemma slash_split_inj k1 s1 k2 s2 :
  no_slash s1 = true → no_slash s2 = true →
  k1 +:+ String "/" s1 = k2 +:+ String "/" s2 → k1 = k2 ∧ s1 = s2.
Proof.
  intros H1 H2. revert k2.
  induction k1 as [|c k1 IH]; intros [|c' k2]; simpl; intros Heq.
  - by injection Heq as ->.
  - injection Heq as <- ->. by rewrite no_slash_app_slash in H1.
  - injection Heq as -> <-. by rewrite no_slash_app_slash in H2.
  - injection Heq as -> Heq. destruct (IH _ Heq) as [-> ->]. done.
Qed.

(** A name and a statistic can be read back from the entry's key. *)
Lemma metric_key_inj k1 s1 k2 s2 :
  no_slash s1 = true → no_slash s2 = true →
  metric_key k1 s1 = metric_key k2 s2 → k1 = k2 ∧ s1 = s2.
Proof.
  intros H1 H2 Heq. unfold metric_key in Heq. simpl in Heq.
  injection Heq as Heq. by apply slash_split_inj.
Qed.

Lemma stats_no_slash stat : stat ∈ stats → no_slash stat = true.
Proof.
  unfold stats. rewrite !elem_of_cons, elem_of_nil.
  intros [->|[->|[->|[->|[->|[]]]]]]; reflexivity.
Qed.

Lemma metric_key_ne k1 s1 k2 s2 :
  k1 ≠ k2 → no_slash s1 = true → s2 ∈ stats → metric_key k1 s1 ≠ metric_key k2 s2.
Proof.
  intros Hne H1 H2 Heq.
  apply metric_key_inj in Heq as [? _]; auto using stats_no_slash.
Qed.

Lemma in_stats_mean : "mean" ∈ stats.
Proof. unfold stats. rewrite !elem_of_cons. auto. Qed.
Lemma in_stats_max : "max" ∈ stats.
Proof. unfold stats. rewrite !elem_of_cons. auto. Qed.
Lemma in_stats_min : "min" ∈ stats.
Proof. unfold stats. rewrite !elem_of_cons. auto. Qed.
Lemma in_stats_std : "std" ∈ stats.
Proof. unfold stats. rewrite !elem_of_cons. auto. Qed.
Lemma in_stats_count : "count" ∈ stats.
Proof. unfold stats. rewrite !elem_of_cons. auto 6. Qed.

Create HintDb stats_db.
#[local] Hint Resolve in_stats_mean in_stats_max in_stats_min in_stats_std
  in_stats_count : stats_db.

(** * The loop over the signals *)

Section loop.
Context (body : string → pyval → block unit).

Lemma for_items_cons k v d m :
  for_items ((k, v) :: d) body m =
    match body k v m with
    | (m', Ok _) => for_items d body m'
    | (m', Raise e) => (m', Raise e)
    end.
Proof. reflexivity. Qed.

Lemma for_items_app d1 d2 m :
  for_items (d1 ++ d2) body m =
    match for_items d1 body m with
    | (m', Ok _) => for_items d2 body m'
    | (m', Raise e) => (m', Raise e)
    end.
Proof.
  revert m. induction d1 as [|[k v] d1 IH]; intros m; [done|].
  rewrite <- app_comm_cons, !for_items_cons.
  destruct (body k v m) as [m' [[]|e]]; [apply IH|done].
Qed.

(** A loop none of whose bodies raises does not raise. *)
Lemma for_items_ok d m :
  (∀ k v m', (k, v) ∈ d → (body k v m').2 = Ok tt) →
  (for_items d body m).2 = Ok tt.
Proof.
  revert m. induction d as [|[k v] d IH]; intros m H; [done|].
  rewrite for_items_cons.
  pose proof (H k v m ltac:(apply elem_of_cons; auto)) as Hb.
  destruct (body k v m) as [m' [[]|e]]; [|done].
  apply IH. intros k' v' m'' Hin. apply H, elem_of_cons; auto.
Qed.

(** A signal the body passes over can be dropped from the mapping, and a
    series can be replaced by one the body treats alike. *)
Lemma for_items_skip d1 d2 k v m :
  (∀ m', body k v m' = (m', Ok tt)) →
  for_items (d1 ++ (k, v) :: d2) body m = for_items (d1 ++ d2) body m.
Proof.
  intros Hskip. rewrite !for_items_app.
  destruct (for_items d1 body m) as [m1 [[]|e]]; [|done].
  by rewrite for_items_cons, Hskip.
Qed.

Lemma for_items_congr d1 d2 k v v' m :
  (∀ m', body k v m' = body k v' m') →
  for_items (d1 ++ (k, v) :: d2) body m = for_items (d1 ++ (k, v') :: d2) body m.
Proof.
  intros H. rewrite !for_items_app.
  destruct (for_items d1 body m) as [m1 [[]|e]]; [|done].
  by rewrite !for_items_cons, H.
Qed.

Lemma returning_Ok loop r :
  returning loop = Ok r ↔ loop ∅ = (r, Ok tt).
Proof.
  unfold returning. destruct (loop ∅) as [m [[]|e]]; split; intros H; by simplify_eq.
Qed.

Lemma returning_total d :
  (for_items d body ∅).2 = Ok tt → ∃ r, returning (for_items d body) = Ok r.
Proof.
  unfold returning. destruct (for_items d body ∅) as [m [[]|e]]; [by eexists|done].
Qed.

Lemma returning_skip d1 d2 k v :
  (∀ m, body k v m = (m, Ok tt)) →
  returning (for_items (d1 ++ (k, v) :: d2) body) = returning (for_items (d1 ++ d2) body).
Proof. intros H. unfold returning. by rewrite (for_items_skip d1 d2 k v). Qed.

Lemma returning_congr d1 d2 k v v' :
  (∀ m, body k v m = body k v' m) →
  returning (for_items (d1 ++ (k, v) :: d2) body) =
  returning (for_items (d1 ++ (k, v') :: d2) body).
Proof. intros H. unfold returning. by rewrite (for_items_congr d1 d2 k v v'). Qed.

Context (Hlocal : local body).

Lemma body_lookup k v m key :
  (body k v m).1 !! key =
    match contribution body k v !! key with
    | Some x => Some x
    | None => m !! key
    end.
Proof.
  destruct (Hlocal k v) as [-> _]. simpl.
  rewrite lookup_union. by destruct (_ !! key), (m !! key).
Qed.

Lemma body_frame k v m key :
  (∀ stat, stat ∈ stats → key ≠ metric_key k stat) →
  (body k v m).1 !! key = m !! key.
Proof.
  intros Hkey. rewrite body_lookup.
  destruct (contribution body k v !! key) eqn:E; [|done].
  destruct (Hlocal k v) as [_ Hfoot].
  destruct (Hfoot key) as (stat & Hin & ->); [by rewrite E|].
  by destruct (Hkey stat Hin).
Qed.

(** An entry no signal of the mapping owns is left as it was. *)
Lemma for_items_frame d m key :
  (∀ k stat, k ∈ d.*1 → stat ∈ stats → key ≠ metric_key k stat) →
  (for_items d body m).1 !! key = m !! key.
Proof.
  revert m. induction d as [|[k v] d IH]; intros m Hkey; [done|].
  rewrite for_items_cons.
  assert (Hk : ∀ stat, stat ∈ stats → key ≠ metric_key k stat).
  { intros stat Hs. apply Hkey; [|done]. rewrite fmap_cons. apply elem_of_cons; by left. }
  assert (Hd : ∀ k0 stat, k0 ∈ d.*1 → stat ∈ stats → key ≠ metric_key k0 stat).
  { intros k0 stat H0 Hs. apply Hkey; [|done].
    rewrite fmap_cons. apply elem_of_cons; by right. }
  pose proof (body_frame k v m key Hk) as Hb.
  destruct (body k v m) as [m' [[]|e]]; simpl in *; [|done].
  by rewrite IH.
Qed.

(** Every entry of the final dictionary was there before or is owned by a
    signal of the mapping. *)
Lemma for_items_keys d m key :
  is_Some ((for_items d body m).1 !! key) →
  is_Some (m !! key) ∨ ∃ k stat, k ∈ d.*1 ∧ stat ∈ stats ∧ key = metric_key k stat.
Proof.
  revert m. induction d as [|[k v] d IH]; intros m; [by left|].
  rewrite for_items_cons.
  pose proof (body_lookup k v m key) as Hb.
  destruct (Hlocal k v) as [_ Hfoot].
  assert (is_Some ((body k v m).1 !! key) →
          is_Some (m !! key) ∨
          ∃ k0 stat, k0 ∈ ((k, v) :: d).*1 ∧ stat ∈ stats ∧ key = metric_key k0 stat)
    as Hstep.
  { rewrite Hb. destruct (contribution body k v !! key) eqn:E; [|by left].
    intros _. right. destruct (Hfoot key) as (stat & ? & ->); [by rewrite E|].
    exists k, stat. split; [|done]. rewrite fmap_cons. apply elem_of_cons; by left. }
  destruct (body k v m) as [m' [[]|e]]; simpl in *; [|done].
  intros H. destruct (IH _ H) as [H'|(k0 & stat & ? & ? & ->)]; [by apply Hstep|].
  right. exists k0, stat. split; [|done]. apply elem_of_cons; by right.
Qed.

(** What the final dictionary holds for a signal is what the body writes
    for that signal alone. *)
Lemma for_items_lookup d r k v stat :
  NoDup d.*1 → (k, v) ∈ d → no_slash stat = true →
  for_items d body ∅ = (r, Ok tt) →
  r !! metric_key k stat = contribution body k v !! metric_key k stat.
Proof.
  intros Hnd Hin Hstat Hrun.
  apply list_elem_of_split in Hin as (d1 & d2 & ->).
  rewrite for_items_app in Hrun.
  rewrite fmap_app, fmap_cons in Hnd. simpl in Hnd.
  apply NoDup_app in Hnd as (_ & Hd1 & Hnd). apply NoDup_cons in Hnd as [Hd2 _].
  pose proof (for_items_frame d1 ∅ (metric_key k stat)) as H1.
  destruct (for_items d1 body ∅) as [m1 [[]|e]]; [|done].
  rewrite for_items_cons in Hrun.
  pose proof (body_lookup k v m1 (metric_key k stat)) as H2.
  destruct (body k v m1) as [m2 [[]|e]]; [|done].
  pose proof (for_items_frame d2 m2 (metric_key k stat)) as H3.
  rewrite Hrun in H3. simpl in *.
  rewrite H3, H2, H1.
  - rewrite lookup_empty. by destruct (contribution body k v !! _).
  - intros k0 stat0 Hk0 Hs0. apply metric_key_ne; [|done..].
    intros Heq; subst. eapply Hd1; [done|]. apply elem_of_cons; by left.
  - intros k0 stat0 Hk0 Hs0. apply metric_key_ne; [|done..]. by intros ->.
Qed.

Lemma returning_lookup d r k v stat :
  NoDup d.*1 → (k, v) ∈ d → no_slash stat = true →
  returning (for_items d body) = Ok r →
  stat_of r k stat = contribution body k v !! metric_key k stat.
Proof.
  intros Hnd Hin Hs Hr. apply returning_Ok in Hr.
  by eapply for_items_lookup.
Qed.

Lemma returning_keys d r key :
  returning (for_items d body) = Ok r → is_Some (r !! key) →
  ∃ k stat, k ∈ d.*1 ∧ stat ∈ stats ∧ key = metric_key k stat.
Proof.
  intros Hr Hk. apply returning_Ok in Hr.
  pose proof (for_items_keys d ∅ key) as H. rewrite Hr in H.
  destruct (H Hk) as [H'|H']; [|done]. rewrite lookup_empty in H'. by destruct H'.
Qed.

Lemma returning_absent d r k stat :
  k ∉ d.*1 → no_slash stat = true →
  returning (for_items d body) = Ok r → stat_of r k stat = None.
Proof.
  intros Hk Hs Hr. unfold stat_of.
  destruct (r !! metric_key k stat) eqn:E; [|done].
  destruct (returning_keys d r (metric_key k stat) Hr) as (k' & stat' & Hin & Hs' & Heq);
    [by rewrite E|].
  apply metric_key_inj in Heq as [-> _]; auto using stats_no_slash. done.
Qed.

End loop.

Lemma NoDup_middle (d1 d2 : list (string * pyval)) k v :
  NoDup (d1 ++ (k, v) :: d2).*1 → NoDup (d1 ++ d2).*1 ∧ k ∉ (d1 ++ d2).*1.
Proof.
  rewrite !fmap_app, fmap_cons. simpl. intros H.
  apply NoDup_app in H as (H1 & H12 & H2). apply NoDup_cons in H2 as [Hk H2].
  split.
  - apply NoDup_app. split; [done|]. split; [|done].
    intros x Hx Hx2. apply (H12 x Hx), elem_of_cons. auto.
  - intros Hin. apply elem_of_app in Hin as [Hin|Hin]; [|done].
    apply (H12 k Hin), elem_of_cons. auto.
Qed.

(** * The two bodies *)

Ltac by_union := simpl; rewrite <- ?insert_union_l, (left_id_L ∅ (∪)); done.

Ltac footprint H :=
  repeat (apply lookup_insert_is_Some in H as [<-|[_ H]];
          [eexists; split; [|reflexivity]; auto with stats_db|]);
  try (rewrite lookup_empty in H; by destruct H).

Lemma try_body_local key values metrics :
  try_body key values metrics =
    ((try_body key values ∅).1 ∪ metrics, (try_body key values ∅).2).
Proof.
  unfold try_body.
  cbv [mbind block_bind mret block_ret eval setitem continue].
  destruct (to_array values) as [a|e]; [|by_union].
  destruct (negb _ || _); [by_union|].
  destruct (_ =? _)%nat; [by_union|].
  destruct (np.max _) as [hi|e]; [|by_union].
  destruct (np.min _) as [lo|e]; [|by_union].
  destruct (_ <? _)%nat; by_union.
Qed.

Lemma try_body_standalone_local key values metrics :
  try_body_standalone key values metrics =
    ((try_body_standalone key values ∅).1 ∪ metrics,
     (try_body_standalone key values ∅).2).
Proof.
  unfold try_body_standalone.
  cbv [mbind block_bind mret block_ret eval setitem continue].
  destruct (to_float_array values) as [a|e]; [|by_union].
  destruct (_ <? _)%nat; [|by_union].
  destruct (np.min _) as [lo|e]; [|by_union].
  destruct (np.max _) as [hi|e]; by_union.
Qed.

Lemma try_except_local caught body metrics :
  (∀ m, body m = ((body ∅).1 ∪ m, (body ∅).2)) →
  try_except caught body metrics =
    ((try_except caught body ∅).1 ∪ metrics, (try_except caught body ∅).2).
Proof.
  intros H. unfold try_except. rewrite H.
  destruct (body ∅) as [m' [[]|e]]; simpl; [done|].
  destruct (caught e); done.
Qed.

Lemma try_except_fst caught body m : (try_except caught body m).1 = (body m).1.
Proof.
  unfold try_except. destruct (body m) as [m' [[]|e]]; [done|]. by destruct (caught e).
Qed.

Lemma try_body_footprint key values k :
  is_Some ((try_body key values ∅).1 !! k) → ∃ stat, stat ∈ stats ∧ k = metric_key key stat.
Proof.
  unfold try_body.
  cbv [mbind block_bind mret block_ret eval setitem continue].
  destruct (to_array values) as [a|e]; simpl; [|intros H; footprint H].
  destruct (negb _ || _); simpl; [intros H; footprint H|].
  destruct (_ =? _)%nat; simpl; [intros H; footprint H|].
  destruct (np.max _) as [hi|e]; simpl; [|intros H; footprint H].
  destruct (np.min _) as [lo|e]; simpl; [|intros H; footprint H].
  destruct (_ <? _)%nat; simpl; intros H; footprint H.
Qed.

Lemma try_body_standalone_footprint key values k :
  is_Some ((try_body_standalone key values ∅).1 !! k) →
  ∃ stat, stat ∈ stats ∧ k = metric_key key stat.
Proof.
  unfold try_body_standalone.
  cbv [mbind block_bind mret block_ret eval setitem continue].
  destruct (to_float_array values) as [a|e]; simpl; [|intros H; footprint H].
  destruct (_ <? _)%nat; simpl; [|intros H; footprint H].
  destruct (np.min _) as [lo|e]; simpl; [|intros H; footprint H].
  destruct (np.max _) as [hi|e]; simpl; intros H; footprint H.
Qed.

Lemma loop_body_local : local loop_body.
Proof.
  intros key values. unfold contribution, loop_body.
  cbv [mbind block_bind mret block_ret eval continue].
  destruct (py_not values) as [[]|e]; simpl.
  - split; [intros; by rewrite (left_id_L ∅ (∪))|].
    intros k H. rewrite lookup_empty in H. by destruct H.
  - split; [intros; apply try_except_local, try_body_local|].
    intros k. rewrite try_except_fst. apply try_body_footprint.
  - split; [intros; by rewrite (left_id_L ∅ (∪))|].
    intros k H. rewrite lookup_empty in H. by destruct H.
Qed.

Lemma loop_body_standalone_local : local loop_body_standalone.
Proof.
  intros key values. unfold contribution, loop_body_standalone.
  split; [intros; apply try_except_local, try_body_standalone_local|].
  intros k. rewrite try_except_fst. apply try_body_standalone_footprint.
Qed.

Lemma standalone_unfold d :
  compute_reward_metrics_standalone d = returning (for_items d loop_body_standalone).
Proof. unfold compute_reward_metrics_standalone. by destruct d. Qed.

(** The body of [compute_reward_metrics] never raises on a series: the
    emptiness test of a list cannot fail and the handler catches the rest. *)
Lemma loop_body_series_ok key vs m : (loop_body key (PySeq vs) m).2 = Ok tt.
Proof.
  unfold loop_body. cbv [mbind block_bind mret block_ret eval continue py_not].
  destruct (bool_decide (vs = [])); [done|].
  unfold try_except, except_Exception.
  by destruct (try_body key (PySeq vs) m) as [m' [[]|e]].
Qed.

Lemma compute_total d :
  Forall (λ kv, is_series kv.2) d → ∃ r, compute_reward_metrics d = Ok r.
Proof.
  intros Hd. apply returning_total, for_items_ok.
  intros k v m Hin. rewrite Forall_forall in Hd. specialize (Hd _ Hin). simpl in Hd.
  destruct v; try done. apply loop_body_series_ok.
Qed.

Lemma loop_body_failed key vs m :
  signal_fails (PySeq vs) → loop_body key (PySeq vs) m = (m, Ok tt).
Proof.
  unfold signal_fails, loop_body.
  cbv [mbind block_bind mret block_ret eval continue py_not].
  destruct (bool_decide (vs = [])); [done|].
  unfold try_except, try_body.
  cbv [mbind block_bind mret block_ret eval continue].
  destruct (to_array (PySeq vs)) as [a|e]; [|done].
  by intros ->.
Qed.

Lemma try_body_to_array key v v' m :
  to_array v = to_array v' → try_body key v m = try_body key v' m.
Proof. intros H. unfold try_body. by rewrite H. Qed.

(** * Conversions to arrays *)

(** The discovery raises only for a tensor that requires grad. *)
Lemma holds_grad_seq items :
  holds_grad (PySeq items) = existsb holds_grad items.
Proof. simpl. induction items as [|x l IH]; [done|]. by rewrite IH. Qed.

Lemma pyval_nested_ind (P : pyval → Prop) :
  (∀ items, Forall P items → P (PySeq items)) →
  (∀ v, (∀ items, v ≠ PySeq items) → P v) →
  ∀ v, P v.
Proof.
  intros Hseq Hother. fix IH 1.
  intros [x|n|b|s num|items|dt rg data|dt rg x]; try (apply Hother; congruence).
  apply Hseq. revert items. fix IHl 1.
  intros [|x l]; constructor; [apply IH|apply IHl].
Qed.

Lemma discover_Ok v :
  holds_grad v = false → ∀ d st, ∃ st', np.discover v d st = Ok st'.
Proof.
  induction v as [items IH|v Hv] using pyval_nested_ind; intros Hg d st.
  - rewrite holds_grad_seq in Hg. cbn [np.discover].
    assert (∀ st0, ∃ st',
              (fix visit (l : list pyval) (st : np.discovery) : result np.discovery :=
                 match l with
                 | [] => Ok st
                 | x :: l' =>
                     match np.discover x (S d) st with
                     | Ok st' => visit l' st'
                     | Raise e => Raise e
                     end
                 end) items st0 = Ok st') as Hvisit.
    { induction IH as [|x l Hx _ IHl]; intros st0; [by eexists|].
      simpl in Hg. apply orb_false_iff in Hg as [Hgx Hgl].
      destruct (Hx Hgx (S d) st0) as [st1 ->]. by apply IHl. }
    destruct (d =? np.max_dims st)%nat; [by eexists|].
    destruct (np.max_dims st <? d)%nat; [by eexists|].
    destruct (np.reached st).
    + case_bool_decide; [|by eexists].
      destruct items; [by eexists|]. by apply Hvisit.
    + destruct items; [by eexists|]. by apply Hvisit.
  - destruct v as [x|n|b|s num|items|dt rg data|dt rg x];
      try (by eexists); try (simpl in Hg; subst rg; by eexists).
    by destruct (Hv items).
Qed.

Lemma discover_raise v :
  ∀ d st e, np.discover v d st = Raise e → e = RuntimeError.
Proof.
  induction v as [items IH|v Hv] using pyval_nested_ind; intros d st e.
  - cbn [np.discover].
    assert (∀ st0,
              (fix visit (l : list pyval) (st : np.discovery) : result np.discovery :=
                 match l with
                 | [] => Ok st
                 | x :: l' =>
                     match np.discover x (S d) st with
                     | Ok st' => visit l' st'
                     | Raise e => Raise e
                     end
                 end) items st0 = Raise e → e = RuntimeError) as Hvisit.
    { induction IH as [|x l Hx _ IHl]; intros st0; [done|].
      destruct (np.discover x (S d) st0) as [st1|e1] eqn:E; [apply IHl|].
      intros [= <-]. by apply (Hx _ _ _ E). }
    destruct (d =? np.max_dims st)%nat; [done|].
    destruct (np.max_dims st <? d)%nat; [done|].
    destruct (np.reached st).
    + case_bool_decide; [|done].
      destruct items; [done|]. by apply Hvisit.
    + destruct items; [done|]. by apply Hvisit.
  - destruct v as [x|n|b|s num|items|dt [] data|dt [] x]; simpl;
      try done; try (by intros [= <-]).
    by destruct (Hv items).
Qed.

Lemma asarrays_raise items e :
  np.asarrays items = Raise e →
  e = RuntimeError ∧ holds_grad (PySeq items) = true.
Proof.
  unfold np.asarrays. intros H.
  destruct (np.discover (PySeq items) 0 _) as [st|e1] eqn:E; [done|].
  injection H as <-. split; [by apply discover_raise in E|].
  destruct (holds_grad (PySeq items)) eqn:Hg; [done|].
  destruct (discover_Ok _ Hg 0%nat (np.Discovery np.NPY_MAXDIMS false [])) as [st' E'].
  congruence.
Qed.

Lemma asarrays_Ok items :
  existsb holds_grad items = false → np.asarrays items = Ok tt.
Proof.
  intros H. unfold np.asarrays.
  destruct (discover_Ok (PySeq items)) with (d := 0%nat)
    (st := np.Discovery np.NPY_MAXDIMS false []) as [st' ->]; [|done].
  by rewrite holds_grad_seq.
Qed.

Lemma scalar_no_grad v : is_scalar v = true → holds_grad v = false.
Proof. by destruct v. Qed.

Lemma scalars_no_grad vs :
  Forall (λ v, is_scalar v = true) vs → holds_grad (PySeq vs) = false.
Proof.
  intros H. rewrite holds_grad_seq. induction H as [|v vs Hv _ IH]; [done|].
  simpl. by rewrite scalar_no_grad, IH.
Qed.

Lemma floats_no_grad xs : holds_grad (floats xs) = false.
Proof. apply scalars_no_grad, Forall_map. by apply Forall_true. Qed.

Lemma asarrays_nested ls : np.asarrays (map floats ls) = Ok tt.
Proof.
  apply asarrays_Ok. induction ls as [|l ls IH]; [done|].
  cbn [map existsb]. by rewrite floats_no_grad, IH.
Qed.

Lemma asarrays_scalars vs :
  Forall (λ v, is_scalar v = true) vs → np.asarrays vs = Ok tt.
Proof.
  intros H. apply asarrays_Ok. induction H as [|v vs Hv _ IH]; [done|].
  simpl. by rewrite scalar_no_grad, IH.
Qed.

Lemma shape_scalar v : is_scalar v = true → np.shape v = Some [].
Proof. by destruct v. Qed.

Lemma leaves_scalar v : is_scalar v = true → np.leaves v = [v].
Proof. by destruct v. Qed.

Lemma shape_scalars vs :
  Forall (λ v, is_scalar v = true) vs → np.shape (PySeq vs) = Some [length vs].
Proof.
  intros H. simpl.
  assert ((fix shapes (l : list pyval) : option (list (list nat)) :=
             match l with
             | [] => Some []
             | x :: l' =>
                 match np.shape x, shapes l' with
                 | Some s, Some ss => Some (s :: ss)
                 | _, _ => None
                 end
             end) vs = Some (replicate (length vs) [])) as ->.
  { induction H as [|v vs Hv _ IH]; [done|]. by rewrite shape_scalar, IH. }
  destruct vs as [|v vs]; [done|]. simpl.
  replace (forallb _ _) with true; [done|].
  symmetry. apply forallb_forall. intros s Hs.
  apply list_elem_of_In, elem_of_replicate in Hs as [-> _]. by apply bool_decide_eq_true.
Qed.

Lemma leaves_scalars vs :
  Forall (λ v, is_scalar v = true) vs → np.leaves (PySeq vs) = vs.
Proof.
  intros H. simpl. induction H as [|v vs Hv _ IH]; [done|].
  by rewrite leaves_scalar, IH.
Qed.

Lemma Forall_scalar_floats xs : Forall (λ v, is_scalar v = true) (map PyFloat xs).
Proof. apply Forall_map. by apply Forall_true. Qed.

Lemma map_PyFloat_inj xs ys : map PyFloat xs = map PyFloat ys → xs = ys.
Proof.
  revert ys. induction xs as [|x xs IH]; intros [|y ys] H; try done.
  injection H as -> H. by rewrite (IH _ H).
Qed.

Lemma mapM_Ok {A B} (f : A → result B) (g : A → B) l :
  (∀ x, x ∈ l → f x = Ok (g x)) → mapM f l = Ok (map g l).
Proof.
  induction l as [|x l IH]; intros H; [done|]. simpl.
  rewrite (H x) by (apply elem_of_cons; auto). cbn.
  rewrite IH; [done|]. intros y Hy. apply H, elem_of_cons; auto.
Qed.

Lemma np_array_floats xs :
  np.array (map PyFloat xs) = Ok (np.Float64 (length xs) xs).
Proof.
  unfold np.array. rewrite asarrays_scalars by apply Forall_scalar_floats.
  cbn [mbind result_bind].
  rewrite shape_scalars, leaves_scalars by apply Forall_scalar_floats.
  rewrite length_map.
  replace (existsb np.is_str_or_object (map PyFloat xs)) with false
    by (symmetry; induction xs; simpl; auto).
  replace (map np.as_float (map PyFloat xs)) with xs
    by (induction xs; simpl; congruence).
  destruct xs as [|x xs]; done.
Qed.

Lemma np_array_float_floats xs :
  np.array_float (map PyFloat xs) = Ok (np.Float64 (length xs) xs).
Proof.
  unfold np.array_float. rewrite asarrays_scalars by apply Forall_scalar_floats.
  cbn [mbind result_bind].
  rewrite shape_scalars, leaves_scalars by apply Forall_scalar_floats.
  rewrite (mapM_Ok _ np.as_float).
  - cbn. rewrite length_map. f_equal. f_equal. induction xs; simpl; congruence.
  - intros v Hv. apply list_elem_of_fmap in Hv as (x & -> & _). done.
Qed.

Lemma existsb_non_numeric (f : pyval → bool) vs :
  (∀ w, non_numeric w = true → f w = false) →
  Forall (λ v, non_numeric v = true) vs → existsb f vs = false.
Proof.
  intros Hf. induction 1 as [|w ws Hw _ IH]; [done|]. simpl. by rewrite Hf, IH.
Qed.

(** Strings and booleans alone never make a numeric array. *)
Lemma np_array_non_numeric v vs :
  Forall (λ v, non_numeric v = true) (v :: vs) →
  np.array (v :: vs) = Ok (np.NonNumeric (S (length vs))).
Proof.
  intros H. unfold np.array.
  assert (Hsc : Forall (λ v, is_scalar v = true) (v :: vs)).
  { eapply Forall_impl; [done|]. by intros []. }
  rewrite asarrays_scalars by done. cbn [mbind result_bind].
  rewrite shape_scalars, leaves_scalars by done.
  rewrite (existsb_non_numeric np.is_float), (existsb_non_numeric np.is_int64),
    (existsb_non_numeric np.is_uint64), (existsb_non_numeric np.is_float32)
    by (done || by intros []).
  simpl length. by destruct (existsb np.is_str_or_object (v :: vs)).
Qed.

Lemma to_array_numbers v vs :
  is_number v = true → to_array (PySeq (v :: vs)) = np.array (v :: vs).
Proof. by destruct v. Qed.

Lemma mapM_py_iter ls : mapM py_iter (map PySeq ls) = Ok ls.
Proof.
  induction ls as [|l ls IH]; [done|]. simpl. cbn. by rewrite IH.
Qed.

Lemma to_array_nested ls :
  ls ≠ [] → to_array (PySeq (map PySeq ls)) = np.array (concat ls).
Proof.
  destruct ls as [|l ls]; [done|]. intros _.
  change (to_array (PySeq (map PySeq (l :: ls))))
    with (mapM py_iter (map PySeq (l :: ls)) ≫= λ item, np.array (concat item)).
  by rewrite mapM_py_iter.
Qed.

(** * Series of floats, of strings and of booleans *)

Lemma loop_body_floats key xs metrics :
  loop_body key (floats xs) metrics =
    (emit_floats key (List.filter np.isfinite xs) metrics, Ok tt).
Proof.
  unfold loop_body, floats.
  cbv [mbind block_bind mret block_ret eval continue py_not].
  destruct xs as [|x xs]; [done|].
  rewrite bool_decide_eq_false_2 by done.
  unfold try_except, try_body.
  cbv [mbind block_bind mret block_ret eval continue setitem].
  replace (to_array (PySeq (map PyFloat (x :: xs))))
    with (np.array (map PyFloat (x :: xs))) by done.
  rewrite np_array_floats. cbn [np.issubdtype_number np.len negb orb length Nat.eqb].
  cbn [np.take_finite np.len].
  destruct (List.filter np.isfinite (x :: xs)) as [|y fin] eqn:E; [done|].
  cbn [length Nat.eqb np.max np.min emit_floats].
  destruct (1 <? S (length fin))%nat; done.
Qed.

Lemma loop_body_standalone_floats key xs metrics :
  loop_body_standalone key (floats xs) metrics =
    (emit_floats_standalone key xs metrics, Ok tt).
Proof.
  unfold loop_body_standalone, floats, try_except, try_body_standalone.
  cbv [mbind block_bind mret block_ret eval continue setitem to_float_array].
  rewrite np_array_float_floats.
  destruct xs as [|x xs]; done.
Qed.

Lemma standalone_total_floats d :
  Forall (λ kv, ∃ xs, kv.2 = floats xs) d →
  ∃ r, compute_reward_metrics_standalone d = Ok r.
Proof.
  intros Hd. rewrite standalone_unfold. apply returning_total, for_items_ok.
  intros k v m Hin. rewrite Forall_forall in Hd. destruct (Hd _ Hin) as [xs Hxs].
  simpl in Hxs. subst v. by rewrite loop_body_standalone_floats.
Qed.

Lemma loop_body_non_numeric key vs m :
  Forall (λ v, non_numeric v = true) vs → loop_body key (PySeq vs) m = (m, Ok tt).
Proof.
  intros Hvs. unfold loop_body.
  cbv [mbind block_bind mret block_ret eval continue py_not].
  destruct vs as [|v vs]; [done|].
  rewrite bool_decide_eq_false_2 by done.
  unfold try_except, try_body.
  replace (to_array (PySeq (v :: vs))) with (np.array (v :: vs))
    by (apply Forall_cons in Hvs as [Hv _]; by destruct v).
  rewrite np_array_non_numeric by done.
  cbv [mbind block_bind mret block_ret eval continue]. done.
Qed.

Lemma loop_body_standalone_unparsable key vs m :
  Forall unparsable vs → loop_body_standalone key (PySeq vs) m = (m, Ok tt).
Proof.
  intros Hvs. unfold loop_body_standalone, try_except, try_body_standalone.
  cbv [mbind block_bind mret block_ret eval continue to_float_array].
  assert (Hsc : Forall (λ v, is_scalar v = true) vs).
  { eapply Forall_impl; [done|]. by intros v [s ->]. }
  unfold np.array_float. rewrite asarrays_scalars by done. cbn [mbind result_bind].
  rewrite shape_scalars, leaves_scalars by done.
  destruct vs as [|v vs]; [done|].
  apply Forall_cons in Hvs as [[s ->] _]. done.
Qed.

(** Lookups in the dictionaries the bodies build. *)
Ltac key_neq :=
  let E := fresh in
  intros E; apply metric_key_inj in E as [_ E]; [discriminate E|reflexivity|reflexivity].

Ltac lookup_stat :=
  unfold stat_of;
  repeat first
    [ rewrite lookup_insert_eq
    | rewrite lookup_insert_ne by key_neq
    | rewrite lookup_empty ].

Lemma emit_floats_stats key x fin :
  let a := np.Float64 (S (length fin)) (x :: fin) in
  let m := emit_floats key (x :: fin) ∅ in
  stat_of m key "mean" = Some (MFloat (np.mean a)) ∧
  stat_of m key "max" = Some (MFloat (foldl np.maximum x fin)) ∧
  stat_of m key "min" = Some (MFloat (foldl np.minimum x fin)) ∧
  stat_of m key "std" =
    (if (1 <? S (length fin))%nat then Some (MFloat (np.std a)) else None) ∧
  stat_of m key "count" = None.
Proof.
  simpl. destruct (1 <? S (length fin))%nat; repeat split; by lookup_stat.
Qed.

Lemma emit_floats_standalone_stats key x xs :
  let a := np.Float64 (S (length xs)) (x :: xs) in
  let m := emit_floats_standalone key (x :: xs) ∅ in
  stat_of m key "mean" = Some (MFloat (np.mean a)) ∧
  stat_of m key "max" = Some (MFloat (foldl np.maximum x xs)) ∧
  stat_of m key "min" = Some (MFloat (foldl np.minimum x xs)) ∧
  stat_of m key "std" = Some (MFloat (np.std a)) ∧
  stat_of m key "count" = Some (MInt (Z.of_nat (S (length xs)))).
Proof.
  simpl. repeat split; by lookup_stat.
Qed.

(** What either aggregator reports for a signal that is a series of floats. *)
Lemma compute_floats d r key xs stat :
  NoDup d.*1 → (key, floats xs) ∈ d → no_slash stat = true →
  compute_reward_metrics d = Ok r →
  stat_of r key stat = stat_of (emit_floats key (List.filter np.isfinite xs) ∅) key stat.
Proof.
  intros Hnd Hin Hs Hr.
  rewrite (returning_lookup loop_body loop_body_local d r key (floats xs) stat) by done.
  unfold contribution. by rewrite loop_body_floats.
Qed.

Lemma standalone_floats d r key xs stat :
  NoDup d.*1 → (key, floats xs) ∈ d → no_slash stat = true →
  compute_reward_metrics_standalone d = Ok r →
  stat_of r key stat = stat_of (emit_floats_standalone key xs ∅) key stat.
Proof.
  intros Hnd Hin Hs Hr. rewrite standalone_unfold in Hr.
  rewrite (returning_lookup loop_body_standalone loop_body_standalone_local
             d r key (floats xs) stat) by done.
  unfold contribution. by rewrite loop_body_standalone_floats.
Qed.

(** * A NaN spreads *)

Lemma add_nan x y : is_nan x = true ∨ is_nan y = true → is_nan (x + y) = true.
Proof.
  rewrite !is_nan_spec, add_spec. unfold SF64add, SFadd.
  intros [H|H]; destruct (Prim2SF x), (Prim2SF y); done.
Qed.

Lemma sub_nan x y : is_nan x = true ∨ is_nan y = true → is_nan (x - y) = true.
Proof.
  rewrite !is_nan_spec, sub_spec. unfold SF64sub, SFsub.
  intros [H|H]; destruct (Prim2SF x), (Prim2SF y); done.
Qed.

Lemma mul_nan x y : is_nan x = true ∨ is_nan y = true → is_nan (x * y) = true.
Proof.
  rewrite !is_nan_spec, mul_spec. unfold SF64mul, SFmul.
  intros [H|H]; destruct (Prim2SF x), (Prim2SF y); done.
Qed.

Lemma div_nan x y : is_nan x = true → is_nan (x / y) = true.
Proof.
  rewrite !is_nan_spec, div_spec. unfold SF64div, SFdiv.
  intros H; destruct (Prim2SF x), (Prim2SF y); done.
Qed.

Lemma sqrt_nan x : is_nan x = true → is_nan (sqrt x) = true.
Proof.
  rewrite !is_nan_spec, sqrt_spec. unfold SF64sqrt, SFsqrt.
  intros H; destruct (Prim2SF x); done.
Qed.

Lemma foldl_add_nan acc l :
  is_nan acc = true ∨ has_nan l → is_nan (foldl PrimFloat.add acc l) = true.
Proof.
  revert acc. induction l as [|x l IH]; intros acc [H|H]; simpl.
  - done.
  - by apply Exists_nil in H.
  - apply IH. left. apply add_nan. by left.
  - apply Exists_cons in H as [H|H]; apply IH; [left|by right].
    apply add_nan. by right.
Qed.

Lemma has_nan_take_drop n l : has_nan l → has_nan (take n l) ∨ has_nan (drop n l).
Proof.
  intros H. rewrite <- (take_drop n l) in H. by apply Exists_app in H.
Qed.

Lemma zip_with_add_nan r b :
  length r = length b → has_nan r ∨ has_nan b →
  has_nan (zip_with PrimFloat.add r b).
Proof.
  revert b. induction r as [|x r IH]; intros [|y b] Hlen H; simplify_eq/=.
  - destruct H as [H|H]; by apply Exists_nil in H.
  - unfold has_nan in *. rewrite !Exists_cons in H. apply Exists_cons.
    destruct H as [[H|H]|[H|H]].
    + left. apply add_nan. by left.
    + right. apply IH; [done|]. by left.
    + left. apply add_nan. by right.
    + right. apply IH; [done|]. by right.
Qed.

Lemma add_blocks_nan blocks r a :
  length r = 8%nat → (8 * blocks ≤ length a)%nat → has_nan r ∨ has_nan a →
  has_nan (np.add_blocks blocks r a).1 ∨ has_nan (np.add_blocks blocks r a).2.
Proof.
  revert r a. induction blocks as [|blocks IH]; intros r a Hr Ha H; [done|].
  simpl. apply IH.
  - rewrite length_zip_with, length_take. lia.
  - rewrite length_drop. lia.
  - destruct H as [H|H].
    + left. apply zip_with_add_nan; [rewrite length_take; lia|by left].
    + destruct (has_nan_take_drop 8 a H) as [H'|H']; [|by right].
      left. apply zip_with_add_nan; [rewrite length_take; lia|by right].
Qed.

Lemma length_add_blocks blocks r a :
  length r = 8%nat → (8 * blocks ≤ length a)%nat →
  length (np.add_blocks blocks r a).1 = 8%nat.
Proof.
  revert r a. induction blocks as [|blocks IH]; intros r a Hr Ha; [done|].
  simpl. apply IH.
  - rewrite length_zip_with, length_take. lia.
  - rewrite length_drop. lia.
Qed.

Ltac nan_sum :=
  first [assumption | apply add_nan; first [left; nan_sum | right; nan_sum]].

Lemma sum8_nan r : length r = 8%nat → has_nan r → is_nan (np.sum8 r) = true.
Proof.
  intros Hr H.
  do 8 (destruct r as [|? r]; [discriminate Hr|]). destruct r; [|discriminate Hr].
  unfold has_nan in H. rewrite !Exists_cons, Exists_nil in H. simpl.
  repeat match goal with
         | H : _ ∨ _ |- _ => destruct H as [H|H]
         end; try done; nan_sum.
Qed.

Lemma pairwise_sum_nan fuel a : has_nan a → is_nan (np.pairwise_sum fuel a) = true.
Proof.
  revert a. induction fuel as [|fuel IH]; intros a H; rewrite pairwise_sum_unfold; cbv zeta.
  - destruct (length a <? 8)%nat eqn:E8; [apply foldl_add_nan; by right|].
    destruct (length a <=? 128)%nat eqn:E128; [|apply foldl_add_nan; by right].
    apply Nat.ltb_ge in E8.
    assert (8 * (length a / 8 - 1) ≤ length (drop 8 a))%nat as Hb.
    { rewrite length_drop. pose proof (Nat.div_mod_eq (length a) 8). lia. }
    assert (length (take 8 a) = 8%nat) as Ht by (rewrite length_take; lia).
    pose proof (add_blocks_nan (length a / 8 - 1) (take 8 a) (drop 8 a) Ht Hb
                  (has_nan_take_drop 8 a H)) as Hn.
    pose proof (length_add_blocks (length a / 8 - 1) (take 8 a) (drop 8 a) Ht Hb) as Hl.
    destruct (np.add_blocks _ _ _) as [r rest]. simpl in *.
    apply foldl_add_nan. destruct Hn as [Hn|Hn]; [left; by apply sum8_nan|by right].
  - destruct (length a <? 8)%nat eqn:E8; [apply foldl_add_nan; by right|].
    destruct (length a <=? 128)%nat eqn:E128.
    + apply Nat.ltb_ge in E8.
      assert (8 * (length a / 8 - 1) ≤ length (drop 8 a))%nat as Hb.
      { rewrite length_drop. pose proof (Nat.div_mod_eq (length a) 8). lia. }
      assert (length (take 8 a) = 8%nat) as Ht by (rewrite length_take; lia).
      pose proof (add_blocks_nan (length a / 8 - 1) (take 8 a) (drop 8 a) Ht Hb
                    (has_nan_take_drop 8 a H)) as Hn.
      pose proof (length_add_blocks (length a / 8 - 1) (take 8 a) (drop 8 a) Ht Hb) as Hl.
      destruct (np.add_blocks _ _ _) as [r rest]. simpl in *.
      apply foldl_add_nan. destruct Hn as [Hn|Hn]; [left; by apply sum8_nan|by right].
    + apply add_nan.
      destruct (has_nan_take_drop (length a / 2 - (length a / 2) mod 8) a H) as [H'|H'];
        [left|right]; by apply IH.
Qed.

Lemma sum_nan a : has_nan a → is_nan (np.sum a) = true.
Proof. intros H. unfold np.sum. apply add_nan. right. by apply pairwise_sum_nan. Qed.

Lemma mean_nan n a : has_nan a → is_nan (np.mean (np.Float64 n a)) = true.
Proof. intros H. unfold np.mean. simpl. by apply div_nan, sum_nan. Qed.

Lemma std_nan n a : has_nan a → is_nan (np.std (np.Float64 n a)) = true.
Proof.
  intros H. unfold np.std. cbn [np.as_f8]. apply sqrt_nan, div_nan, sum_nan.
  assert (is_nan (np.sum a / np.count a) = true) as Hm by (by apply div_nan, sum_nan).
  destruct H as [x l Hx|x l Hx]; apply Exists_cons; left; cbn [map];
    apply mul_nan; left; apply sub_nan; by right.
Qed.

Lemma foldl_maximum_nan x l :
  has_nan (x :: l) → is_nan (foldl np.maximum x l) = true.
Proof.
  revert x. induction l as [|y l IH]; intros x H.
  - apply Exists_cons in H as [H|H]; [done|by apply Exists_nil in H].
  - simpl. apply IH. unfold has_nan in *. rewrite !Exists_cons in H.
    apply Exists_cons. unfold np.maximum.
    destruct H as [H|[H|H]].
    + left. by rewrite H, orb_true_r.
    + left. destruct (is_nan x) eqn:Ex; [by rewrite orb_true_r|].
      rewrite orb_false_r.
      assert ((y <=? x)%float = false) as ->; [|done].
      rewrite leb_spec. rewrite is_nan_spec in H. by destruct (Prim2SF y).
    + by right.
Qed.

Lemma foldl_minimum_nan x l :
  has_nan (x :: l) → is_nan (foldl np.minimum x l) = true.
Proof.
  revert x. induction l as [|y l IH]; intros x H.
  - apply Exists_cons in H as [H|H]; [done|by apply Exists_nil in H].
  - simpl. apply IH. unfold has_nan in *. rewrite !Exists_cons in H.
    apply Exists_cons. unfold np.minimum.
    destruct H as [H|[H|H]].
    + left. by rewrite H, orb_true_r.
    + left. destruct (is_nan x) eqn:Ex; [by rewrite orb_true_r|].
      rewrite orb_false_r.
      assert ((x <=? y)%float = false) as ->; [|done].
      rewrite leb_spec. rewrite is_nan_spec in H.
      destruct (Prim2SF y); try done. by destruct (Prim2SF x).
    + by right.
Qed.

(** * The claims *)

(** C1.  [compute_reward_metrics] returns a report for every mapping of
    names to series, and a signal that fails (its conversion raises, or its
    array is not numeric) is merely left out: the outcome is that of the
    mapping without it.  [compute_reward_metrics_standalone] only catches
    [ValueError] and [TypeError]: on a series holding the integer 10**400 the
    conversion raises [OverflowError], which leaves the function, where
    [compute_reward_metrics] returns the empty report. *)
Theorem C1_failures_are_isolated :
  (∀ d, Forall (λ kv, is_series kv.2) d → ∃ r, compute_reward_metrics d = Ok r) ∧
  (∀ d1 d2 key values,
     is_series values → signal_fails values →
     compute_reward_metrics (d1 ++ (key, values) :: d2) =
     compute_reward_metrics (d1 ++ d2)) ∧
  compute_reward_metrics_standalone word_count_overflow = Raise OverflowError ∧
  compute_reward_metrics word_count_overflow = Ok ∅.
Proof.
  split; [apply compute_total|]. split.
  - intros d1 d2 key values Hs Hf. destruct values; try done.
    apply returning_skip. intros m. by apply loop_body_failed.
  - split; vm_compute; reflexivity.
Qed.

(** C1, at an instance: the strings of [string_data] change nothing for
    [single_value]. *)
Lemma C1_witness :
  compute_reward_metrics (single_value ++ string_data) =
  compute_reward_metrics (single_value ++ []).
Proof.
  refine (proj1 (proj2 C1_failures_are_isolated) single_value [] "string_data"
            (PySeq [PyStr "hello" None; PyStr "world" None]) I _).
  reflexivity.
Defined.

(** The standalone aggregator also leaves a partial entry behind when
    [np.min] fails on an array without elements, after the mean and the
    deviation were stored. *)
Example standalone_partial_entry :
  read (compute_reward_metrics_standalone [("e", PySeq [PySeq []; PySeq []])]) "e" "std"
    = Emitted (MFloat nan) ∧
  read (compute_reward_metrics_standalone [("e", PySeq [PySeq []; PySeq []])]) "e" "min"
    = Absent.
Proof. split; vm_compute; reflexivity. Qed.

(** C2, as amended.  For a non-empty series [xs] of finite floats under
    [key], in a mapping with distinct names: [compute_reward_metrics] reports
    as mean the float64 sum of [xs] ([np.sum], the pairwise sum) divided by
    their number, a min and a max that are elements of [xs] with
    min <= x <= max for every element [x], a deviation iff [xs] has more
    than one element, and no count; [compute_reward_metrics_standalone]
    reports the same mean, the same min and max, a deviation, and a count
    equal to the length of [xs]. *)
Theorem C2_count_extremes_and_std d r key xs :
  NoDup d.*1 → (key, floats xs) ∈ d → xs ≠ [] → Forall finite xs →
  (compute_reward_metrics d = Ok r →
     stat_of r key "mean" = Some (MFloat (np.sum xs / np.count xs)) ∧
     (∃ lo hi,
        stat_of r key "min" = Some (MFloat lo) ∧ stat_of r key "max" = Some (MFloat hi) ∧
        lo ∈ xs ∧ hi ∈ xs ∧ float_le lo hi ∧
        ∀ x, x ∈ xs → float_le lo x ∧ float_le x hi) ∧
     (is_Some (stat_of r key "std") ↔ (1 < length xs)%nat) ∧
     stat_of r key "count" = None) ∧
  (compute_reward_metrics_standalone d = Ok r →
     stat_of r key "mean" = Some (MFloat (np.sum xs / np.count xs)) ∧
     (∃ lo hi,
        stat_of r key "min" = Some (MFloat lo) ∧ stat_of r key "max" = Some (MFloat hi) ∧
        lo ∈ xs ∧ hi ∈ xs ∧ float_le lo hi ∧
        ∀ x, x ∈ xs → float_le lo x ∧ float_le x hi) ∧
     is_Some (stat_of r key "std") ∧
     stat_of r key "count" = Some (MInt (Z.of_nat (length xs)))).
Proof.
  intros Hnd Hin Hne Hfin.
  destruct xs as [|x xs]; [done|].
  pose proof (extremes_of x xs Hfin) as (Hlo & Hhi & Hlh & Hall).
  split; intros Hr.
  - pose proof (λ stat Hs, compute_floats d r key (x :: xs) stat Hnd Hin Hs Hr) as Hstat.
    rewrite filter_finite_all in Hstat by done.
    destruct (emit_floats_stats key x xs) as (Eme & Ehi & Elo & Esd & Ect).
    rewrite !Hstat by done. rewrite Eme, Ehi, Elo, Esd, Ect.
    split; [done|]. split; [by eexists _, _|]. split; [|done].
    simpl length. destruct (1 <? S (length xs))%nat eqn:E.
    + apply Nat.ltb_lt in E. done.
    + apply Nat.ltb_ge in E. split; [by intros []|lia].
  - pose proof (λ stat Hs, standalone_floats d r key (x :: xs) stat Hnd Hin Hs Hr)
      as Hstat.
    destruct (emit_floats_standalone_stats key x xs) as (Eme & Ehi & Elo & Esd & Ect).
    rewrite !Hstat by done. rewrite Eme, Ehi, Elo, Esd, Ect.
    split; [done|]. split; [by eexists _, _|]. split; done.
Qed.

(** C2, at an instance: the scenario [length_score]. *)
Lemma C2_witness :
  (∃ r, compute_reward_metrics length_score = Ok r ∧
     stat_of r "length_score" "count" = None) ∧
  (∃ r, compute_reward_metrics_standalone length_score = Ok r ∧
     stat_of r "length_score" "count" = Some (MInt 4)).
Proof.
  assert (Hnd : NoDup length_score.*1) by apply NoDup_singleton.
  assert (Hin : ("length_score", floats [0.8; 0.9; 0.7; 0.85]%float) ∈ length_score)
    by (by apply list_elem_of_singleton).
  assert (Hfin : Forall finite [0.8; 0.9; 0.7; 0.85]%float) by (by repeat constructor).
  split.
  - destruct (compute_total length_score) as [r E]; [by repeat constructor|].
    exists r. split; [done|].
    apply (C2_count_extremes_and_std _ r _ _ Hnd Hin ltac:(done) Hfin), E.
  - destruct (standalone_total_floats length_score) as [r E];
      [repeat constructor; by eexists|].
    exists r. split; [done|].
    apply (C2_count_extremes_and_std _ r _ _ Hnd Hin ltac:(done) Hfin), E.
Defined.

(** C2 as written fails for both aggregators: on [single_value] the first
    emits no count and the second emits a deviation for one element; and on
    three elements 0.1 the mean, 0.10000000000000002, exceeds the max. *)
Lemma C2_counterexample :
  ¬ claim_C2 compute_reward_metrics ∧
  ¬ claim_C2 compute_reward_metrics_standalone ∧
  ∃ me hi,
    read (compute_reward_metrics tenths) "tenths" "mean" = Emitted (MFloat me) ∧
    read (compute_reward_metrics tenths) "tenths" "max" = Emitted (MFloat hi) ∧
    (hi <? me)%float = true.
Proof.
  split; [|split].
  - intros H.
    destruct (H "single_value" [0.42%float] ltac:(done) ltac:(by repeat constructor))
      as (r & Hr & Hc & _).
    assert (F : read (compute_reward_metrics single_value) "single_value" "count" = Absent)
      by (vm_compute; reflexivity).
    unfold single_value in F. rewrite Hr in F. simpl in F. by rewrite Hc in F.
  - intros H.
    destruct (H "single_value" [0.42%float] ltac:(done) ltac:(by repeat constructor))
      as (r & Hr & _ & _ & Hs).
    assert (F : read (compute_reward_metrics_standalone single_value) "single_value" "std"
                = Emitted (MFloat 0)) by (vm_compute; reflexivity).
    unfold single_value in F. rewrite Hr in F. simpl in F.
    destruct (stat_of r "single_value" "std") eqn:E; [|done].
    destruct Hs as [Hs _]. specialize (Hs ltac:(by eexists)). simpl in Hs. lia.
  - eexists _, _. repeat split; vm_compute; reflexivity.
Qed.

(** The mean of finite elements need not be finite: the sum of [huge]
    overflows, and the eight accumulators of the pairwise sum of
    [cancelling] hold an infinity of either sign. *)
Example mean_of_finite_elements :
  read (compute_reward_metrics huge) "huge" "mean" = Emitted (MFloat infinity) ∧
  read (compute_reward_metrics cancelling) "cancelling" "mean" = Emitted (MFloat nan) ∧
  read (compute_reward_metrics_standalone cancelling) "cancelling" "mean"
    = Emitted (MFloat nan).
Proof. repeat split; vm_compute; reflexivity. Qed.

(** C3, as amended.  For a series of one finite float [x] under [key], in a
    mapping with distinct names: both aggregators report a mean, a min and a
    max equal to [x]; [compute_reward_metrics] reports neither a deviation
    nor a count; [compute_reward_metrics_standalone] reports the count 1 and
    the deviation 0.0. *)
Theorem C3_single_element d r key x :
  NoDup d.*1 → (key, floats [x]) ∈ d → finite x →
  (compute_reward_metrics d = Ok r →
     reports r key "mean" x ∧ reports r key "min" x ∧ reports r key "max" x ∧
     stat_of r key "std" = None ∧ stat_of r key "count" = None) ∧
  (compute_reward_metrics_standalone d = Ok r →
     reports r key "mean" x ∧ reports r key "min" x ∧ reports r key "max" x ∧
     stat_of r key "count" = Some (MInt 1) ∧ stat_of r key "std" = Some (MFloat 0)).
Proof.
  intros Hnd Hin Hx. pose proof (float_eq_refl x Hx) as Hxx.
  destruct (mean_single 1 x Hx) as [Hme _].
  pose proof (std_single 1 x Hx) as Hsd.
  split; intros Hr.
  - pose proof (λ stat Hs, compute_floats d r key [x] stat Hnd Hin Hs Hr) as Hstat.
    rewrite filter_finite_all in Hstat by (by repeat constructor).
    destruct (emit_floats_stats key x []) as (Eme & Ehi & Elo & Esd & Ect).
    unfold reports. rewrite !Hstat by done. rewrite Eme, Ehi, Elo, Esd, Ect.
    repeat split; try done; by eexists.
  - pose proof (λ stat Hs, standalone_floats d r key [x] stat Hnd Hin Hs Hr) as Hstat.
    destruct (emit_floats_standalone_stats key x []) as (Eme & Ehi & Elo & Esd & Ect).
    unfold reports. rewrite !Hstat by done. rewrite Eme, Ehi, Elo, Esd, Ect.
    simpl length. rewrite Hsd.
    repeat split; try done; by eexists.
Qed.

(** C3, at an instance: the scenario [single_value]. *)
Lemma C3_witness :
  (∃ r, compute_reward_metrics single_value = Ok r ∧
     reports r "single_value" "mean" 0.42 ∧ stat_of r "single_value" "std" = None) ∧
  (∃ r, compute_reward_metrics_standalone single_value = Ok r ∧
     reports r "single_value" "mean" 0.42 ∧
     stat_of r "single_value" "std" = Some (MFloat 0)).
Proof.
  assert (Hnd : NoDup single_value.*1) by apply NoDup_singleton.
  assert (Hin : ("single_value", floats [0.42%float]) ∈ single_value)
    by (by apply list_elem_of_singleton).
  assert (Hfin : finite 0.42) by reflexivity.
  split.
  - destruct (compute_total single_value) as [r E]; [by repeat constructor|].
    exists r. split; [done|].
    destruct (C3_single_element _ r _ _ Hnd Hin Hfin) as [H _].
    destruct (H E) as (? & _ & _ & ? & _). done.
  - destruct (standalone_total_floats single_value) as [r E];
      [repeat constructor; by eexists|].
    exists r. split; [done|].
    destruct (C3_single_element _ r _ _ Hnd Hin Hfin) as [_ H].
    destruct (H E) as (? & _ & _ & _ & ?). done.
Defined.

(** C3 as written fails for [compute_reward_metrics_standalone]: on
    [single_value] it emits the deviation 0.0. *)
Lemma C3_counterexample :
  read (compute_reward_metrics_standalone single_value) "single_value" "std"
    = Emitted (MFloat 0) ∧
  ¬ claim_C3 compute_reward_metrics_standalone.
Proof.
  assert (F : read (compute_reward_metrics_standalone single_value) "single_value" "std"
              = Emitted (MFloat 0)) by (vm_compute; reflexivity).
  split; [done|]. intros H.
  destruct (H "single_value" 0.42%float ltac:(reflexivity))
    as (r & Hr & _ & _ & _ & _ & Hs).
  unfold single_value in F. rewrite Hr in F. simpl in F. by rewrite Hs in F.
Qed.

(** C4, as amended.  [compute_reward_metrics] computes the statistics of a
    series of floats over its finite elements alone: it returns what it
    returns for the series of those elements; without a finite element it
    returns what it returns without the signal; the min and the max it
    reports are finite elements of the series; and on [with_nan] it retains
    2 elements and reports the mean 0.6, the min 0.5, the max 0.7, a
    deviation and no count.  [compute_reward_metrics_standalone] drops
    nothing: for a non-empty series of floats it counts every element, its
    mean is the float64 sum of all the elements divided by their number,
    its deviation, min and max are those of all the elements, and with a
    NaN among the elements its mean is NaN; on [with_nan] it counts 3
    elements. *)
Theorem C4_statistics_over_finite_elements key xs :
  let fin := List.filter np.isfinite xs in
  (∀ d1 d2,
     compute_reward_metrics (d1 ++ (key, floats xs) :: d2) =
     compute_reward_metrics (d1 ++ (key, floats fin) :: d2)) ∧
  (fin = [] → ∀ d1 d2,
     compute_reward_metrics (d1 ++ (key, floats xs) :: d2) =
     compute_reward_metrics (d1 ++ d2)) ∧
  (∀ d r stat x,
     NoDup d.*1 → (key, floats xs) ∈ d → compute_reward_metrics d = Ok r →
     stat = "min" ∨ stat = "max" →
     stat_of r key stat = Some (MFloat x) → x ∈ fin ∧ finite x) ∧
  (∀ d r x xs',
     NoDup d.*1 → (key, floats xs) ∈ d → xs = x :: xs' →
     compute_reward_metrics_standalone d = Ok r →
     stat_of r key "count" = Some (MInt (Z.of_nat (length xs))) ∧
     stat_of r key "mean" = Some (MFloat (np.sum xs / np.count xs)) ∧
     stat_of r key "std" = Some (MFloat (np.std (np.Float64 (length xs) xs))) ∧
     stat_of r key "min" = Some (MFloat (foldl np.minimum x xs')) ∧
     stat_of r key "max" = Some (MFloat (foldl np.maximum x xs')) ∧
     (has_nan xs → is_nan (np.sum xs / np.count xs) = true)) ∧
  length (List.filter np.isfinite [0.5; nan; 0.7]%float) = 2%nat ∧
  read (compute_reward_metrics with_nan) "with_nan" "mean" = Emitted (MFloat 0.6) ∧
  read (compute_reward_metrics with_nan) "with_nan" "min" = Emitted (MFloat 0.5) ∧
  read (compute_reward_metrics with_nan) "with_nan" "max" = Emitted (MFloat 0.7) ∧
  read (compute_reward_metrics with_nan) "with_nan" "std"
    = Emitted (MFloat 0.09999999999999998) ∧
  read (compute_reward_metrics with_nan) "with_nan" "count" = Absent ∧
  read (compute_reward_metrics_standalone with_nan) "with_nan" "count"
    = Emitted (MInt 3).
Proof.
  intros fin. split; [|split; [|split; [|split]]].
  - intros d1 d2. apply returning_congr. intros m.
    rewrite !loop_body_floats. unfold fin. by rewrite filter_finite_idemp.
  - intros Hfin d1 d2. apply returning_skip. intros m.
    rewrite loop_body_floats. fold fin. by rewrite Hfin.
  - intros d r stat x Hnd Hin Hr Hstat Hx.
    assert (Hs : no_slash stat = true) by (by destruct Hstat as [-> | ->]).
    rewrite (compute_floats d r key xs stat Hnd Hin Hs Hr) in Hx. fold fin in Hx.
    pose proof (filter_finite_Forall xs) as Hfin. fold fin in Hfin.
    destruct fin as [|y fin']; [by destruct Hstat as [-> | ->]|].
    destruct (emit_floats_stats key y fin') as (_ & Ehi & Elo & _).
    destruct (extremes_of y fin' Hfin) as (Hlo & Hhi & _).
    rewrite Forall_forall in Hfin.
    destruct Hstat as [-> | ->].
    + rewrite Elo in Hx. injection Hx as <-. split; [done|]. by apply Hfin.
    + rewrite Ehi in Hx. injection Hx as <-. split; [done|]. by apply Hfin.
  - intros d r x xs' Hnd Hin -> Hr. clear fin.
    pose proof (λ stat Hs, standalone_floats d r key (x :: xs') stat Hnd Hin Hs Hr)
      as Hstat.
    destruct (emit_floats_standalone_stats key x xs') as (Eme & Ehi & Elo & Esd & Ect).
    rewrite !Hstat by done. rewrite Eme, Ehi, Elo, Esd, Ect.
    repeat split. intros Hnan. by apply (mean_nan (length (x :: xs'))).
  - repeat split; vm_compute; reflexivity.
Qed.

(** C4, at an instance: a series that only holds a NaN is passed over. *)
Lemma C4_witness :
  compute_reward_metrics (single_value ++ ("all_nan", floats [nan]) :: []) =
  compute_reward_metrics (single_value ++ []).
Proof.
  refine (proj1 (proj2 (C4_statistics_over_finite_elements "all_nan" [nan])) _
            single_value []).
  reflexivity.
Defined.

(** C4 as written fails for both aggregators.  On [huge_nan], a series
    with a NaN, the sum of the two finite elements 1.7e308 overflows, so
    that [compute_reward_metrics] reports an infinite mean; and
    [compute_reward_metrics_standalone] drops nothing: on [with_nan] it
    counts 3 elements and reports a NaN mean. *)
Lemma C4_counterexample :
  ¬ claim_C4 compute_reward_metrics ∧
  ¬ claim_C4 compute_reward_metrics_standalone ∧
  read (compute_reward_metrics huge_nan) "huge_nan" "mean"
    = Emitted (MFloat infinity) ∧
  read (compute_reward_metrics huge_nan) "huge_nan" "std"
    = Emitted (MFloat infinity) ∧
  read (compute_reward_metrics_standalone with_nan) "with_nan" "count"
    = Emitted (MInt 3) ∧
  read (compute_reward_metrics_standalone with_nan) "with_nan" "mean"
    = Emitted (MFloat nan).
Proof.
  assert (F1 : read (compute_reward_metrics huge_nan) "huge_nan" "mean"
               = Emitted (MFloat infinity)) by (vm_compute; reflexivity).
  assert (F2 : read (compute_reward_metrics_standalone with_nan) "with_nan" "count"
               = Emitted (MInt 3)) by (vm_compute; reflexivity).
  split; [|split; [|split; [done|split; [|split; [done|]]]]];
    [| |vm_compute; reflexivity..].
  - intros [H _].
    destruct (H "huge_nan" [1.7e308; 1.7e308; nan]%float) as (r & Hr & _ & Hfin & _).
    { apply Exists_cons. right. apply Exists_cons. right. apply Exists_cons. by left. }
    unfold huge_nan in F1. rewrite Hr in F1. simpl in F1.
    destruct (stat_of r "huge_nan" "mean") as [v|] eqn:E; [|done].
    injection F1 as ->. apply Hfin in E. by vm_compute in E.
  - intros [_ (r & Hr & Hc & _)].
    rewrite Hr in F2. simpl in F2.
    destruct (stat_of r "with_nan" "count") as [c|] eqn:E; [|done].
    specialize (Hc c eq_refl). by subst c.
Qed.

(** The body of the loop on a series of sequences of numbers. *)
Lemma loop_body_nested key ls m :
  ls ≠ [] → Forall (Forall (λ v, is_number v = true)) ls →
  loop_body key (PySeq (map PySeq ls)) m = loop_body key (PySeq (concat ls)) m.
Proof.
  intros Hne Hnum. pose proof (to_array_nested ls Hne) as Harr.
  unfold loop_body. cbv [mbind block_bind mret block_ret eval continue py_not].
  rewrite bool_decide_eq_false_2 by (by destruct ls).
  destruct (concat ls) as [|v vs] eqn:E.
  - rewrite bool_decide_eq_true_2 by done.
    unfold try_except, try_body. rewrite Harr.
    cbv [mbind block_bind mret block_ret eval continue]. done.
  - rewrite bool_decide_eq_false_2 by done.
    assert (is_number v = true) as Hv.
    { apply Forall_concat in Hnum. rewrite E in Hnum.
      by apply Forall_cons in Hnum as [? _]. }
    unfold try_except.
    rewrite (try_body_to_array key (PySeq (map PySeq ls)) (PySeq (v :: vs))); [done|].
    by rewrite Harr, to_array_numbers.
Qed.

Lemma loop_body_nested_floats key xss m :
  xss ≠ [] →
  loop_body key (PySeq (map floats xss)) m =
    (emit_floats key (List.filter np.isfinite (concat xss)) m, Ok tt).
Proof.
  intros Hne.
  replace (map floats xss) with (map PySeq (map (map PyFloat) xss))
    by (rewrite map_map; done).
  rewrite loop_body_nested.
  - replace (concat (map (map PyFloat) xss)) with (map PyFloat (concat xss)).
    + apply loop_body_floats.
    + clear Hne. induction xss as [|xs xss IH]; [done|].
      simpl. by rewrite map_app, IH.
  - by destruct xss.
  - apply Forall_map, Forall_true. intros xs. apply Forall_map, Forall_true. done.
Qed.

(** C5, as amended.  For a non-empty series of sequences of numbers under
    [key], [compute_reward_metrics] returns what it returns for the flat
    series of all the inner elements.  When the sequences hold floats, the
    statistics are those of the finite inner elements [fin], in the order of
    the series: nothing is reported when there is none; else the mean is
    the float64 sum of [fin] divided by the number of its elements, the min
    and the max are elements of [fin], and a deviation is reported iff
    [fin] has more than one element, whatever the length of the outer
    series; no count is reported. *)
Theorem C5_nested_sequences_are_flattened key ls :
  ls ≠ [] → Forall (Forall (λ v, is_number v = true)) ls →
  (∀ d1 d2,
     compute_reward_metrics (d1 ++ (key, PySeq (map PySeq ls)) :: d2) =
     compute_reward_metrics (d1 ++ (key, PySeq (concat ls)) :: d2)) ∧
  (∀ xss d r,
     ls = map (map PyFloat) xss →
     NoDup d.*1 → (key, PySeq (map PySeq ls)) ∈ d → compute_reward_metrics d = Ok r →
     let fin := List.filter np.isfinite (concat xss) in
     (fin = [] → ∀ stat, no_slash stat = true → stat_of r key stat = None) ∧
     (fin ≠ [] →
        stat_of r key "mean" = Some (MFloat (np.sum fin / np.count fin)) ∧
        ∃ lo hi,
          stat_of r key "min" = Some (MFloat lo) ∧
          stat_of r key "max" = Some (MFloat hi) ∧ lo ∈ fin ∧ hi ∈ fin) ∧
     (is_Some (stat_of r key "std") ↔ (1 < length fin)%nat) ∧
     stat_of r key "count" = None).
Proof.
  intros Hne Hnum. split.
  - intros d1 d2. apply returning_congr. intros m. by apply loop_body_nested.
  - intros xss d r -> Hnd Hin Hr fin.
    assert (Hx : xss ≠ []) by (by destruct xss).
    assert (Hstat : ∀ stat, no_slash stat = true →
              stat_of r key stat = stat_of (emit_floats key fin ∅) key stat).
    { intros stat Hs.
      rewrite (returning_lookup loop_body loop_body_local d r key _ stat Hnd Hin Hs Hr).
      unfold contribution.
      replace (map PySeq (map (map PyFloat) xss)) with (map floats xss)
        by (rewrite map_map; done).
      by rewrite loop_body_nested_floats. }
    pose proof (filter_finite_Forall (concat xss)) as Hfin. fold fin in Hfin.
    destruct fin as [|y fin'].
    + split; [intros _ stat Hs; by rewrite Hstat|].
      split; [done|]. rewrite !Hstat by done. split; [|done].
      simpl. split; [by intros []|lia].
    + destruct (emit_floats_stats key y fin') as (Eme & Ehi & Elo & Esd & Ect).
      destruct (extremes_of y fin' Hfin) as (Hlo & Hhi & _).
      rewrite !Hstat by done. rewrite Eme, Ehi, Elo, Esd, Ect.
      split; [done|]. split; [intros _; split; [done|by eexists _, _]|].
      split; [|done].
      simpl length. destruct (1 <? S (length fin'))%nat eqn:E.
      * apply Nat.ltb_lt in E. done.
      * apply Nat.ltb_ge in E. split; [by intros []|lia].
Qed.

(** C5, at an instance: one sample of two floats has a deviation. *)
Lemma C5_witness :
  ∃ r, compute_reward_metrics [("nested_scores", PySeq [floats [0.1; 0.2]%float])] = Ok r ∧
    is_Some (stat_of r "nested_scores" "std").
Proof.
  destruct (compute_total [("nested_scores", PySeq [floats [0.1; 0.2]%float])])
    as [r E]; [by repeat constructor|].
  exists r. split; [done|].
  destruct (C5_nested_sequences_are_flattened "nested_scores"
              [[PyFloat 0.1; PyFloat 0.2]]%float) as [_ H].
  - discriminate.
  - repeat constructor.
  - destruct (H [[0.1; 0.2]]%float
                [("nested_scores", PySeq [floats [0.1; 0.2]%float])] r eq_refl)
      as (_ & _ & Hstd & _).
    + apply NoDup_singleton.
    + by apply list_elem_of_singleton.
    + done.
    + apply Hstd. simpl. lia.
Defined.

(** C5 as written fails: of the two inner scalars of [nan_row] only the
    finite one is used, so that the array of line 38 has one element, the
    mean is that element and no deviation is reported. *)
Lemma C5_counterexample :
  ¬ claim_C5 ∧
  reduced (PySeq [floats [nan; 1]%float]) = Ok (np.Float64 1 [1%float]) ∧
  read (compute_reward_metrics nan_row) "nan_row" "mean" = Emitted (MFloat 1) ∧
  read (compute_reward_metrics nan_row) "nan_row" "std" = Absent.
Proof.
  assert (F : reduced (PySeq [floats [nan; 1]%float]) = Ok (np.Float64 1 [1%float]))
    by (vm_compute; reflexivity).
  split; [|split; [done|split; vm_compute; reflexivity]].
  intros H.
  destruct (H [[PyFloat nan; PyFloat 1]]) as (a & Ha & Hlen).
  - discriminate.
  - repeat constructor.
  - change (PySeq (map PySeq [[PyFloat nan; PyFloat 1]]))
      with (PySeq [floats [nan; 1]%float]) in Ha.
    rewrite F in Ha. injection Ha as <-. discriminate Hlen.
Qed.

(** C6, as amended.  [compute_reward_metrics] passes over every series of
    strings and booleans, and [compute_reward_metrics_standalone] over every
    series of strings that spell no number: the body neither raises nor
    writes, the outcome is that of the mapping without the signal, and, the
    names being distinct, the report holds no entry of the signal. *)
Theorem C6_non_numeric_series_are_skipped key vs d1 d2 :
  (Forall (λ v, non_numeric v = true) vs →
     (∀ m, loop_body key (PySeq vs) m = (m, Ok tt)) ∧
     compute_reward_metrics (d1 ++ (key, PySeq vs) :: d2) =
       compute_reward_metrics (d1 ++ d2) ∧
     (NoDup (d1 ++ (key, PySeq vs) :: d2).*1 →
      ∀ r stat, no_slash stat = true →
        compute_reward_metrics (d1 ++ (key, PySeq vs) :: d2) = Ok r →
        stat_of r key stat = None)) ∧
  (Forall unparsable vs →
     (∀ m, loop_body_standalone key (PySeq vs) m = (m, Ok tt)) ∧
     compute_reward_metrics_standalone (d1 ++ (key, PySeq vs) :: d2) =
       compute_reward_metrics_standalone (d1 ++ d2) ∧
     (NoDup (d1 ++ (key, PySeq vs) :: d2).*1 →
      ∀ r stat, no_slash stat = true →
        compute_reward_metrics_standalone (d1 ++ (key, PySeq vs) :: d2) = Ok r →
        stat_of r key stat = None)).
Proof.
  split; intros Hvs.
  - assert (H1 : compute_reward_metrics (d1 ++ (key, PySeq vs) :: d2) =
                 compute_reward_metrics (d1 ++ d2)).
    { apply returning_skip. intros m. by apply loop_body_non_numeric. }
    split; [intros; by apply loop_body_non_numeric|]. split; [done|].
    intros Hnd r stat Hs Hr. apply NoDup_middle in Hnd as [Hnd Hk]. rewrite H1 in Hr.
    by apply (returning_absent loop_body loop_body_local (d1 ++ d2)).
  - assert (H2 : compute_reward_metrics_standalone (d1 ++ (key, PySeq vs) :: d2) =
                 compute_reward_metrics_standalone (d1 ++ d2)).
    { rewrite !standalone_unfold. apply returning_skip. intros m.
      by apply loop_body_standalone_unparsable. }
    split; [intros; by apply loop_body_standalone_unparsable|]. split; [done|].
    intros Hnd r stat Hs Hr. apply NoDup_middle in Hnd as [Hnd Hk]. rewrite H2 in Hr.
    rewrite standalone_unfold in Hr.
    by apply (returning_absent loop_body_standalone loop_body_standalone_local (d1 ++ d2)).
Qed.

(** C6, at an instance: the scenario [string_data] beside [single_value]. *)
Lemma C6_witness :
  compute_reward_metrics (single_value ++ string_data) =
    compute_reward_metrics (single_value ++ []) ∧
  compute_reward_metrics_standalone (single_value ++ string_data) =
    compute_reward_metrics_standalone (single_value ++ []).
Proof.
  split.
  - refine (proj1 (proj2 (proj1
      (C6_non_numeric_series_are_skipped "string_data"
         [PyStr "hello" None; PyStr "world" None] single_value []) _))).
    by repeat constructor.
  - refine (proj1 (proj2 (proj2
      (C6_non_numeric_series_are_skipped "string_data"
         [PyStr "hello" None; PyStr "world" None] single_value []) _))).
    repeat constructor; by eexists.
Defined.

(** C6 as written fails for [compute_reward_metrics_standalone], which
    converts under [dtype=float]: two booleans are reported with the mean
    0.5, and a string that spells 1.5 with the mean 1.5. *)
Lemma C6_counterexample :
  ¬ claim_C6 compute_reward_metrics_standalone ∧
  read (compute_reward_metrics_standalone flags) "flags" "mean" = Emitted (MFloat 0.5) ∧
  read (compute_reward_metrics_standalone numeral) "numeral" "mean"
    = Emitted (MFloat 1.5).
Proof.
  assert (F : read (compute_reward_metrics_standalone flags) "flags" "mean"
              = Emitted (MFloat 0.5)) by (vm_compute; reflexivity).
  split; [|split; [done|vm_compute; reflexivity]].
  intros H.
  destruct (H "flags" [PyBool true; PyBool false] ltac:(by repeat constructor))
    as [(r & Hr & Hnone) _].
  unfold flags in F. rewrite Hr in F. simpl in F. by rewrite Hnone in F.
Qed.

(** C7, as amended.  On [length_score] both aggregators report the mean
    0.8125000000000001 (within 0.0001 of 0.8125), the max 0.9, the min 0.7
    and the deviation 0.07395099728874523 (within 0.0001 of 0.0740);
    [compute_reward_metrics_standalone] reports the count 4 and
    [compute_reward_metrics] no count. *)
Theorem C7_length_score_report :
  read (compute_reward_metrics length_score) "length_score" "mean"
    = Emitted (MFloat 0.8125000000000001) ∧
  read (compute_reward_metrics length_score) "length_score" "max" = Emitted (MFloat 0.9) ∧
  read (compute_reward_metrics length_score) "length_score" "min" = Emitted (MFloat 0.7) ∧
  read (compute_reward_metrics length_score) "length_score" "std"
    = Emitted (MFloat 0.07395099728874523) ∧
  read (compute_reward_metrics length_score) "length_score" "count" = Absent ∧
  read (compute_reward_metrics_standalone length_score) "length_score" "mean"
    = Emitted (MFloat 0.8125000000000001) ∧
  read (compute_reward_metrics_standalone length_score) "length_score" "max"
    = Emitted (MFloat 0.9) ∧
  read (compute_reward_metrics_standalone length_score) "length_score" "min"
    = Emitted (MFloat 0.7) ∧
  read (compute_reward_metrics_standalone length_score) "length_score" "std"
    = Emitted (MFloat 0.07395099728874523) ∧
  read (compute_reward_metrics_standalone length_score) "length_score" "count"
    = Emitted (MInt 4) ∧
  approx 0.8125000000000001 0.8125 0.0001 ∧
  approx 0.07395099728874523 0.074 0.0001.
Proof. repeat split; vm_compute; reflexivity. Qed.

(** C7 as written fails for both aggregators: the deviation of the
    scenario is 0.0740, not 0.0808 (and the first emits no count). *)
Lemma C7_counterexample :
  ¬ claim_C7 compute_reward_metrics ∧ ¬ claim_C7 compute_reward_metrics_standalone.
Proof.
  split; intros (me & sd & _ & _ & _ & _ & Hc & Hsd & Ha).
  - vm_compute in Hc. discriminate Hc.
  - vm_compute in Hsd. injection Hsd as <-. vm_compute in Ha. discriminate Ha.
Qed.

(** C8.  Every key of a report either aggregator returns is
    "reward/<name>/<stat>" for a name of the input mapping and a statistic
    among mean, max, min, std and count. *)
Theorem C8_report_keys d r k :
  compute_reward_metrics d = Ok r ∨ compute_reward_metrics_standalone d = Ok r →
  is_Some (r !! k) →
  ∃ key stat, key ∈ d.*1 ∧ stat ∈ stats ∧ k = "reward/" +:+ key +:+ "/" +:+ stat.
Proof.
  intros [Hr|Hr] Hk.
  - by apply (returning_keys loop_body loop_body_local d r k).
  - rewrite standalone_unfold in Hr.
    by apply (returning_keys loop_body_standalone loop_body_standalone_local d r k).
Qed.

(** C8, at an instance: the key of the mean of [single_value]. *)
Lemma C8_witness :
  ∃ r, compute_reward_metrics single_value = Ok r ∧
    ∃ key stat, key ∈ single_value.*1 ∧ stat ∈ stats ∧
      metric_key "single_value" "mean" = "reward/" +:+ key +:+ "/" +:+ stat.
Proof.
  destruct (compute_total single_value) as [r E]; [by repeat constructor|].
  exists r. split; [done|].
  apply (C8_report_keys single_value r _ (or_introl E)).
  assert (Hnd : NoDup single_value.*1) by apply NoDup_singleton.
  assert (Hin : ("single_value", floats [0.42%float]) ∈ single_value)
    by (by apply list_elem_of_singleton).
  change (is_Some (stat_of r "single_value" "mean")).
  rewrite (compute_floats single_value r "single_value" [0.42%float] "mean" Hnd Hin eq_refl E).
  rewrite filter_finite_all by (by repeat constructor).
  destruct (emit_floats_stats "single_value" 0.42 []) as [-> _]. done.
Defined.

(** C9.  [compute_reward_metrics] passes over an empty series: the body
    neither raises nor writes, the outcome is that of the mapping without
    the signal, and, the names being distinct, the report holds no entry
    "reward/<name>/<suffix>" of the signal, whatever the slash-free suffix. *)
Theorem C9_empty_series_are_skipped key d1 d2 :
  (∀ m, loop_body key (PySeq []) m = (m, Ok tt)) ∧
  compute_reward_metrics (d1 ++ (key, PySeq []) :: d2) =
    compute_reward_metrics (d1 ++ d2) ∧
  (NoDup (d1 ++ (key, PySeq []) :: d2).*1 →
   ∀ r stat, no_slash stat = true →
     compute_reward_metrics (d1 ++ (key, PySeq []) :: d2) = Ok r →
     stat_of r key stat = None).
Proof.
  assert (H1 : compute_reward_metrics (d1 ++ (key, PySeq []) :: d2) =
               compute_reward_metrics (d1 ++ d2)).
  { apply returning_skip. intros m. done. }
  split; [done|]. split; [done|].
  intros Hnd r stat Hs Hr. apply NoDup_middle in Hnd as [Hnd Hk].
  rewrite H1 in Hr.
  by apply (returning_absent loop_body loop_body_local (d1 ++ d2)).
Qed.

(** C9, at an instance: an empty series beside [single_value]. *)
Lemma C9_witness :
  ∃ r, compute_reward_metrics ([] ++ ("empty_list", PySeq []) :: single_value) = Ok r ∧
    stat_of r "empty_list" "mean" = None.
Proof.
  destruct (compute_total ([] ++ ("empty_list", PySeq []) :: single_value)) as [r E];
    [by repeat constructor|].
  exists r. split; [done|].
  refine (proj2 (proj2 (C9_empty_series_are_skipped "empty_list" [] single_value))
            _ r "mean" eq_refl E).
  apply NoDup_cons. split; [|apply NoDup_singleton].
  intros H. apply list_elem_of_singleton in H. discriminate H.
Defined.

(** C10, as amended.  On a mapping with distinct names whose series are
    non-empty lists of finite floats both aggregators return a report, and
    for every signal the two reports hold the same mean, max and min, and
    the same deviation when the series has more than one element; the
    report of [compute_reward_metrics_standalone] moreover holds the count,
    and a deviation for a series of one element, which the report of
    [compute_reward_metrics] lacks. *)
Theorem C10_agreement_on_finite_series d :
  NoDup d.*1 → Forall finite_series d →
  ∃ r1 r2,
    compute_reward_metrics d = Ok r1 ∧ compute_reward_metrics_standalone d = Ok r2 ∧
    ∀ key xs, (key, floats xs) ∈ d →
      stat_of r1 key "mean" = stat_of r2 key "mean" ∧
      stat_of r1 key "max" = stat_of r2 key "max" ∧
      stat_of r1 key "min" = stat_of r2 key "min" ∧
      ((1 < length xs)%nat → stat_of r1 key "std" = stat_of r2 key "std") ∧
      (length xs = 1%nat → stat_of r1 key "std" = None ∧ is_Some (stat_of r2 key "std")) ∧
      stat_of r1 key "count" = None ∧
      stat_of r2 key "count" = Some (MInt (Z.of_nat (length xs))).
Proof.
  intros Hnd Hd.
  destruct (compute_total d) as [r1 E1].
  { eapply Forall_impl; [done|]. intros [k v] (xs & Hv & _). simpl in *. by subst. }
  destruct (standalone_total_floats d) as [r2 E2].
  { eapply Forall_impl; [done|]. intros [k v] (xs & Hv & _). by exists xs. }
  exists r1, r2. split; [done|]. split; [done|].
  intros key xs Hin.
  rewrite Forall_forall in Hd. destruct (Hd _ Hin) as (xs' & Heq & Hne & Hfin).
  simpl in Heq. unfold floats in Heq. injection Heq as Heq.
  apply map_PyFloat_inj in Heq. subst xs'.
  destruct xs as [|x xs]; [done|].
  pose proof (λ stat Hs, compute_floats d r1 key (x :: xs) stat Hnd Hin Hs E1) as H1.
  rewrite filter_finite_all in H1 by done.
  pose proof (λ stat Hs, standalone_floats d r2 key (x :: xs) stat Hnd Hin Hs E2) as H2.
  destruct (emit_floats_stats key x xs) as (Eme & Ehi & Elo & Esd & Ect).
  destruct (emit_floats_standalone_stats key x xs) as (Eme' & Ehi' & Elo' & Esd' & Ect').
  rewrite !H1, !H2 by done.
  rewrite Eme, Ehi, Elo, Esd, Ect, Eme', Ehi', Elo', Esd', Ect'.
  simpl length.
  split; [done|]. split; [done|]. split; [done|]. split; [|split; [|done]].
  - intros Hlt. apply Nat.ltb_lt in Hlt. by rewrite Hlt.
  - intros Hlen. assert (length xs = 0%nat) as -> by lia. done.
Qed.

(** C10, at an instance: the scenario [length_score]. *)
Lemma C10_witness :
  ∃ r1 r2,
    compute_reward_metrics length_score = Ok r1 ∧
    compute_reward_metrics_standalone length_score = Ok r2 ∧
    stat_of r1 "length_score" "mean" = stat_of r2 "length_score" "mean" ∧
    stat_of r1 "length_score" "count" = None ∧
    stat_of r2 "length_score" "count" = Some (MInt 4).
Proof.
  assert (Hnd : NoDup length_score.*1) by apply NoDup_singleton.
  assert (Hd : Forall finite_series length_score).
  { repeat constructor. eexists. split; [reflexivity|]. split; [done|].
    by repeat constructor. }
  destruct (C10_agreement_on_finite_series length_score Hnd Hd) as (r1 & r2 & E1 & E2 & H).
  exists r1, r2. split; [done|]. split; [done|].
  destruct (H "length_score" [0.8; 0.9; 0.7; 0.85]%float
              ltac:(by apply list_elem_of_singleton)) as (? & _ & _ & _ & _ & ? & ?).
  done.
Defined.

(** C10 as written fails: on [single_value] the report of
    [compute_reward_metrics] has no count and that of
    [compute_reward_metrics_standalone] has the count 1. *)
Lemma C10_counterexample :
  read (compute_reward_metrics single_value) "single_value" "count" = Absent ∧
  read (compute_reward_metrics_standalone single_value) "single_value" "count"
    = Emitted (MInt 1) ∧
  ¬ claim_C10.
Proof.
  assert (F1 : read (compute_reward_metrics single_value) "single_value" "count" = Absent)
    by (vm_compute; reflexivity).
  assert (F2 : read (compute_reward_metrics_standalone single_value) "single_value" "count"
               = Emitted (MInt 1)) by (vm_compute; reflexivity).
  split; [done|]. split; [done|].
  intros H. rewrite (H single_value), F2 in F1. discriminate F1.
Qed.

(** * Further properties

    The remaining sections go beyond the statements of the specification:
    they describe the two aggregators on inputs the specification does not
    mention, and the code of complete_test.py that produces their input.

    ** The loop, continued *)

Section loop_more.
Context (body : string → pyval → block unit) (Hlocal : local body).

Lemma body_eq k v m :
  body k v m = (contribution body k v ∪ m, (body k v ∅).2).
Proof. by destruct (Hlocal k v) as [-> _]. Qed.

Lemma body_snd k v m : (body k v m).2 = (body k v ∅).2.
Proof. by destruct (Hlocal k v) as [-> _]. Qed.

Lemma body_fst k v m : (body k v m).1 = contribution body k v ∪ m.
Proof. by destruct (Hlocal k v) as [-> _]. Qed.

(** The contributions of two signals of different names do not overlap. *)
Lemma contribution_disjoint k1 v1 k2 v2 :
  k1 ≠ k2 → contribution body k1 v1 ##ₘ contribution body k2 v2.
Proof.
  intros Hne. apply map_disjoint_spec. intros i x y H1 H2.
  destruct (Hlocal k1 v1) as [_ F1]. destruct (Hlocal k2 v2) as [_ F2].
  destruct (F1 i) as (s1 & Hs1 & ->); [by rewrite H1|].
  destruct (F2 (metric_key k1 s1)) as (s2 & Hs2 & Heq); [by rewrite H2|].
  by apply metric_key_ne in Heq; auto using stats_no_slash.
Qed.

(** An exception that leaves the loop was raised by the body of a signal. *)
Lemma for_items_raise d m m' e :
  for_items d body m = (m', Raise e) →
  ∃ k v, (k, v) ∈ d ∧ (body k v ∅).2 = Raise e.
Proof.
  revert m. induction d as [|[k v] d IH]; intros m; [done|].
  rewrite for_items_cons.
  pose proof (body_snd k v m) as Hb.
  destruct (body k v m) as [m1 [[]|e1]]; simpl in Hb.
  - intros H. destruct (IH _ H) as (k' & v' & Hin & Hr).
    exists k', v'. split; [|done]. apply elem_of_cons; by right.
  - intros [= -> ->]. exists k, v. split; [|done]. apply elem_of_cons; by left.
Qed.

(** A loop one of whose bodies raises does raise. *)
Lemma for_items_raises d m k v e :
  (k, v) ∈ d → (body k v ∅).2 = Raise e →
  ∃ e', (for_items d body m).2 = Raise e'.
Proof.
  revert m. induction d as [|[k' v'] d IH]; intros m Hin Hr.
  - by apply elem_of_nil in Hin.
  - rewrite for_items_cons.
    pose proof (body_snd k' v' m) as Hb.
    destruct (body k' v' m) as [m1 [[]|e1]]; simpl in Hb; [|by eexists].
    apply elem_of_cons in Hin as [[= <- <-]|Hin]; [congruence|].
    by apply IH.
Qed.

(** A property of the entries that every contribution has is a property of
    the dictionary returned. *)
Lemma returning_entries (Q : string → metric → Prop) d r key x :
  (∀ k v key x, contribution body k v !! key = Some x → Q key x) →
  returning (for_items d body) = Ok r → r !! key = Some x → Q key x.
Proof.
  intros HQ Hr. apply returning_Ok in Hr.
  assert (∀ m, (∀ key x, m !! key = Some x → Q key x) →
               ∀ key x, (for_items d body m).1 !! key = Some x → Q key x) as H.
  { clear Hr. induction d as [|[k v] d IH]; intros m Hm; [done|].
    rewrite for_items_cons.
    pose proof (body_fst k v m) as Hb.
    destruct (body k v m) as [m1 [[]|e]]; simpl in Hb; subst m1.
    - apply IH. intros key' x' Hl. apply lookup_union_Some_raw in Hl as [Hl|[_ Hl]]; eauto.
    - simpl. intros key' x' Hl. apply lookup_union_Some_raw in Hl as [Hl|[_ Hl]]; eauto. }
  intros Hl. eapply (H ∅); [|by rewrite Hr]. intros ? ?. by rewrite lookup_empty.
Qed.

(** An invariant of the dictionary that every body keeps holds of the
    dictionary returned. *)
Lemma returning_invariant (P : report → Prop) d r :
  P ∅ → (∀ k v m, P m → P (contribution body k v ∪ m)) →
  returning (for_items d body) = Ok r → P r.
Proof.
  intros H0 Hstep Hr. apply returning_Ok in Hr.
  assert (∀ m, P m → P (for_items d body m).1) as H.
  { clear Hr. induction d as [|[k v] d IH]; intros m Hm; [done|].
    rewrite for_items_cons.
    pose proof (body_fst k v m) as Hb.
    destruct (body k v m) as [m1 [[]|e]]; simpl in Hb; subst m1.
    - by apply IH, Hstep.
    - by apply Hstep. }
  specialize (H ∅ H0). by rewrite Hr in H.
Qed.

(** A loop that ends without an exception ends with the same dictionary
    in every order of the signals. *)
Lemma for_items_perm_Ok d d' :
  d ≡ₚ d' → NoDup d.*1 →
  ∀ m m', for_items d body m = (m', Ok tt) → for_items d' body m = (m', Ok tt).
Proof.
  induction 1 as [|[k v] d d' Hp IH|[k1 v1] [k2 v2] d|d d' d'' Hp1 IH1 Hp2 IH2];
    intros Hnd m m'.
  - done.
  - rewrite !for_items_cons.
    rewrite fmap_cons in Hnd. apply NoDup_cons in Hnd as [_ Hnd].
    destruct (body k v m) as [m1 [[]|e]]; [by apply IH|done].
  - rewrite !fmap_cons in Hnd. simpl in Hnd.
    apply NoDup_cons in Hnd as [Hne _].
    assert (k1 ≠ k2) as Hk by (intros ->; apply Hne, elem_of_cons; by left).
    rewrite (for_items_cons body k2 v2), (for_items_cons body k1 v1).
    rewrite (body_eq k2 v2 m), (body_eq k1 v1 m).
    destruct ((body k2 v2 ∅).2) as [[]|e2] eqn:R2;
      destruct ((body k1 v1 ∅).2) as [[]|e1] eqn:R1.
    + rewrite (for_items_cons body k2 v2), (for_items_cons body k1 v1).
      rewrite (body_eq k2 v2 (_ ∪ m)), (body_eq k1 v1 (_ ∪ m)), R1, R2.
      rewrite !(assoc_L (∪)).
      rewrite (map_union_comm (contribution body k1 v1) (contribution body k2 v2))
        by by apply contribution_disjoint.
      done.
    + rewrite (for_items_cons body k1 v1), (body_eq k1 v1 (_ ∪ m)), R1. done.
    + done.
    + done.
  - intros H. assert (NoDup d'.*1) as Hnd' by (by rewrite <- Hp1). by apply IH2, IH1.
Qed.

Lemma returning_perm_Ok d d' r :
  d ≡ₚ d' → NoDup d.*1 →
  returning (for_items d body) = Ok r → returning (for_items d' body) = Ok r.
Proof.
  intros Hp Hnd Hr. apply returning_Ok in Hr. apply returning_Ok.
  by apply (for_items_perm_Ok d d').
Qed.

Context (e0 : pyexn) (Hexn : ∀ k v e, (body k v ∅).2 = Raise e → e = e0).

(** The outcome of the loop does not depend on the order of the signals. *)
Lemma for_items_perm d d' :
  d ≡ₚ d' → NoDup d.*1 →
  ∀ m, (for_items d body m).2 = (for_items d' body m).2 ∧
       ((for_items d body m).2 = Ok tt → (for_items d body m).1 = (for_items d' body m).1).
Proof.
  induction 1 as [|[k v] d d' Hp IH|[k1 v1] [k2 v2] d|d d' d'' Hp1 IH1 Hp2 IH2];
    intros Hnd m.
  - done.
  - rewrite !for_items_cons.
    rewrite fmap_cons in Hnd. apply NoDup_cons in Hnd as [_ Hnd].
    destruct (body k v m) as [m1 [[]|e]]; [by apply IH|done].
  - rewrite !fmap_cons in Hnd. simpl in Hnd.
    apply NoDup_cons in Hnd as [Hne _].
    assert (k1 ≠ k2) as Hk by (intros ->; apply Hne, elem_of_cons; by left).
    pose proof (Hexn k1 v1) as E1. pose proof (Hexn k2 v2) as E2.
    rewrite (for_items_cons body k2 v2), (for_items_cons body k1 v1).
    rewrite (body_eq k2 v2 m), (body_eq k1 v1 m).
    destruct ((body k2 v2 ∅).2) as [[]|e2] eqn:R2;
      destruct ((body k1 v1 ∅).2) as [[]|e1] eqn:R1.
    + rewrite (for_items_cons body k2 v2), (for_items_cons body k1 v1).
      rewrite (body_eq k2 v2 (_ ∪ m)), (body_eq k1 v1 (_ ∪ m)), R1, R2.
      rewrite !(assoc_L (∪)).
      rewrite (map_union_comm (contribution body k1 v1) (contribution body k2 v2))
        by by apply contribution_disjoint.
      done.
    + rewrite (for_items_cons body k1 v1), (body_eq k1 v1 (_ ∪ m)), R1. done.
    + rewrite (for_items_cons body k2 v2), (body_eq k2 v2 (_ ∪ m)), R2. done.
    + simpl. by rewrite (E1 e1), (E2 e2).
  - assert (NoDup d'.*1) as Hnd' by (by rewrite <- Hp1).
    destruct (IH1 Hnd m) as [R1 M1]. destruct (IH2 Hnd' m) as [R2 M2].
    split; [congruence|]. intros Hok. rewrite M1 by done. apply M2. congruence.
Qed.

Lemma returning_perm d d' :
  d ≡ₚ d' → NoDup d.*1 →
  returning (for_items d body) = returning (for_items d' body).
Proof.
  intros Hp Hnd. destruct (for_items_perm d d' Hp Hnd ∅) as [R M].
  pose proof (for_items_raise d ∅) as F1. pose proof (for_items_raise d' ∅) as F2.
  unfold returning.
  destruct (for_items d body ∅) as [m1 [[]|e1]], (for_items d' body ∅) as [m2 [[]|e2]];
    simpl in *; try done.
  - by rewrite M.
  - congruence.
Qed.

End loop_more.

(** ** What the bodies raise *)

Lemma try_except_all body m : (try_except except_Exception body m).2 = Ok tt.
Proof. unfold try_except. by destruct (body m) as [m' [[]|e]]. Qed.

Lemma loop_body_raise k v e :
  (loop_body k v ∅).2 = Raise e →
  e = RuntimeError ∧
  ∃ dtype requires_grad data,
    v = PyTensor dtype requires_grad data ∧ length data ≠ 1%nat.
Proof.
  unfold loop_body. cbv [mbind block_bind mret block_ret eval continue].
  destruct v as [x|n|b|s num|items|dt rg data|dt rg x]; simpl;
    try (match goal with |- context [if ?c then _ else _] => destruct c end;
         [done|by rewrite try_except_all]).
  destruct data as [|x [|y data]]; simpl.
  - intros [= <-]. split; [done|]. by eexists _, _, _.
  - destruct (PrimFloat.eqb (cast dt x) 0); [done|by rewrite try_except_all].
  - intros [= <-]. split; [done|]. by eexists _, _, _.
Qed.

Lemma loop_body_tensor_raises k dtype requires_grad data m :
  length data ≠ 1%nat →
  (loop_body k (PyTensor dtype requires_grad data) m).2 = Raise RuntimeError.
Proof. by destruct data as [|x [|y data]]. Qed.

Lemma mapM_float_of_scalar_raise l e :
  mapM np.float_of_scalar l = Raise e →
  e = ValueError ∨ e = TypeError ∨
  (e = OverflowError ∧ ∃ n, PyInt n ∈ l ∧ is_infinity (Z2float n) = true).
Proof.
  induction l as [|v l IH]; [done|].
  cbn [mapM]. cbv [mbind result_bind mret result_ret].
  destruct (np.float_of_scalar v) as [x|e1] eqn:E1.
  - destruct (mapM np.float_of_scalar l) as [xs|e2]; [done|].
    intros [= <-]. destruct (IH eq_refl) as [?|[?|[? (n & Hin & Hn)]]]; auto.
    right; right. split; [done|]. exists n. split; [|done]. apply elem_of_cons; by right.
  - intros [= <-].
    destruct v as [x|n|b|s [x|]|items|dt rg data|dt rg x]; simpl in E1; try done;
      try (injection E1 as <-; by auto).
    destruct (is_infinity (Z2float n)) eqn:En; [|done].
    injection E1 as <-. right; right. split; [done|]. exists n.
    split; [|done]. apply elem_of_cons; by left.
Qed.

Lemma array_float_raise items e :
  np.array_float items = Raise e →
  e = ValueError ∨ e = TypeError ∨
  (e = OverflowError ∧
   ∃ n, PyInt n ∈ np.leaves (PySeq items) ∧ is_infinity (Z2float n) = true) ∨
  (e = RuntimeError ∧ holds_grad (PySeq items) = true).
Proof.
  unfold np.array_float. cbv [mbind result_bind].
  destruct (np.asarrays items) as [[]|e0] eqn:E0.
  - destruct (np.shape (PySeq items)); [|intros [= <-]; auto].
    destruct (mapM np.float_of_scalar _) as [xs|e1] eqn:E; [done|].
    intros [= <-]. apply mapM_float_of_scalar_raise in E. tauto.
  - intros [= <-]. apply asarrays_raise in E0. tauto.
Qed.

Lemma to_float_array_raise v e :
  to_float_array v = Raise e →
  e = ValueError ∨ e = TypeError ∨
  (e = OverflowError ∧ ∃ n, PyInt n ∈ np.leaves v ∧ is_infinity (Z2float n) = true) ∨
  (e = RuntimeError ∧ holds_grad v = true).
Proof.
  destruct v as [x|n|b|s num|items|dt [] data|dt [] x]; try done;
    try (intros [= <-]; tauto);
    try (intros H; apply array_float_raise in H; simpl in H;
         rewrite ?orb_false_r in H; intuition discriminate).
Qed.

Lemma np_min_raise a e : np.min a = Raise e → e = ValueError.
Proof. destruct a as [n [|x l]|n [|x l]|n [|x l]|n]; simpl; congruence. Qed.

Lemma np_max_raise a e : np.max a = Raise e → e = ValueError.
Proof. destruct a as [n [|x l]|n [|x l]|n [|x l]|n]; simpl; congruence. Qed.

Lemma loop_body_standalone_raise k v e :
  (loop_body_standalone k v ∅).2 = Raise e →
  (e = OverflowError ∧ ∃ n, PyInt n ∈ np.leaves v ∧ is_infinity (Z2float n) = true) ∨
  (e = RuntimeError ∧ holds_grad v = true).
Proof.
  unfold loop_body_standalone, try_except, try_body_standalone.
  cbv [mbind block_bind mret block_ret eval setitem].
  destruct (to_float_array v) as [a|e1] eqn:Ea.
  - destruct (0 <? np.len a)%nat; [|done].
    destruct (np.min a) as [lo|e1] eqn:Elo.
    + destruct (np.max a) as [hi|e2] eqn:Ehi; [done|].
      apply np_max_raise in Ehi as ->. done.
    + apply np_min_raise in Elo as ->. done.
  - apply to_float_array_raise in Ea as [->|[->|[[-> H]|[-> H]]]]; simpl;
      [done|done| |]; intros [= <-]; auto.
Qed.

(** ** What the bodies write *)

Lemma loop_body_contribution k v :
  contribution loop_body k v = ∅ ∨
  ∃ a hi lo,
    let c := <[metric_key k "min" := MFloat lo]>
               (<[metric_key k "max" := MFloat hi]>
                  (<[metric_key k "mean" := MFloat (np.mean a)]> (∅ : report))) in
    contribution loop_body k v = c ∨
    contribution loop_body k v = <[metric_key k "std" := MFloat (np.std a)]> c.
Proof.
  unfold contribution, loop_body.
  cbv [mbind block_bind mret block_ret eval continue].
  destruct (py_not v) as [[]|e]; simpl; [by left| |by left].
  rewrite try_except_fst. unfold try_body.
  cbv [mbind block_bind mret block_ret eval setitem continue].
  destruct (to_array v) as [a|e]; simpl; [|by left].
  destruct (negb _ || _) eqn:E1; simpl; [by left|].
  destruct (np.len (np.take_finite a) =? 0)%nat eqn:E2; simpl; [by left|].
  assert (∃ hi lo, np.max (np.take_finite a) = Ok hi ∧ np.min (np.take_finite a) = Ok lo)
    as (hi & lo & -> & ->).
  { apply orb_false_iff in E1 as [E0 E1]. apply negb_false_iff in E0.
    apply Nat.eqb_neq in E2.
    destruct a as [n data|n data|n data|n]; simpl in *; [| | |done].
    - destruct (List.filter np.isfinite data); [done|]. by eexists _, _.
    - destruct (List.filter np.isfinite data); [done|]. by eexists _, _.
    - destruct data; [done|]. by eexists _, _. }
  right. exists (np.take_finite a), hi, lo. simpl.
  destruct (1 <? _)%nat; simpl; auto.
Qed.

Lemma loop_body_standalone_contribution k v :
  contribution loop_body_standalone k v = ∅ ∨
  ∃ a, (0 < np.len a)%nat ∧
    let c := <[metric_key k "std" := MFloat (np.std a)]>
               (<[metric_key k "mean" := MFloat (np.mean a)]> (∅ : report)) in
    contribution loop_body_standalone k v = c ∨
    ∃ lo hi,
      contribution loop_body_standalone k v =
        <[metric_key k "count" := MInt (Z.of_nat (np.len a))]>
          (<[metric_key k "max" := MFloat hi]>
             (<[metric_key k "min" := MFloat lo]> c)).
Proof.
  unfold contribution, loop_body_standalone. rewrite try_except_fst.
  unfold try_body_standalone.
  cbv [mbind block_bind mret block_ret eval setitem].
  destruct (to_float_array v) as [a|e]; simpl; [|by left].
  destruct (0 <? np.len a)%nat eqn:E; simpl; [|by left].
  apply Nat.ltb_lt in E. right. exists a. split; [done|].
  destruct (np.min a) as [lo|e] eqn:Elo; simpl; [|by left].
  assert (∃ hi, np.max a = Ok hi) as [hi ->].
  { destruct a as [n [|x l]|n [|x l]|n [|x l]|n]; simpl in *; try done; by eexists. }
  right. by exists lo, hi.
Qed.

Lemma lookup_insert_key k s x (c : report) k' s' :
  no_slash s = true → no_slash s' = true →
  is_Some (<[metric_key k s := x]> c !! metric_key k' s') ↔
  (k' = k ∧ s' = s) ∨ is_Some (c !! metric_key k' s').
Proof.
  intros Hs Hs'. rewrite lookup_insert_is_Some'. split.
  - intros [H|H]; [|by right]. apply metric_key_inj in H as [-> ->]; auto.
  - intros [[-> ->]|H]; auto.
Qed.

(** ** The square root *)

Lemma binary_round_aux_not_negative m e l :
  SFltb (binary_round_aux prec emax false m e l) (S754_zero false) = false.
Proof.
  unfold binary_round_aux.
  destruct (shr_fexp prec emax m e l) as [mrs' e'].
  destruct (shr_fexp prec emax _ e' loc_Exact) as [mrs'' e''].
  destruct (shr_m mrs''); [done| |done].
  by destruct (_ <=? _)%Z.
Qed.

Lemma sqrt_not_negative x : (sqrt x <? 0)%float = false.
Proof.
  rewrite ltb_spec, sqrt_spec.
  change (Prim2SF 0) with (S754_zero false).
  destruct (Prim2SF x) as [[]|[]| |[] m e]; try done.
  unfold SF64sqrt, SFsqrt.
  destruct (SFsqrt_core_binary prec emax (Z.pos m) e) as [[mz ez] lz].
  apply binary_round_aux_not_negative.
Qed.

(** The same for the float32 square root, whose result is converted from
    its mantissa and exponent. *)
Lemma SFltb_ldexp_not_negative f e :
  SFltb f (S754_zero false) = false →
  SFltb (SFldexp prec emax f e) (S754_zero false) = false.
Proof.
  destruct f as [[]|[]| |[] m ex]; try done. intros _.
  unfold SFldexp, binary_round.
  destruct (shl_align _ _ _) as [mz ez].
  apply binary_round_aux_not_negative.
Qed.

Lemma SF2Prim_not_negative m e :
  (SF2Prim (S754_finite false m e) <? 0)%float = false.
Proof.
  unfold SF2Prim. rewrite ltb_spec, Z_ldexp_spec, of_uint63_spec.
  change (Prim2SF 0) with (S754_zero false).
  apply SFltb_ldexp_not_negative.
  unfold binary_normalize.
  destruct (Uint63.to_Z (Uint63.of_Z (Z.pos m))) as [|p|p] eqn:E.
  - done.
  - unfold binary_round. destruct (shl_align _ _ _) as [mz ez].
    apply binary_round_aux_not_negative.
  - pose proof (Uint63.to_Z_bounded (Uint63.of_Z (Z.pos m))). lia.
Qed.

Lemma f32_sqrt_not_negative x : (f32.sqrt x <? 0)%float = false.
Proof.
  unfold f32.sqrt, SFsqrt.
  destruct (Prim2SF x) as [[]|[]| |[] m e]; try done.
  destruct (SFsqrt_core_binary f32.prec f32.emax (Z.pos m) e) as [[mz ez] lz].
  unfold binary_round_aux.
  destruct (shr_fexp f32.prec f32.emax mz ez lz) as [mrs' e'].
  destruct (shr_fexp f32.prec f32.emax _ e' loc_Exact) as [mrs'' e''].
  destruct (shr_m mrs''); [done| |done].
  destruct (_ <=? _)%Z; [apply SF2Prim_not_negative|done].
Qed.

Lemma std_not_negative a : (np.std a <? 0)%float = false.
Proof.
  destruct a; [apply sqrt_not_negative|apply f32_sqrt_not_negative|
               apply sqrt_not_negative..].
Qed.

(** ** Tensors and bare scalars *)

Lemma mapM_flatten ts :
  mapM torch.flatten (map (λ t : bool * list float, PyTensor float64 t.1 t.2) ts)
    = Ok (map (λ t, (float64, t.2)) ts).
Proof. induction ts as [|t ts IH]; [done|]. simpl. cbn. rewrite IH. cbn. by rewrite map_id. Qed.

Lemma loop_body_tensors key (ts : list (bool * list float)) metrics :
  loop_body key (PySeq (map (λ t, PyTensor float64 t.1 t.2) ts)) metrics =
    (emit_floats key (List.filter np.isfinite (concat ts.*2)) metrics, Ok tt).
Proof.
  unfold loop_body.
  cbv [mbind block_bind mret block_ret eval continue py_not].
  destruct ts as [|t ts]; [done|].
  rewrite bool_decide_eq_false_2 by done.
  unfold try_except, try_body.
  cbv [mbind block_bind mret block_ret eval continue setitem].
  change (to_array (PySeq (map (λ t : bool * list float, PyTensor float64 t.1 t.2) (t :: ts))))
    with (mapM torch.flatten (map (λ t : bool * list float, PyTensor float64 t.1 t.2) (t :: ts))
            ≫= λ ts, Ok (torch.cat ts)).
  rewrite mapM_flatten. cbn [mbind result_bind].
  assert (torch.cat (map (λ t : bool * list float, (float64, t.2)) (t :: ts))
          = np.Float64 (length (concat (t :: ts).*2)) (concat (t :: ts).*2)) as ->.
  { unfold torch.cat.
    replace ((map (λ t : bool * list float, (float64, t.2)) (t :: ts)).*2)
      with ((t :: ts).*2) by (rewrite <- list_fmap_compose; done).
    reflexivity. }
  cbn [np.issubdtype_number np.len negb orb].
  destruct (concat ((t :: ts).*2)) as [|x xs] eqn:E; [reflexivity|].
  cbn [length Nat.eqb np.take_finite np.len].
  destruct (List.filter np.isfinite (x :: xs)) as [|y fin] eqn:E'; [done|].
  cbn [length Nat.eqb np.max np.min emit_floats].
  destruct (1 <? S (length fin))%nat; done.
Qed.

Lemma loop_body_standalone_tensor key dtype data metrics :
  loop_body_standalone key (PyTensor dtype false data) metrics =
    (emit_floats_standalone key (map (cast dtype) data) metrics, Ok tt).
Proof.
  unfold loop_body_standalone, try_except, try_body_standalone.
  cbv [mbind block_bind mret block_ret eval continue setitem to_float_array].
  destruct data as [|x xs]; [done|].
  cbn [map np.len length Nat.ltb Nat.leb np.min np.max emit_floats_standalone].
  rewrite ?length_map. done.
Qed.

Lemma loop_body_scalar key v m :
  is_scalar v = true → loop_body key v m = (m, Ok tt).
Proof.
  intros Hv. unfold loop_body.
  cbv [mbind block_bind mret block_ret eval continue].
  destruct v as [x|n|b|s num|items|dt rg data|dt rg x]; try done; simpl;
    match goal with |- context [if ?c then _ else _] => destruct c eqn:E end;
    try done.
  destruct s; [done|]. done.
Qed.

Lemma loop_body_standalone_scalar key v m :
  is_scalar v = true →
  loop_body_standalone key v m = loop_body_standalone key (PySeq [v]) m.
Proof. by destruct v. Qed.

(** ** Further properties of the aggregators *)

(** X1.  The order of the signals does not matter for the report: on two
    mappings with the same items in a different order, the names being
    distinct, [compute_reward_metrics] has the same outcome, the same
    report or the same exception; [compute_reward_metrics_standalone]
    returns a report for the one iff it returns the same report for the
    other, and has the same outcome when no value holds a tensor that
    requires grad.  With such a tensor the exception it raises can depend
    on the order, as on [grad_and_overflow]. *)
Theorem X1_order_of_signals d d' :
  d ≡ₚ d' → NoDup d.*1 →
  compute_reward_metrics d = compute_reward_metrics d' ∧
  (∀ r, compute_reward_metrics_standalone d = Ok r ↔
        compute_reward_metrics_standalone d' = Ok r) ∧
  (Forall (λ kv, holds_grad kv.2 = false) d →
   compute_reward_metrics_standalone d = compute_reward_metrics_standalone d') ∧
  compute_reward_metrics_standalone grad_and_overflow = Raise RuntimeError ∧
  compute_reward_metrics_standalone (reverse grad_and_overflow) = Raise OverflowError.
Proof.
  intros Hp Hnd.
  assert (NoDup d'.*1) as Hnd' by (by rewrite <- Hp).
  assert (∀ r, compute_reward_metrics_standalone d = Ok r ↔
               compute_reward_metrics_standalone d' = Ok r) as Hok.
  { intros r. rewrite !standalone_unfold. split.
    - by apply (returning_perm_Ok loop_body_standalone loop_body_standalone_local).
    - by apply (returning_perm_Ok loop_body_standalone loop_body_standalone_local). }
  split; [|split; [done|split; [|split; vm_compute; reflexivity]]].
  - apply (returning_perm loop_body loop_body_local RuntimeError); [|done..].
    intros k v e H. by apply loop_body_raise in H as [-> _].
  - intros Hg.
    assert (∀ d0 e, Forall (λ kv, holds_grad kv.2 = false) d0 →
              compute_reward_metrics_standalone d0 = Raise e → e = OverflowError) as Hex.
    { intros d0 e Hg0. rewrite standalone_unfold. unfold returning.
      destruct (for_items d0 loop_body_standalone ∅) as [m [[]|e']] eqn:E; [done|].
      intros [= ->].
      destruct (for_items_raise loop_body_standalone loop_body_standalone_local
                  d0 ∅ m e E) as (k & v & Hin & Hr).
      apply loop_body_standalone_raise in Hr as [[-> _]|[_ Hr]]; [done|].
      rewrite Forall_forall in Hg0. specialize (Hg0 _ Hin). simpl in Hg0. congruence. }
    assert (Forall (λ kv, holds_grad kv.2 = false) d') as Hg' by (by rewrite <- Hp).
    destruct (compute_reward_metrics_standalone d) as [r|e] eqn:E1.
    + symmetry. by apply Hok.
    + destruct (compute_reward_metrics_standalone d') as [r'|e'] eqn:E2.
      * destruct (Hok r') as [_ H]. by specialize (H eq_refl).
      * by rewrite (Hex d e Hg E1), (Hex d' e' Hg' E2).
Qed.

(** X1, at an instance: [tenths] and one more signal, in both orders. *)
Lemma X1_witness :
  compute_reward_metrics (("a", floats [0.5%float]) :: tenths) =
  compute_reward_metrics (tenths ++ [("a", floats [0.5%float])]).
Proof.
  refine (proj1 (X1_order_of_signals (("a", floats [0.5%float]) :: tenths)
                   (tenths ++ [("a", floats [0.5%float])]) _ _)).
  - apply perm_swap.
  - apply NoDup_cons. split; [|apply NoDup_singleton].
    intros H. apply list_elem_of_singleton in H. discriminate H.
Defined.

Section independence.
Context (body : string → pyval → block unit) (Hlocal : local body).

Lemma returning_single d r key values :
  NoDup d.*1 → (key, values) ∈ d → returning (for_items d body) = Ok r →
  returning (for_items [(key, values)] body) = Ok (contribution body key values) ∧
  contribution body key values ⊆ r ∧
  ∀ stat, no_slash stat = true →
    stat_of r key stat = stat_of (contribution body key values) key stat.
Proof.
  intros Hnd Hin Hr.
  assert ((body key values ∅).2 = Ok tt) as Hok.
  { destruct (body key values ∅).2 as [[]|e] eqn:E; [done|].
    destruct (for_items_raises body Hlocal d ∅ key values e Hin E) as [e' He'].
    apply returning_Ok in Hr. by rewrite Hr in He'. }
  assert (∀ stat, no_slash stat = true →
            stat_of r key stat = stat_of (contribution body key values) key stat) as Hst.
  { intros stat Hs. by apply (returning_lookup body Hlocal d). }
  split; [|split; [|done]].
  - apply returning_Ok. simpl. cbv [mbind block_bind mret block_ret].
    rewrite (body_eq body Hlocal), Hok. by rewrite (right_id_L ∅ (∪)).
  - apply map_subseteq_spec. intros i x Hi.
    destruct (Hlocal key values) as [_ Hfoot].
    destruct (Hfoot i) as (stat & Hs & ->); [by rewrite Hi|].
    unfold stat_of in Hst. rewrite Hst by by apply stats_no_slash. done.
Qed.

End independence.

(** X2.  The signals are summarised independently: when an aggregator
    returns a report for a mapping with distinct names, it also returns one
    for each signal taken alone; that report is contained in the report of
    the whole mapping, which holds nothing else under the name of the
    signal. *)
Theorem X2_signals_are_independent d key values :
  NoDup d.*1 → (key, values) ∈ d →
  (∀ r, compute_reward_metrics d = Ok r →
     ∃ r1, compute_reward_metrics [(key, values)] = Ok r1 ∧ r1 ⊆ r ∧
       ∀ stat, no_slash stat = true → stat_of r key stat = stat_of r1 key stat) ∧
  (∀ r, compute_reward_metrics_standalone d = Ok r →
     ∃ r1, compute_reward_metrics_standalone [(key, values)] = Ok r1 ∧ r1 ⊆ r ∧
       ∀ stat, no_slash stat = true → stat_of r key stat = stat_of r1 key stat).
Proof.
  intros Hnd Hin. split; intros r Hr.
  - exists (contribution loop_body key values).
    by apply (returning_single loop_body loop_body_local d).
  - rewrite standalone_unfold in Hr.
    exists (contribution loop_body_standalone key values). rewrite standalone_unfold.
    by apply (returning_single loop_body_standalone loop_body_standalone_local d).
Qed.

(** X2, at an instance: the signal [tenths] beside another one. *)
Lemma X2_witness :
  ∃ r r1,
    compute_reward_metrics (("a", floats [0.5%float]) :: tenths) = Ok r ∧
    compute_reward_metrics [("tenths", floats [0.1; 0.1; 0.1]%float)] = Ok r1 ∧
    r1 ⊆ r.
Proof.
  destruct (compute_total (("a", floats [0.5%float]) :: tenths)) as [r E];
    [by repeat constructor|].
  assert (NoDup (("a", floats [0.5%float]) :: tenths).*1) as Hnd.
  { apply NoDup_cons. split; [|apply NoDup_singleton].
    intros H. apply list_elem_of_singleton in H. discriminate H. }
  assert (("tenths", floats [0.1; 0.1; 0.1]%float) ∈ ("a", floats [0.5%float]) :: tenths)
    as Hin.
  { apply elem_of_cons. right. by apply list_elem_of_singleton. }
  destruct (proj1 (X2_signals_are_independent _ _ _ Hnd Hin) r E) as (r1 & E1 & Hsub & _).
  by exists r, r1.
Defined.

(** X3.  [compute_reward_metrics] raises exactly when the value of some
    signal is itself a tensor that does not hold one element, and what it
    raises is [RuntimeError]: the test [not values] of line 20 stands
    outside the [try], and the truth value of such a tensor is not
    defined.  Every other exception is caught. *)
Theorem X3_compute_reward_metrics_raises d e :
  compute_reward_metrics d = Raise e ↔
  e = RuntimeError ∧
  ∃ key dtype requires_grad data,
    (key, PyTensor dtype requires_grad data) ∈ d ∧ length data ≠ 1%nat.
Proof.
  unfold compute_reward_metrics, returning. split.
  - destruct (for_items d loop_body ∅) as [m [[]|e']] eqn:E; [done|].
    intros [= ->].
    destruct (for_items_raise loop_body loop_body_local d ∅ m e E) as (k & v & Hin & Hr).
    apply loop_body_raise in Hr as (-> & dt & rg & data & -> & Hlen).
    split; [done|]. by exists k, dt, rg, data.
  - intros (-> & key & dt & rg & data & Hin & Hlen).
    destruct (for_items_raises loop_body loop_body_local d ∅ key (PyTensor dt rg data)
                RuntimeError Hin (loop_body_tensor_raises key dt rg data ∅ Hlen))
      as [e' He'].
    destruct (for_items d loop_body ∅) as [m [[]|e'']] eqn:E; [done|].
    destruct (for_items_raise loop_body loop_body_local d ∅ m e'' E) as (k & v & _ & Hr).
    by apply loop_body_raise in Hr as (-> & _).
Qed.

(** X4.  [compute_reward_metrics_standalone] raises nothing but
    [OverflowError] and [RuntimeError]: the first only when some signal
    holds a Python [int] too large for a float, the second only when some
    signal is or holds a tensor that requires grad ([numpy()] is called
    without [detach()], line 27).  Hence it returns a report on every
    mapping without such an [int] and such a tensor; and it raises on
    every mapping in which the value of a signal is a tensor that requires
    grad. *)
Theorem X4_what_the_standalone_raises d :
  (∀ e, compute_reward_metrics_standalone d = Raise e →
     (e = OverflowError ∧
      ∃ key values n, (key, values) ∈ d ∧ PyInt n ∈ np.leaves values ∧
        is_infinity (Z2float n) = true) ∨
     (e = RuntimeError ∧ ∃ key values, (key, values) ∈ d ∧ holds_grad values = true)) ∧
  (∀ key dtype data, (key, PyTensor dtype true data) ∈ d →
     ∃ e, compute_reward_metrics_standalone d = Raise e).
Proof.
  split.
  - intros e. rewrite standalone_unfold. unfold returning.
    destruct (for_items d loop_body_standalone ∅) as [m [[]|e']] eqn:E; [done|].
    intros [= ->].
    destruct (for_items_raise loop_body_standalone loop_body_standalone_local d ∅ m e E)
      as (k & v & Hin & Hr).
    apply loop_body_standalone_raise in Hr as [(-> & n & Hn & Hinf)|[-> Hg]].
    + left. split; [done|]. by exists k, v, n.
    + right. split; [done|]. by exists k, v.
  - intros key dt data Hin. rewrite standalone_unfold. unfold returning.
    destruct (for_items_raises loop_body_standalone loop_body_standalone_local d ∅
                key (PyTensor dt true data) RuntimeError Hin eq_refl) as [e He].
    destruct (for_items d loop_body_standalone ∅) as [m [[]|e']]; [done|].
    by exists e'.
Qed.

(** X4, at an instance: the tensor of [grad_and_overflow]. *)
Lemma X4_witness :
  ∃ e, compute_reward_metrics_standalone grad_and_overflow = Raise e.
Proof.
  refine (proj2 (X4_what_the_standalone_raises grad_and_overflow)
            "logits" float32 [0.5; 0.25]%float _).
  apply elem_of_cons. by left.
Defined.

(** X5.  Float64 tensors are read as the series of their elements:
    [compute_reward_metrics] treats a list of float64 tensors, whether they
    require grad or not, as the list of all their elements in order (lines
    25-27).  It does not for float32 tensors, whose statistics it computes
    in float32: on [test_data_2] the mean is 0.7083333134651184, where the
    mean of the elements as Python floats is 0.70833333333333337.
    [compute_reward_metrics_standalone] converts to float64 (line 27) and
    treats a tensor of either dtype that does not require grad as the list
    of its elements. *)
Theorem X5_tensors_are_read_as_their_elements key d1 d2 :
  (∀ ts : list (bool * list float),
     compute_reward_metrics
       (d1 ++ (key, PySeq (map (λ t, PyTensor float64 t.1 t.2) ts)) :: d2) =
     compute_reward_metrics (d1 ++ (key, floats (concat ts.*2)) :: d2)) ∧
  (∀ dtype data,
     compute_reward_metrics_standalone (d1 ++ (key, PyTensor dtype false data) :: d2) =
     compute_reward_metrics_standalone
       (d1 ++ (key, floats (map (cast dtype) data)) :: d2)) ∧
  read (compute_reward_metrics test_data_2) "tensor_reward" "mean"
    = Emitted (MFloat 0.7083333134651184) ∧
  read (compute_reward_metrics
          [("tensor_reward",
            floats (map (cast float32) [0.5; 0.6; 0.8; 0.9; 0.7; 0.75]%float))])
       "tensor_reward" "mean"
    = Emitted (MFloat 0.70833333333333337).
Proof.
  split; [|split; [|split; vm_compute; reflexivity]].
  - intros ts. apply returning_congr. intros m.
    by rewrite loop_body_tensors, loop_body_floats.
  - intros dt data. rewrite !standalone_unfold. apply returning_congr. intros m.
    by rewrite loop_body_standalone_tensor, loop_body_standalone_floats.
Qed.

(** X6.  A value that is a bare scalar (a number, a bool or a string
    instead of a series) is passed over by [compute_reward_metrics], which
    returns what it returns without the signal, and is read as a series of
    one element by [compute_reward_metrics_standalone] (line 29). *)
Theorem X6_bare_scalars key v d1 d2 :
  is_scalar v = true →
  compute_reward_metrics (d1 ++ (key, v) :: d2) = compute_reward_metrics (d1 ++ d2) ∧
  compute_reward_metrics_standalone (d1 ++ (key, v) :: d2) =
    compute_reward_metrics_standalone (d1 ++ (key, PySeq [v]) :: d2).
Proof.
  intros Hv. split.
  - apply returning_skip. intros m. by apply loop_body_scalar.
  - rewrite !standalone_unfold. apply returning_congr. intros m.
    by apply loop_body_standalone_scalar.
Qed.

(** X6, at an instance: a bare float beside [single_value]. *)
Lemma X6_witness :
  read (compute_reward_metrics ([] ++ ("bonus", PyFloat 0.5) :: single_value))
    "bonus" "mean" = Absent ∧
  read (compute_reward_metrics_standalone ([] ++ ("bonus", PyFloat 0.5) :: single_value))
    "bonus" "count" = Emitted (MInt 1).
Proof.
  destruct (X6_bare_scalars "bonus" (PyFloat 0.5) [] single_value eq_refl) as [-> ->].
  split; vm_compute; reflexivity.
Defined.

Lemma is_Some_None_iff {A} : is_Some (@None A) ↔ False.
Proof. split; [apply is_Some_None|done]. Qed.

(** X7.  The entries of a signal come together.  In a report of
    [compute_reward_metrics] a signal has a mean exactly when it has a max
    and exactly when it has a min, a deviation only with them, and never a
    count.  In a report of [compute_reward_metrics_standalone] a mean comes
    with a deviation and conversely, a count comes with a min and with a
    max and conversely, and a count only with a mean (the converse fails:
    see [standalone_partial_entry]). *)
Theorem X7_entries_come_together d r key :
  (compute_reward_metrics d = Ok r →
     (is_Some (stat_of r key "mean") ↔ is_Some (stat_of r key "max")) ∧
     (is_Some (stat_of r key "mean") ↔ is_Some (stat_of r key "min")) ∧
     (is_Some (stat_of r key "std") → is_Some (stat_of r key "mean")) ∧
     stat_of r key "count" = None) ∧
  (compute_reward_metrics_standalone d = Ok r →
     (is_Some (stat_of r key "mean") ↔ is_Some (stat_of r key "std")) ∧
     (is_Some (stat_of r key "count") ↔ is_Some (stat_of r key "min")) ∧
     (is_Some (stat_of r key "count") ↔ is_Some (stat_of r key "max")) ∧
     (is_Some (stat_of r key "count") → is_Some (stat_of r key "mean"))).
Proof.
  split; intros Hr.
  - revert key.
    apply (returning_invariant loop_body loop_body_local
             (λ r, ∀ key,
                (is_Some (stat_of r key "mean") ↔ is_Some (stat_of r key "max")) ∧
                (is_Some (stat_of r key "mean") ↔ is_Some (stat_of r key "min")) ∧
                (is_Some (stat_of r key "std") → is_Some (stat_of r key "mean")) ∧
                stat_of r key "count" = None) d r); [| |done].
    + intros key. unfold stat_of. rewrite !lookup_empty, !is_Some_None_iff. tauto.
    + intros k v m Hm key. specialize (Hm key). unfold stat_of in *.
      rewrite !lookup_union_is_Some, lookup_union_None.
      destruct Hm as (H1 & H2 & H3 & H4).
      destruct (loop_body_contribution k v) as [->|(a & hi & lo & [->| ->])];
        rewrite ?lookup_insert_key, ?lookup_empty, ?is_Some_None_iff by reflexivity.
      * tauto.
      * rewrite !lookup_insert_ne, lookup_empty by key_neq.
        intuition (try discriminate; auto).
      * rewrite !lookup_insert_ne, lookup_empty by key_neq.
        intuition (try discriminate; auto).
  - rewrite standalone_unfold in Hr. revert key.
    apply (returning_invariant loop_body_standalone loop_body_standalone_local
             (λ r, ∀ key,
                (is_Some (stat_of r key "mean") ↔ is_Some (stat_of r key "std")) ∧
                (is_Some (stat_of r key "count") ↔ is_Some (stat_of r key "min")) ∧
                (is_Some (stat_of r key "count") ↔ is_Some (stat_of r key "max")) ∧
                (is_Some (stat_of r key "count") → is_Some (stat_of r key "mean"))) d r);
      [| |done].
    + intros key. unfold stat_of. rewrite !lookup_empty, !is_Some_None_iff. tauto.
    + intros k v m Hm key. specialize (Hm key). unfold stat_of in *.
      rewrite !lookup_union_is_Some.
      destruct Hm as (H1 & H2 & H3 & H4).
      destruct (loop_body_standalone_contribution k v)
        as [->|(a & _ & [->|(lo & hi & ->)])];
        rewrite ?lookup_insert_key, ?lookup_empty, ?is_Some_None_iff by reflexivity.
      * tauto.
      * intuition (try discriminate; auto).
      * intuition (try discriminate; auto).
Qed.

(** X7, at an instance: the scenario [length_score]. *)
Lemma X7_witness :
  ∃ r, compute_reward_metrics length_score = Ok r ∧
    (is_Some (stat_of r "length_score" "mean") ↔ is_Some (stat_of r "length_score" "max")) ∧
    stat_of r "length_score" "count" = None.
Proof.
  destruct (compute_total length_score) as [r E]; [by repeat constructor|].
  exists r. split; [done|].
  destruct (proj1 (X7_entries_come_together length_score r "length_score") E)
    as (H1 & _ & _ & H4).
  done.
Defined.

Ltac entry_cases H :=
  repeat (apply lookup_insert_Some in H as [[<- <-]|[_ H]]);
  [..|by rewrite lookup_empty in H].

Ltac other_stat :=
  let E := fresh in
  intros ? E; apply metric_key_inj in E as [_ E]; [discriminate E|reflexivity|reflexivity].

Lemma loop_body_entries k v key x :
  contribution loop_body k v !! key = Some x → well_formed_entry key x.
Proof.
  destruct (loop_body_contribution k v) as [->|(a & hi & lo & [->| ->])]; intros H.
  - by rewrite lookup_empty in H.
  - entry_cases H; (split; other_stat).
  - entry_cases H; try (split; other_stat).
    split; [|other_stat]. intros _ _. eexists. split; [done|]. apply std_not_negative.
Qed.

Lemma loop_body_standalone_entries k v key x :
  contribution loop_body_standalone k v !! key = Some x → well_formed_entry key x.
Proof.
  destruct (loop_body_standalone_contribution k v)
    as [->|(a & Ha & [->|(lo & hi & ->)])]; intros H.
  - by rewrite lookup_empty in H.
  - entry_cases H; try (split; other_stat).
    split; [|other_stat]. intros _ _. eexists. split; [done|]. apply std_not_negative.
  - entry_cases H; try (split; other_stat).
    + split; [other_stat|]. intros _ _. eexists. split; [done|]. lia.
    + split; [|other_stat]. intros _ _. eexists. split; [done|]. apply std_not_negative.
Qed.

(** X8.  In a report of either aggregator, whatever the input, a deviation
    is a float that is not below zero (it may be NaN), and a count is an
    integer that is at least one. *)
Theorem X8_deviation_and_count d r key :
  compute_reward_metrics d = Ok r ∨ compute_reward_metrics_standalone d = Ok r →
  (∀ v, stat_of r key "std" = Some v → ∃ x, v = MFloat x ∧ (x <? 0)%float = false) ∧
  (∀ v, stat_of r key "count" = Some v → ∃ n, v = MInt n ∧ (1 ≤ n)%Z).
Proof.
  intros Hr.
  assert (∀ k x, r !! k = Some x → well_formed_entry k x) as H.
  { intros k x. destruct Hr as [Hr|Hr].
    - apply (returning_entries loop_body loop_body_local well_formed_entry d r k x);
        [apply loop_body_entries|done].
    - rewrite standalone_unfold in Hr.
      apply (returning_entries loop_body_standalone loop_body_standalone_local
               well_formed_entry d r k x); [apply loop_body_standalone_entries|done]. }
  split; intros v Hv; apply H in Hv as [H1 H2]; eauto.
Qed.

(** X8, at an instance: the deviation of [length_score]. *)
Lemma X8_witness :
  ∃ r, compute_reward_metrics_standalone length_score = Ok r ∧
    ∀ v, stat_of r "length_score" "std" = Some v →
      ∃ x, v = MFloat x ∧ (x <? 0)%float = false.
Proof.
  destruct (standalone_total_floats length_score) as [r E].
  { repeat constructor. by eexists. }
  exists r. split; [done|].
  exact (proj1 (X8_deviation_and_count length_score r "length_score" (or_intror E))).
Defined.

(** ** Small integers convert exactly *)

Lemma digits2_pos_bounds p :
  (2 ^ (Z.pos (digits2_pos p) - 1) ≤ Z.pos p < 2 ^ Z.pos (digits2_pos p))%Z.
Proof.
  induction p as [p IH|p IH|]; simpl digits2_pos; [| |done].
  - rewrite Pos2Z.inj_succ.
    replace (Z.succ (Z.pos (digits2_pos p)) - 1)%Z with (Z.succ (Z.pos (digits2_pos p) - 1))%Z
      by lia.
    rewrite !Z.pow_succ_r by lia. lia.
  - rewrite Pos2Z.inj_succ.
    replace (Z.succ (Z.pos (digits2_pos p)) - 1)%Z with (Z.succ (Z.pos (digits2_pos p) - 1))%Z
      by lia.
    rewrite !Z.pow_succ_r by lia. lia.
Qed.

Lemma digits2_pos_small p : (Z.pos p < 2 ^ 53)%Z → (Z.pos (digits2_pos p) ≤ 53)%Z.
Proof.
  intros Hp. destruct (digits2_pos_bounds p) as [Hlo _].
  destruct (Z.le_gt_cases (Z.pos (digits2_pos p)) 53) as [|Hgt]; [done|].
  assert (2 ^ 53 ≤ 2 ^ (Z.pos (digits2_pos p) - 1))%Z by (apply Z.pow_le_mono_r; lia).
  lia.
Qed.

Lemma digits2_pos_iter p k :
  digits2_pos (Pos.iter xO p k) = (digits2_pos p + k)%positive.
Proof.
  induction k as [|k IH] using Pos.peano_ind.
  - simpl. lia.
  - rewrite Pos.iter_succ. simpl. rewrite IH. lia.
Qed.

Lemma binary_normalize_small p :
  (Z.pos p < 2 ^ 53)%Z →
  ∃ m e, binary_normalize prec emax (Z.pos p) 0 false = S754_finite false m e ∧
         bounded prec emax m e = true.
Proof.
  intros Hp. apply digits2_pos_small in Hp.
  unfold binary_normalize, binary_round, shl_align, fexp, SpecFloat.emin, prec, emax.
  set (d := digits2_pos p) in *.
  replace ((Z.pos d + 0 - 53) `max` (3 - 1024 - 53) - 0)%Z with (Z.pos d - 53)%Z by lia.
  destruct (Z.pos d - 53)%Z as [|q|q] eqn:E; [|lia|].
  - exists p, 0%Z.
    assert (bounded prec emax p 0 = true) as Hb.
    { unfold bounded, canonical_mantissa, fexp, SpecFloat.emin, prec, emax.
      fold d. apply andb_true_iff. split; [apply Z.eqb_eq; lia|done]. }
    split; [|done]. by apply binary_round_aux_canonical.
  - exists (Pos.iter xO p q), ((Z.pos d + 0 - 53) `max` (3 - 1024 - 53))%Z.
    assert (bounded prec emax (Pos.iter xO p q)
              ((Z.pos d + 0 - 53) `max` (3 - 1024 - 53)) = true) as Hb.
    { unfold bounded, canonical_mantissa, fexp, SpecFloat.emin, prec, emax.
      rewrite digits2_pos_iter. fold d.
      apply andb_true_iff. split; [apply Z.eqb_eq; lia|apply Z.leb_le; lia]. }
    split; [|done]. by apply binary_round_aux_canonical.
Qed.

Lemma Z2float_small n :
  (0 ≤ n < 2 ^ 53)%Z → is_infinity (Z2float n) = false.
Proof.
  intros [H0 Hn]. rewrite is_infinity_spec. unfold Z2float.
  destruct n as [|p|p]; [done| |lia].
  destruct (binary_normalize_small p Hn) as (m & e & -> & Hb).
  by rewrite Prim2SF_SF2Prim.
Qed.

(** ** Dictionaries given by their items *)

Lemma get_None {A} key (d : list (string * A)) : get key d = None ↔ key ∉ d.*1.
Proof.
  induction d as [|[k v] d IH]; simpl.
  - split; [intros _; apply not_elem_of_nil|done].
  - rewrite not_elem_of_cons. case_bool_decide as E; [subst|]; split; try done.
    + by intros [? _].
    + intros H. split; [done|]. by apply IH.
    + intros [_ H]. by apply IH.
Qed.

Lemma get_Some {A} key (d : list (string * A)) v :
  NoDup d.*1 → get key d = Some v ↔ (key, v) ∈ d.
Proof.
  induction d as [|[k w] d IH]; simpl; intros Hnd.
  - split; [done|]. intros H. by apply elem_of_nil in H.
  - apply NoDup_cons in Hnd as [Hk Hnd]. rewrite elem_of_cons.
    case_bool_decide as E; [subst|].
    + split; [intros [= ->]; by left|].
      intros [[= ->]|Hin]; [done|]. destruct Hk.
      apply list_elem_of_fmap. by exists (key, v).
    + rewrite IH by done. split; [by right|]. intros [[= -> ->]|]; done.
Qed.

(** ** Appending to the series of a key *)

Lemma append_item_keys key value info :
  (append_item key value info).*1 =
    if bool_decide (key ∈ info.*1) then info.*1 else info.*1 ++ [key].
Proof.
  induction info as [|[k vs] info IH]; [reflexivity|].
  cbn [append_item]. rewrite fmap_cons. cbn [fst].
  destruct (decide (k = key)) as [->|Hne].
  - rewrite !bool_decide_eq_true_2; [done|apply elem_of_cons; by left|done].
  - rewrite (bool_decide_eq_false_2 (k = key)) by done.
    rewrite fmap_cons, IH. cbn [fst].
    destruct (decide (key ∈ info.*1)) as [Hin|Hin].
    + rewrite !bool_decide_eq_true_2; [done|apply elem_of_cons; by right|done].
    + rewrite !bool_decide_eq_false_2; [done| |done].
      rewrite not_elem_of_cons. split; [congruence|done].
Qed.

Lemma append_item_NoDup key value info :
  NoDup info.*1 → NoDup (append_item key value info).*1.
Proof.
  intros H. rewrite append_item_keys. case_bool_decide as E; [done|].
  apply NoDup_app. split; [done|]. split; [|apply NoDup_singleton].
  intros x Hx Hx'. apply list_elem_of_singleton in Hx'. by subst.
Qed.

Lemma get_append_item key value info k :
  get k (append_item key value info) =
    if bool_decide (k = key) then Some (default [] (get key info) ++ [value])
    else get k info.
Proof.
  induction info as [|[k0 vs] info IH]; cbn [append_item get].
  - destruct (decide (k = key)) as [->|Hne].
    + by rewrite !bool_decide_eq_true_2.
    + rewrite !bool_decide_eq_false_2; [done|done|congruence].
  - destruct (decide (k0 = key)) as [->|Hne0].
    + rewrite !(bool_decide_eq_true_2 (key = key)) by done. cbn [get].
      destruct (decide (k = key)) as [->|Hne].
      * by rewrite !bool_decide_eq_true_2.
      * rewrite !bool_decide_eq_false_2; [done|done|congruence].
    + rewrite !(bool_decide_eq_false_2 (k0 = key)) by done. cbn [get]. rewrite IH.
      destruct (decide (k = key)) as [->|Hne].
      * rewrite (bool_decide_eq_false_2 (k0 = key)) by done.
        by rewrite bool_decide_eq_true_2.
      * rewrite (bool_decide_eq_false_2 (k = key)) by done. done.
Qed.

Lemma append_item_values (P : pyval → Prop) key value info :
  P value → Forall (λ kv, Forall P kv.2) info →
  Forall (λ kv, Forall P kv.2) (append_item key value info).
Proof.
  intros Hv. induction 1 as [|[k vs] info Hk Hinfo IH]; cbn [append_item].
  - by repeat constructor.
  - destruct (bool_decide (k = key)); constructor; try done.
    cbn [snd] in *. apply Forall_app. split; [done|]. by constructor.
Qed.

(** ** Collecting one result *)

Lemma collect_cons info k v r :
  collect info ((k, v) :: r) =
    collect (if bool_decide (k ≠ "score") then append_item k v info else info) r.
Proof. reflexivity. Qed.

Lemma collect_NoDup info r : NoDup info.*1 → NoDup (collect info r).*1.
Proof.
  revert info. induction r as [|[k v] r IH]; intros info H; [done|].
  rewrite collect_cons. apply IH. case_bool_decide; [|done].
  by apply append_item_NoDup.
Qed.

Lemma collect_values (P : pyval → Prop) info r :
  Forall (λ kv, P kv.2) r → Forall (λ kv, Forall P kv.2) info →
  Forall (λ kv, Forall P kv.2) (collect info r).
Proof.
  intros Hr. revert info. induction Hr as [|[k v] r Hv _ IH]; intros info H; [done|].
  rewrite collect_cons. apply IH. case_bool_decide; [|done].
  by apply append_item_values.
Qed.

Lemma get_collect info r k :
  NoDup r.*1 →
  get k (collect info r) =
    match (if bool_decide (k = "score") then None else get k r) with
    | Some v => Some (default [] (get k info) ++ [v])
    | None => get k info
    end.
Proof.
  revert info. induction r as [|[k0 v0] r IH]; intros info Hnd.
  - simpl. by destruct (bool_decide (k = "score")).
  - rewrite fmap_cons in Hnd. apply NoDup_cons in Hnd as [Hk0 Hnd].
    rewrite collect_cons, IH by done. cbn [get].
    destruct (decide (k = "score")) as [->|Hs].
    + rewrite !(bool_decide_eq_true_2 ("score" = "score")) by done.
      destruct (decide (k0 = "score")) as [->|H0].
      * by rewrite bool_decide_eq_false_2 by (intros H; by apply H).
      * rewrite (bool_decide_eq_true_2 (k0 ≠ "score")) by done.
        rewrite get_append_item. by rewrite bool_decide_eq_false_2 by congruence.
    + rewrite !(bool_decide_eq_false_2 (k = "score")) by done.
      destruct (decide (k0 = k)) as [->|H0].
      * cbn [fst] in Hk0. apply get_None in Hk0. rewrite Hk0.
        rewrite (bool_decide_eq_true_2 (k = k)) by done.
        rewrite (bool_decide_eq_true_2 (k ≠ "score")) by done.
        rewrite get_append_item. by rewrite bool_decide_eq_true_2.
      * rewrite (bool_decide_eq_false_2 (k0 = k)) by done.
        destruct (decide (k0 = "score")) as [->|H1].
        -- by rewrite bool_decide_eq_false_2 by (intros H; by apply H).
        -- rewrite (bool_decide_eq_true_2 (k0 ≠ "score")) by done.
           rewrite get_append_item. by rewrite bool_decide_eq_false_2 by congruence.
Qed.

(** ** Collecting the results of all samples *)

Lemma collect_all_NoDup info results :
  NoDup info.*1 → NoDup (foldl collect info results).*1.
Proof.
  revert info. induction results as [|r rs IH]; intros info H; [done|].
  simpl. by apply IH, collect_NoDup.
Qed.

Lemma collect_all_values (P : pyval → Prop) info results :
  Forall (Forall (λ kv, P kv.2)) results → Forall (λ kv, Forall P kv.2) info →
  Forall (λ kv, Forall P kv.2) (foldl collect info results).
Proof.
  intros Hr. revert info. induction Hr as [|r rs Hv _ IH]; intros info H; [done|].
  simpl. by apply IH, collect_values.
Qed.

Lemma get_collect_all info results k :
  Forall (λ r, NoDup r.*1) results → k ≠ "score" →
  get k (foldl collect info results) =
    match get k info, omap (get k) results with
    | None, [] => None
    | series, values => Some (default [] series ++ values)
    end.
Proof.
  intros Hr Hk. revert info. induction Hr as [|r rs Hnd _ IH]; intros info.
  - simpl. destruct (get k info); simpl; [by rewrite app_nil_r|done].
  - simpl foldl. rewrite IH, get_collect by done.
    rewrite bool_decide_eq_false_2 by done. simpl omap.
    destruct (get k r) as [v|]; simpl.
    + destruct (get k info) as [vs|]; simpl; by rewrite <- ?app_assoc.
    + done.
Qed.

Lemma get_collect_all_score info results :
  get "score" info = None → get "score" (foldl collect info results) = None.
Proof.
  revert info. induction results as [|r rs IH]; intros info H; [done|].
  simpl. apply IH. clear IH. revert info H.
  induction r as [|[k v] r IH]; intros info H; [done|].
  rewrite collect_cons. apply IH.
  destruct (decide (k = "score")) as [->|E].
  - by rewrite bool_decide_eq_false_2 by (intros H'; by apply H').
  - rewrite bool_decide_eq_true_2 by done.
    rewrite get_append_item. by rewrite bool_decide_eq_false_2 by congruence.
Qed.

(** ** The reward function *)

Lemma custom_reward_empty c :
  solution_str c = EmptyString → custom_reward_with_subrewards c = Raise TypeError.
Proof.
  intros H. unfold custom_reward_with_subrewards. cbv zeta.
  unfold py_and. rewrite (bool_decide_eq_true_2 (solution_str c = EmptyString)) by done.
  reflexivity.
Qed.

Lemma custom_reward_nonempty c :
  solution_str c ≠ EmptyString →
  ∃ score length_score relevance_score safety_score grammar_score
    has_punctuation starts_capital,
    custom_reward_with_subrewards c =
      Ok [("score", PyFloat score);
          ("length_score", PyFloat length_score);
          ("relevance_score", PyFloat relevance_score);
          ("safety_score", PyFloat safety_score);
          ("grammar_score", PyFloat grammar_score);
          ("word_count", PyInt (Z.of_nat (length (split (solution_str c)))));
          ("has_punctuation", PyInt (Z.b2z has_punctuation));
          ("starts_capital", PyInt (Z.b2z starts_capital))].
Proof.
  intros H. unfold custom_reward_with_subrewards. cbv zeta.
  unfold py_and. rewrite !(bool_decide_eq_false_2 (solution_str c = EmptyString)) by done.
  cbn [float_mul py_int mbind result_bind]. by eexists _, _, _, _, _, _, _.
Qed.

(** X10.  [custom_reward_with_subrewards] raises on the empty response and
    on no other: there [solution_str and solution_str[0].isupper()] is the
    empty string itself, which line 77 multiplies by a float
    ([TypeError]).  On every other response it returns a dictionary whose
    keys are "score" and the seven sub-rewards, in this order, with the
    number of words of the response under "word_count". *)
Theorem X10_empty_response_raises c :
  match custom_reward_with_subrewards c with
  | Raise e => solution_str c = EmptyString ∧ e = TypeError
  | Ok result =>
      solution_str c ≠ EmptyString ∧
      result.*1 = "score" :: sub_rewards ∧
      get "word_count" result = Some (PyInt (Z.of_nat (length (split (solution_str c)))))
  end.
Proof.
  destruct (decide (solution_str c = EmptyString)) as [H|H].
  - by rewrite custom_reward_empty.
  - destruct (custom_reward_nonempty c H) as (? & ? & ? & ? & ? & ? & ? & ->). done.
Qed.

(** ** The loop over the test cases *)

Lemma collect_cases_app cases1 cases2 info :
  collect_cases (cases1 ++ cases2) info =
    collect_cases cases1 info ≫= collect_cases cases2.
Proof.
  revert info. induction cases1 as [|c cases1 IH]; intros info; [done|].
  simpl. cbv [mbind result_bind].
  destruct (custom_reward_with_subrewards c); [apply IH|done].
Qed.

Lemma collect_cases_raise cases info e :
  collect_cases cases info = Raise e →
  e = TypeError ∧ ∃ c, c ∈ cases ∧ solution_str c = EmptyString.
Proof.
  revert info. induction cases as [|c cases IH]; intros info; [done|].
  simpl. cbv [mbind result_bind].
  pose proof (Hempty := custom_reward_empty c).
  destruct (decide (solution_str c = EmptyString)) as [H|H].
  - rewrite Hempty by done. intros [= <-]. split; [done|]. exists c.
    split; [apply elem_of_cons; by left|done].
  - destruct (custom_reward_nonempty c H) as (? & ? & ? & ? & ? & ? & ? & ->).
    intros Hr. destruct (IH _ Hr) as (-> & c' & Hin & Hc'). split; [done|].
    exists c'. split; [apply elem_of_cons; by right|done].
Qed.

Lemma collect_cases_empty_response cases info c :
  c ∈ cases → solution_str c = EmptyString →
  collect_cases cases info = Raise TypeError.
Proof.
  intros Hin Hc.
  destruct (collect_cases cases info) as [info'|e] eqn:E.
  - exfalso. revert info E. induction cases as [|c' cases IH]; intros info.
    + by apply elem_of_nil in Hin.
    + simpl. cbv [mbind result_bind].
      apply elem_of_cons in Hin as [<-|Hin].
      * by rewrite custom_reward_empty.
      * destruct (custom_reward_with_subrewards c'); [by apply IH|done].
  - by apply collect_cases_raise in E as [-> _].
Qed.

Lemma collect_cases_Ok cases info :
  Forall (λ c, solution_str c ≠ EmptyString) cases →
  ∃ results,
    Forall2 (λ c r, custom_reward_with_subrewards c = Ok r) cases results ∧
    collect_cases cases info = Ok (foldl collect info results).
Proof.
  intros H. revert info. induction H as [|c cases Hc _ IH]; intros info.
  - exists []. split; [constructor|done].
  - destruct (custom_reward_nonempty c Hc) as (? & ? & ? & ? & ? & ? & ? & E).
    simpl. rewrite E. cbv [mbind result_bind].
    match goal with
    | |- context [collect_cases cases ?i] => destruct (IH i) as (results & HF & ->)
    end.
    eexists (_ :: results). split; [by constructor|done].
Qed.

(** X11.  One empty response loses every result: the loop of
    [test_reward_function] over a list of test cases raises [TypeError]
    exactly when some case has an empty response, and it raises nothing
    else. *)
Theorem X11_an_empty_response_loses_all cases :
  (test_reward_function_on cases = Raise TypeError ↔
   ∃ c, c ∈ cases ∧ solution_str c = EmptyString) ∧
  (∀ e, test_reward_function_on cases = Raise e → e = TypeError).
Proof.
  unfold test_reward_function_on. cbv [mbind result_bind]. split; [split|].
  - destruct (collect_cases cases []) as [info|e] eqn:E; [done|].
    intros _. by apply collect_cases_raise in E as [_ ?].
  - intros (c & Hin & Hc). by rewrite (collect_cases_empty_response cases [] c).
  - intros e. destruct (collect_cases cases []) as [info|e'] eqn:E; [done|].
    intros [= <-]. by apply collect_cases_raise in E as [-> _].
Qed.

(** ** The sub-rewards are numbers *)

Lemma split_from_length word s :
  (length (split_from word s) ≤
     String.length s + (if bool_decide (word = EmptyString) then 0 else 1))%nat.
Proof.
  revert word. induction s as [|c s IH]; intros word; simpl.
  - destruct (bool_decide (word = EmptyString)); simpl; lia.
  - destruct (isspace c).
    + specialize (IH EmptyString). rewrite bool_decide_eq_true_2 in IH by done.
      destruct (bool_decide (word = EmptyString)); simpl; lia.
    + specialize (IH (word +:+ String c EmptyString)).
      destruct (bool_decide (word +:+ String c EmptyString = EmptyString));
        destruct (bool_decide (word = EmptyString)); lia.
Qed.

Lemma split_length s : (length (split s) ≤ String.length s)%nat.
Proof.
  unfold split. pose proof (split_from_length EmptyString s) as H.
  rewrite bool_decide_eq_true_2 in H by done. lia.
Qed.

Lemma custom_reward_small c r :
  (Z.of_nat (String.length (solution_str c)) < 2 ^ 53)%Z →
  custom_reward_with_subrewards c = Ok r →
  r.*1 = "score" :: sub_rewards ∧ Forall (λ kv, small_number kv.2) r.
Proof.
  intros Hlen Hr.
  destruct (decide (solution_str c = EmptyString)) as [H|H];
    [by rewrite custom_reward_empty in Hr|].
  destruct (custom_reward_nonempty c H) as (? & ? & ? & ? & ? & hp & sc & E).
  rewrite E in Hr. injection Hr as <-. split; [done|].
  pose proof (split_length (solution_str c)).
  repeat apply Forall_cons_2; try apply Forall_nil_2; simpl; try done.
  - lia.
  - by destruct hp.
  - by destruct sc.
Qed.

(** ** Results that hold the same keys *)

Lemma collect_keys info r :
  (∀ k, k ∈ r.*1 → k ≠ "score" → k ∈ info.*1) → (collect info r).*1 = info.*1.
Proof.
  revert info. induction r as [|[k v] r IH]; intros info H; [done|].
  rewrite collect_cons.
  assert (∀ k0, k0 ∈ r.*1 → k0 ≠ "score" → k0 ∈ info.*1) as Hr.
  { intros k0 Hk0. apply H. rewrite fmap_cons. apply elem_of_cons. by right. }
  destruct (decide (k = "score")) as [->|Hk].
  - rewrite bool_decide_eq_false_2 by (intros H'; by apply H'). by apply IH.
  - rewrite bool_decide_eq_true_2 by done.
    assert (k ∈ info.*1) as Hin.
    { apply H; [|done]. rewrite fmap_cons. apply elem_of_cons. by left. }
    assert ((append_item k v info).*1 = info.*1) as Hkeys.
    { rewrite append_item_keys. by rewrite bool_decide_eq_true_2. }
    rewrite IH; [done|]. by rewrite Hkeys.
Qed.

Lemma collect_first r :
  r.*1 = "score" :: sub_rewards → (collect [] r).*1 = sub_rewards.
Proof.
  intros H.
  do 8 (destruct r as [|[? ?] r]; [discriminate H|]).
  destruct r; [|discriminate H].
  simpl in H. unfold sub_rewards in H. simplify_eq. reflexivity.
Qed.

Lemma collect_all_keys info results :
  info.*1 = sub_rewards →
  Forall (λ r, r.*1 = "score" :: sub_rewards) results →
  (foldl collect info results).*1 = sub_rewards.
Proof.
  intros Hi Hr. revert info Hi. induction Hr as [|r rs Hk _ IH]; intros info Hi; [done|].
  simpl. apply IH. rewrite collect_keys; [done|].
  intros k Hin Hs. rewrite Hk in Hin. apply elem_of_cons in Hin as [->|Hin]; [done|].
  by rewrite Hi.
Qed.

Lemma omap_get_length {A} key (results : list (list (string * A))) :
  Forall (λ r, key ∈ r.*1) results →
  length (omap (get key) results) = length results.
Proof.
  induction 1 as [|r rs Hk _ IH]; [done|]. cbn [omap list_omap].
  destruct (get key r) eqn:E; [cbn [length]; by rewrite <- IH|].
  by apply get_None in E.
Qed.

(** ** Series of numbers in the standalone aggregator *)

Lemma small_number_scalar vs :
  Forall small_number vs → Forall (λ v, is_scalar v = true) vs.
Proof. intros H. eapply Forall_impl; [done|]. by intros []. Qed.

Lemma loop_body_standalone_small key vs metrics :
  Forall small_number vs →
  loop_body_standalone key (PySeq vs) metrics =
    (emit_floats_standalone key (map np.as_float vs) metrics, Ok tt).
Proof.
  intros Hvs.
  unfold loop_body_standalone, try_except, try_body_standalone.
  cbv [mbind block_bind mret block_ret eval continue setitem to_float_array].
  unfold np.array_float.
  rewrite asarrays_scalars by by apply small_number_scalar.
  cbn [mbind result_bind].
  rewrite shape_scalars, leaves_scalars by by apply small_number_scalar.
  rewrite (mapM_Ok _ np.as_float).
  - cbn [mbind result_bind np.len]. destruct vs as [|v vs]; [done|].
    cbn [map length Nat.ltb Nat.leb np.min np.max emit_floats_standalone].
    by rewrite length_map.
  - intros v Hv. rewrite Forall_forall in Hvs. specialize (Hvs v Hv).
    destruct v as [x|n| | | | |]; try done. simpl.
    by rewrite Z2float_small.
Qed.

Lemma NoDup_score_sub_rewards : NoDup ("score" :: sub_rewards).
Proof. apply (bool_decide_unpack _). vm_compute. reflexivity. Qed.

Lemma custom_reward_keys c r :
  custom_reward_with_subrewards c = Ok r → r.*1 = "score" :: sub_rewards.
Proof.
  intros Hr.
  destruct (decide (solution_str c = EmptyString)) as [H|H];
    [by rewrite custom_reward_empty in Hr|].
  destruct (custom_reward_nonempty c H) as (? & ? & ? & ? & ? & ? & ? & E).
  rewrite E in Hr. by injection Hr as <-.
Qed.

Lemma get_dict_of key info : get key (dict_of info) = PySeq <$> get key info.
Proof.
  induction info as [|[k vs] info IH]; [done|]. simpl.
  case_bool_decide; [done|apply IH].
Qed.

Lemma omap_get_results key cases results :
  key ∈ sub_rewards →
  Forall2 (λ c r, custom_reward_with_subrewards c = Ok r) cases results →
  Forall2 (λ c value, ∃ result, custom_reward_with_subrewards c = Ok result ∧
                        get key result = Some value)
          cases (omap (get key) results).
Proof.
  intros Hkey. induction 1 as [|c r cases results Hr _ IH]; [constructor|].
  cbn [omap list_omap].
  destruct (get key r) as [v|] eqn:E.
  - constructor; [by exists r|done].
  - apply get_None in E. exfalso. apply E.
    rewrite (custom_reward_keys c r Hr). apply elem_of_cons. by right.
Qed.

(** X9.  The series follow the samples.  For test cases without an empty
    response [test_reward_function] returns a mapping that holds nothing
    under "score" and, when there is a test case, under each of the seven
    sub-rewards the series of the values that [custom_reward_with_subrewards]
    returns under this name for the test cases, one for each test case and
    in their order. *)
Theorem X9_series_follow_the_samples cases :
  Forall (λ c, solution_str c ≠ EmptyString) cases →
  ∃ reward_extra_info,
    test_reward_function_on cases = Ok reward_extra_info ∧
    get "score" reward_extra_info = None ∧
    ∀ key, key ∈ sub_rewards → cases ≠ [] →
      ∃ values,
        get key reward_extra_info = Some (PySeq values) ∧
        Forall2 (λ c value, ∃ result, custom_reward_with_subrewards c = Ok result ∧
                              get key result = Some value)
                cases values.
Proof.
  intros Hcases.
  destruct (collect_cases_Ok cases [] Hcases) as (results & HF & Hinfo).
  exists (dict_of (foldl collect [] results)).
  split; [unfold test_reward_function_on; by rewrite Hinfo|].
  split; [rewrite get_dict_of; by rewrite get_collect_all_score|].
  intros key Hkey Hne. exists (omap (get key) results).
  split; [|by apply omap_get_results].
  assert (key ≠ "score") as Hs.
  { intros ->. by apply (NoDup_cons_1_1 "score" sub_rewards NoDup_score_sub_rewards). }
  rewrite get_dict_of, get_collect_all; [| |done].
  - simpl. destruct (omap (get key) results) eqn:E; [|done].
    pose proof (omap_get_results key cases results Hkey HF) as H2.
    rewrite E in H2. apply Forall2_length in H2. by destruct cases.
  - clear Hinfo Hcases Hne. induction HF as [|c r cs rs Hr _ IH]; [done|].
    constructor; [|done].
    rewrite (custom_reward_keys c r Hr). apply NoDup_score_sub_rewards.
Qed.

(** X9, at an instance: the word counts of the four test cases of
    [test_reward_function]. *)
Lemma X9_witness :
  ∃ reward_extra_info,
    test_reward_function = Ok reward_extra_info ∧
    get "word_count" reward_extra_info
      = Some (PySeq [PyInt 12; PyInt 5; PyInt 5; PyInt 7]).
Proof.
  destruct (X9_series_follow_the_samples test_cases)
    as (info & E & _ & H).
  { repeat apply Forall_cons_2; try apply Forall_nil_2; done. }
  exists info. split; [done|].
  destruct (H "word_count") as (values & -> & HF).
  - unfold sub_rewards. rewrite !elem_of_cons. auto 10.
  - done.
  - do 2 f_equal. clear H E. unfold test_cases in HF.
    repeat match goal with
    | F : Forall2 _ (_ :: _) _ |- _ =>
        apply Forall2_cons_inv_l in F as (? & ? & (? & Hr & Hg) & F & ->);
        vm_compute in Hr; injection Hr as <-; vm_compute in Hg; injection Hg as <-
    | F : Forall2 _ [] _ |- _ => apply Forall2_nil_inv_l in F as ->
    end.
    reflexivity.
Defined.

(** X12.  Every sample is counted.  For a list of test cases that is not
    empty, with responses that are neither empty nor of [2 ^ 53] characters
    or more, [test_reward_function] returns a mapping whose names are the
    seven sub-rewards, in the order of the [return] statement, and on this
    mapping [compute_reward_metrics_standalone] returns a report in which
    the count of every sub-reward is the number of test cases and which
    holds no entry for the main score. *)
Theorem X12_every_sample_is_counted cases :
  cases ≠ [] →
  Forall (λ c, solution_str c ≠ EmptyString ∧
               (Z.of_nat (String.length (solution_str c)) < 2 ^ 53)%Z) cases →
  ∃ reward_extra_info metrics,
    test_reward_function_on cases = Ok reward_extra_info ∧
    reward_extra_info.*1 = sub_rewards ∧
    compute_reward_metrics_standalone reward_extra_info = Ok metrics ∧
    (∀ key, key ∈ sub_rewards →
       stat_of metrics key "count" = Some (MInt (Z.of_nat (length cases)))) ∧
    (∀ stat, no_slash stat = true → stat_of metrics "score" stat = None).
Proof.
  intros Hne Hcases.
  destruct (collect_cases_Ok cases []) as (results & HF & Hinfo).
  { eapply Forall_impl; [done|]. by intros c [? _]. }
  assert (Forall (λ r, r.*1 = "score" :: sub_rewards ∧
                       Forall (λ kv, small_number kv.2) r) results) as Hres.
  { clear Hinfo Hne. induction HF as [|c r cases results Hr _ IH]; [done|].
    apply Forall_cons in Hcases as [[_ Hlen] Hcases].
    constructor; [by apply (custom_reward_small c)|by apply IH]. }
  assert (length results = length cases) as Hlen by (symmetry; by eapply Forall2_length).
  set (info := foldl collect [] results) in *.
  assert (info.*1 = sub_rewards) as Hkeys.
  { subst info. destruct results as [|r rs]; [by destruct cases|].
    apply Forall_cons in Hres as [[Hr _] Hrs]. simpl.
    apply collect_all_keys; [by apply collect_first|].
    eapply Forall_impl; [done|]. by intros ? [? _]. }
  assert (Forall (λ kv, Forall small_number kv.2) info) as Hvals.
  { apply collect_all_values; [|done].
    eapply Forall_impl; [done|]. by intros ? [_ ?]. }
  assert ((dict_of info).*1 = sub_rewards) as Hdkeys.
  { rewrite <- Hkeys. unfold dict_of. rewrite <- list_fmap_compose.
    apply list_fmap_ext. by intros ? [? ?]. }
  assert (NoDup (dict_of info).*1) as Hnd.
  { rewrite Hdkeys. by apply (NoDup_cons_1_2 "score"), NoDup_score_sub_rewards. }
  assert (∃ metrics, compute_reward_metrics_standalone (dict_of info) = Ok metrics)
    as [metrics Hm].
  { rewrite standalone_unfold. apply returning_total, for_items_ok.
    intros k v m Hin. apply list_elem_of_fmap in Hin as ([k' vs] & [= -> ->] & Hin).
    rewrite Forall_forall in Hvals. specialize (Hvals _ Hin).
    by rewrite loop_body_standalone_small. }
  exists (dict_of info), metrics.
  split; [unfold test_reward_function_on; by rewrite Hinfo|].
  split; [done|]. split; [done|]. split.
  - intros key Hkey.
    assert (key ≠ "score") as Hs.
    { intros ->. by apply (NoDup_cons_1_1 "score" sub_rewards NoDup_score_sub_rewards). }
    assert (get key info = Some (omap (get key) results) ∧
            length (omap (get key) results) = length cases) as [Hget Hl].
    { assert (length (omap (get key) results) = length cases) as Hl.
      { rewrite <- Hlen. apply omap_get_length.
        eapply Forall_impl; [done|]. intros r [-> _]. apply elem_of_cons. by right. }
      split; [|done]. subst info. rewrite get_collect_all; [|  |done].
      - simpl. destruct (omap (get key) results); [|done].
        destruct cases; [done|discriminate Hl].
      - eapply Forall_impl; [done|]. intros r [-> _]. apply NoDup_score_sub_rewards. }
    assert (NoDup info.*1) as Hndi by (rewrite Hkeys, <- Hdkeys; done).
    apply get_Some in Hget; [|done].
    assert ((key, PySeq (omap (get key) results)) ∈ dict_of info) as Hin.
    { apply list_elem_of_fmap. by exists (key, omap (get key) results). }
    rewrite standalone_unfold in Hm.
    rewrite (returning_lookup loop_body_standalone loop_body_standalone_local
               (dict_of info) metrics key _ "count" Hnd Hin eq_refl Hm).
    unfold contribution. rewrite loop_body_standalone_small.
    + rewrite Forall_forall in Hvals. 
      destruct (omap (get key) results) as [|v vs] eqn:E;
        [destruct cases; [done|discriminate Hl]|].
      cbn [map fst].
      destruct (emit_floats_standalone_stats key (np.as_float v) (map np.as_float vs))
        as (_ & _ & _ & _ & Hc).
      unfold stat_of in Hc. rewrite Hc.
      rewrite length_map. simpl in Hl. by rewrite <- Hl.
    + rewrite Forall_forall in Hvals. by apply (Hvals _ Hget).
  - intros stat Hs. rewrite standalone_unfold in Hm.
    apply (returning_absent loop_body_standalone loop_body_standalone_local
             (dict_of info)); [|done..].
    rewrite Hdkeys. apply (NoDup_cons_1_1 "score" sub_rewards NoDup_score_sub_rewards).
Qed.

(** X12, at an instance: [main], on the four test cases of
    [test_reward_function]. *)
Lemma X12_witness :
  ∃ metrics, main = Ok metrics ∧ stat_of metrics "word_count" "count" = Some (MInt 4).
Proof.
  assert (test_cases ≠ []) as H1 by done.
  assert (Forall (λ c, solution_str c ≠ EmptyString ∧
                       (Z.of_nat (String.length (solution_str c)) < 2 ^ 53)%Z) test_cases)
    as H2.
  { repeat apply Forall_cons_2; try apply Forall_nil_2; (split; [done|simpl; lia]). }
  destruct (X12_every_sample_is_counted test_cases H1 H2)
    as (info & metrics & E1 & _ & E2 & Hc & _).
  exists metrics. split.
  - unfold main, test_reward_function. by rewrite E1.
  - apply (Hc "word_count"). unfold sub_rewards. rewrite !elem_of_cons. auto 10.
Defined.

(** ** Series of integers, and of integers among floats *)

Lemma to_array_scalars v vs :
  is_scalar v = true → to_array (PySeq (v :: vs)) = np.array (v :: vs).
Proof. by destruct v. Qed.

Lemma loop_body_to_array key vs vs' m :
  vs ≠ [] → vs' ≠ [] → to_array (PySeq vs) = to_array (PySeq vs') →
  loop_body key (PySeq vs) m = loop_body key (PySeq vs') m.
Proof.
  intros H H' Ha. unfold loop_body.
  cbv [mbind block_bind mret block_ret eval continue py_not].
  rewrite !bool_decide_eq_false_2 by done.
  unfold try_except. by rewrite (try_body_to_array key _ _ m Ha).
Qed.

Lemma np_array_small vs :
  Forall small_number vs → Exists (λ v, np.is_float v = true) vs →
  np.array vs = Ok (np.Float64 (length vs) (map np.as_float vs)).
Proof.
  intros Hvs Hf. unfold np.array.
  rewrite asarrays_scalars by by apply small_number_scalar.
  cbn [mbind result_bind].
  rewrite shape_scalars, leaves_scalars by by apply small_number_scalar.
  replace (existsb np.is_str_or_object vs) with false.
  - replace (existsb np.is_float vs) with true; [done|].
    symmetry. apply existsb_exists. apply Exists_exists in Hf as (v & Hin & Hv).
    exists v. split; [by apply list_elem_of_In|done].
  - symmetry. apply not_true_is_false. intros H.
    apply existsb_exists in H as (v & Hin & Hv). apply list_elem_of_In in Hin.
    rewrite Forall_forall in Hvs. specialize (Hvs v Hin).
    destruct v as [x|n| | | | |]; try done. simpl in *.
    apply negb_true_iff, andb_false_iff in Hv as [Hv|Hv]; lia.
Qed.

(** X13.  Integers among floats are read as floats.  For a series of
    floats and of integers from 0 below [2 ^ 53],
    [compute_reward_metrics_standalone] returns what it returns for the
    series of their float values, and so does [compute_reward_metrics] when
    at least one element is a float. *)
Theorem X13_integers_among_floats key vs d1 d2 :
  Forall small_number vs →
  compute_reward_metrics_standalone (d1 ++ (key, PySeq vs) :: d2) =
    compute_reward_metrics_standalone (d1 ++ (key, floats (map np.as_float vs)) :: d2) ∧
  (Exists (λ v, np.is_float v = true) vs →
   compute_reward_metrics (d1 ++ (key, PySeq vs) :: d2) =
     compute_reward_metrics (d1 ++ (key, floats (map np.as_float vs)) :: d2)).
Proof.
  intros Hvs. split.
  - rewrite !standalone_unfold. apply returning_congr. intros m.
    by rewrite loop_body_standalone_small, loop_body_standalone_floats.
  - intros Hf. apply returning_congr. intros m.
    assert (vs ≠ []) as Hne by (intros ->; by apply Exists_nil in Hf).
    apply loop_body_to_array; [done|by destruct vs|].
    destruct vs as [|v vs]; [done|].
    rewrite to_array_scalars.
    + rewrite np_array_small by done.
      change (to_array (PySeq (map PyFloat (map np.as_float (v :: vs)))))
        with (np.array (map PyFloat (map np.as_float (v :: vs)))).
      by rewrite np_array_floats, length_map.
    + apply Forall_cons in Hvs as [Hv _]. by destruct v.
Qed.

(** X13, at an instance: an integer and a float. *)
Lemma X13_witness :
  read (compute_reward_metrics ([] ++ [("mixed", PySeq [PyInt 1; PyFloat 0.5])]))
    "mixed" "max" = Emitted (MFloat 1) ∧
  read (compute_reward_metrics_standalone ([] ++ [("mixed", PySeq [PyInt 1; PyFloat 0.5])]))
    "mixed" "count" = Emitted (MInt 2).
Proof.
  assert (Forall small_number [PyInt 1; PyFloat 0.5]) as H.
  { repeat apply Forall_cons_2; try apply Forall_nil_2; simpl; [lia|done]. }
  destruct (X13_integers_among_floats "mixed" [PyInt 1; PyFloat 0.5] [] [] H) as [-> H2].
  rewrite H2 by (apply Exists_cons; right; by apply Exists_cons; left).
  split; vm_compute; reflexivity.
Defined.

Lemma np_array_ints ns :
  ns ≠ [] → Forall (λ n, np.is_int64 (PyInt n) = true) ns →
  np.array (map PyInt ns) = Ok (np.Int64 (length ns) ns).
Proof.
  intros Hne Hns. unfold np.array.
  assert (Forall (λ v, is_scalar v = true) (map PyInt ns)) as Hsc
    by (apply Forall_map; by apply Forall_true).
  rewrite asarrays_scalars by done. cbn [mbind result_bind].
  rewrite shape_scalars, leaves_scalars by done. rewrite length_map.
  assert (existsb np.is_str_or_object (map PyInt ns) = false) as ->.
  { clear -Hns. induction Hns as [|n ns Hn _ IH]; [done|]. simpl in *.
    rewrite IH, orb_false_r. apply andb_true_iff in Hn as [H1 H2].
    apply negb_false_iff, andb_true_iff. split; lia. }
  assert (existsb np.is_float (map PyInt ns) = false) as ->
    by (clear; induction ns; simpl; auto).
  assert (existsb np.is_uint64 (map PyInt ns) = false) as ->.
  { clear -Hns. induction Hns as [|n ns Hn _ IH]; [done|]. simpl in *.
    rewrite IH, orb_false_r. apply andb_true_iff in Hn as [H1 H2].
    apply andb_false_iff. left. lia. }
  assert (existsb np.is_int64 (map PyInt ns) = true) as ->.
  { destruct Hns as [|n ns Hn _]; [done|]. simpl in *. by rewrite Hn. }
  assert (existsb np.is_float32 (map PyInt ns) = false) as ->
    by (clear; induction ns; simpl; auto).
  simpl. do 2 f_equal. clear. induction ns; simpl; congruence.
Qed.

Lemma foldl_Z_max n ns :
  foldl Z.max n ns ∈ n :: ns ∧ ∀ i, i ∈ n :: ns → (i ≤ foldl Z.max n ns)%Z.
Proof.
  revert n. induction ns as [|k ns IH]; intros n; simpl.
  - split; [apply elem_of_cons; by left|].
    intros i Hi. apply list_elem_of_singleton in Hi. lia.
  - destruct (IH (Z.max n k)) as [Hin Hle]. split.
    + apply elem_of_cons in Hin as [Hin|Hin].
      * rewrite Hin. destruct (Z.max_spec n k) as [[_ ->]|[_ ->]];
          rewrite !elem_of_cons; auto.
      * rewrite !elem_of_cons; auto.
    + intros i Hi. rewrite !elem_of_cons in Hi.
      pose proof (Hle (Z.max n k) ltac:(apply elem_of_cons; by left)).
      destruct Hi as [->|[->|Hi]]; [lia|lia|].
      apply Hle. apply elem_of_cons. by right.
Qed.

Lemma foldl_Z_min n ns :
  foldl Z.min n ns ∈ n :: ns ∧ ∀ i, i ∈ n :: ns → (foldl Z.min n ns ≤ i)%Z.
Proof.
  revert n. induction ns as [|k ns IH]; intros n; simpl.
  - split; [apply elem_of_cons; by left|].
    intros i Hi. apply list_elem_of_singleton in Hi. lia.
  - destruct (IH (Z.min n k)) as [Hin Hle]. split.
    + apply elem_of_cons in Hin as [Hin|Hin].
      * rewrite Hin. destruct (Z.min_spec n k) as [[_ ->]|[_ ->]];
          rewrite !elem_of_cons; auto.
      * rewrite !elem_of_cons; auto.
    + intros i Hi. rewrite !elem_of_cons in Hi.
      pose proof (Hle (Z.min n k) ltac:(apply elem_of_cons; by left)).
      destruct Hi as [->|[->|Hi]]; [lia|lia|].
      apply Hle. apply elem_of_cons. by right.
Qed.

Lemma loop_body_ints key n ns metrics :
  Forall (λ n, np.is_int64 (PyInt n) = true) (n :: ns) →
  loop_body key (PySeq (map PyInt (n :: ns))) metrics =
    (let a := np.Int64 (S (length ns)) (n :: ns) in
     let m3 :=
       <[metric_key key "min" := MFloat (Z2float (foldl Z.min n ns))]>
         (<[metric_key key "max" := MFloat (Z2float (foldl Z.max n ns))]>
            (<[metric_key key "mean" := MFloat (np.mean a)]> metrics)) in
     if (1 <? S (length ns))%nat
     then <[metric_key key "std" := MFloat (np.std a)]> m3 else m3, Ok tt).
Proof.
  intros Hns. unfold loop_body.
  cbv [mbind block_bind mret block_ret eval continue py_not].
  rewrite bool_decide_eq_false_2 by done.
  unfold try_except, try_body.
  cbv [mbind block_bind mret block_ret eval continue setitem].
  change (to_array (PySeq (map PyInt (n :: ns)))) with (np.array (map PyInt (n :: ns))).
  rewrite np_array_ints by done.
  cbn [np.issubdtype_number np.len negb orb length Nat.eqb np.take_finite np.max np.min].
  destruct (1 <? S (length ns))%nat; done.
Qed.

(** X14.  For a series of integers that fit 64 signed bits, under a name
    of a mapping with distinct names, [compute_reward_metrics] reports as
    max and min the float values of the greatest and of the least element,
    a mean, and a deviation iff the series has more than one element. *)
Theorem X14_series_of_integers d r key n ns :
  NoDup d.*1 → (key, PySeq (map PyInt (n :: ns))) ∈ d →
  Forall (λ i, - 2 ^ 63 ≤ i < 2 ^ 63)%Z (n :: ns) →
  compute_reward_metrics d = Ok r →
  ∃ hi lo,
    hi ∈ n :: ns ∧ lo ∈ n :: ns ∧ (∀ i, i ∈ n :: ns → lo ≤ i ≤ hi)%Z ∧
    stat_of r key "max" = Some (MFloat (Z2float hi)) ∧
    stat_of r key "min" = Some (MFloat (Z2float lo)) ∧
    is_Some (stat_of r key "mean") ∧
    (is_Some (stat_of r key "std") ↔ ns ≠ []).
Proof.
  intros Hnd Hin Hns Hr.
  assert (Forall (λ n, np.is_int64 (PyInt n) = true) (n :: ns)) as Hns'.
  { eapply Forall_impl; [done|]. intros i Hi. cbv beta in Hi. simpl.
    apply andb_true_iff. split; [apply Z.leb_le|apply Z.ltb_lt]; lia. }
  pose proof (λ stat Hs, returning_lookup loop_body loop_body_local d r key _ stat
                           Hnd Hin Hs Hr) as Hl.
  unfold contribution in Hl. rewrite loop_body_ints in Hl by done.
  destruct (foldl_Z_max n ns) as [Hhi1 Hhi2]. destruct (foldl_Z_min n ns) as [Hlo1 Hlo2].
  exists (foldl Z.max n ns), (foldl Z.min n ns).
  split; [done|]. split; [done|]. split; [intros i Hi; split; auto|].
  rewrite !Hl by done. cbn [fst].
  destruct ns as [|k ns]; cbn [length Nat.ltb Nat.leb];
    (split; [by lookup_stat|]); (split; [by lookup_stat|]); (split; [by lookup_stat|]).
  - split; [lookup_stat; by intros [? ?]|done].
  - split; [done|intros _; by lookup_stat].
Qed.

(** X14, at an instance: four word counts. *)
Lemma X14_witness :
  ∃ r, compute_reward_metrics [("word_count", PySeq (map PyInt [15; 12; 25; 18]%Z))] = Ok r ∧
    ∃ hi lo, hi ∈ [15; 12; 25; 18]%Z ∧ lo ∈ [15; 12; 25; 18]%Z ∧
      stat_of r "word_count" "max" = Some (MFloat (Z2float hi)) ∧
      stat_of r "word_count" "min" = Some (MFloat (Z2float lo)).
Proof.
  destruct (compute_total [("word_count", PySeq (map PyInt [15; 12; 25; 18]%Z))])
    as [r E]; [by repeat constructor|].
  exists r. split; [done|].
  destruct (X14_series_of_integers
              [("word_count", PySeq (map PyInt [15; 12; 25; 18]%Z))]
              r "word_count" 15%Z [12; 25; 18]%Z
              (NoDup_singleton "word_count")
              ltac:(by apply list_elem_of_singleton)
              ltac:(repeat apply Forall_cons_2; try apply Forall_nil_2; lia) E)
    as (hi & lo & H1 & H2 & _ & H3 & H4 & _).
  by exists hi, lo.
Defined.

(** X15.  A series of scalars with an integer outside 64 bits (below
    [- 2 ^ 63] or from [2 ^ 64] on) is passed over by
    [compute_reward_metrics] without a trace: [np.array] gives it the dtype
    [object], which is no number. *)
Theorem X15_wide_integers_are_dropped key vs n d1 d2 :
  Forall (λ v, is_scalar v = true) vs →
  PyInt n ∈ vs → (n < - 2 ^ 63 ∨ 2 ^ 64 ≤ n)%Z →
  compute_reward_metrics (d1 ++ (key, PySeq vs) :: d2) = compute_reward_metrics (d1 ++ d2).
Proof.
  intros Hsc Hin Hn. apply returning_skip. intros m.
  apply loop_body_failed. unfold signal_fails.
  destruct vs as [|v vs]; [done|].
  rewrite to_array_scalars by (by apply Forall_cons in Hsc as [? _]).
  unfold np.array. rewrite asarrays_scalars by done. cbn [mbind result_bind].
  rewrite shape_scalars, leaves_scalars by done.
  replace (existsb np.is_str_or_object (v :: vs)) with true; [done|].
  symmetry. apply existsb_exists. exists (PyInt n).
  split; [by apply list_elem_of_In|]. simpl.
  apply negb_true_iff, andb_false_iff. lia.
Qed.

(** X15, at an instance: the series of [word_count_overflow] beside
    [single_value]. *)
Lemma X15_witness :
  compute_reward_metrics ([] ++ ("word_count", PySeq [PyInt (10 ^ 400)]) :: single_value) =
  compute_reward_metrics ([] ++ single_value).
Proof.
  apply (X15_wide_integers_are_dropped "word_count" [PyInt (10 ^ 400)] (10 ^ 400)).
  - by repeat constructor.
  - by apply list_elem_of_singleton.
  - right. vm_compute. discriminate.
Defined.

(** ** Nested series in the standalone aggregator *)

Lemma shape_floats l : np.shape (floats l) = Some [length l].
Proof.
  unfold floats. rewrite shape_scalars by apply Forall_scalar_floats.
  by rewrite length_map.
Qed.

Lemma leaves_floats l : np.leaves (floats l) = map PyFloat l.
Proof. unfold floats. by rewrite leaves_scalars by apply Forall_scalar_floats. Qed.

Lemma shape_nested l ls :
  np.shape (PySeq (map floats (l :: ls))) =
    if forallb (λ l', bool_decide (length l' = length l)) ls
    then Some [S (length ls); length l] else None.
Proof.
  cbn [np.shape].
  assert (∀ ls, (fix shapes (l : list pyval) : option (list (list nat)) :=
             match l with
             | [] => Some []
             | x :: l' =>
                 match np.shape x, shapes l' with
                 | Some s, Some ss => Some (s :: ss)
                 | _, _ => None
                 end
             end) (map floats ls) = Some (map (λ l, [length l]) ls)) as ->.
  { clear. induction ls as [|l ls IH]; [done|].
    cbn [map]. by rewrite shape_floats, IH. }
  cbn [map length]. rewrite length_map.
  replace (forallb (λ s' : list nat, bool_decide (s' = [length l]))
             (map (λ l0 : list float, [length l0]) ls))
    with (forallb (λ l', bool_decide (length l' = length l)) ls); [done|].
  clear. induction ls as [|l' ls IH]; [done|]. cbn [map forallb]. rewrite IH.
  f_equal. apply bool_decide_ext. split; [by intros ->|by intros [= ->]].
Qed.

Lemma leaves_nested ls : np.leaves (PySeq (map floats ls)) = map PyFloat (concat ls).
Proof.
  cbn [np.leaves]. induction ls as [|l ls IH]; [done|].
  cbn [map concat]. by rewrite leaves_floats, IH, map_app.
Qed.

Lemma mapM_float_of_scalar_floats xs :
  mapM np.float_of_scalar (map PyFloat xs) = Ok xs.
Proof.
  rewrite (mapM_Ok _ np.as_float).
  - f_equal. induction xs; simpl; congruence.
  - intros v Hv. apply list_elem_of_fmap in Hv as (x & -> & _). done.
Qed.

Lemma array_float_nested l ls :
  np.array_float (map floats (l :: ls)) =
    if forallb (λ l', bool_decide (length l' = length l)) ls
    then Ok (np.Float64 (S (length ls)) (concat (l :: ls))) else Raise ValueError.
Proof.
  unfold np.array_float. rewrite asarrays_nested. cbn [mbind result_bind].
  rewrite shape_nested.
  destruct (forallb _ ls); [|done].
  rewrite leaves_nested, mapM_float_of_scalar_floats. cbn [mbind result_bind].
  by rewrite length_map.
Qed.

(** Rows of different lengths make the conversion fail. *)
Lemma loop_body_standalone_ragged key l ls m :
  forallb (λ l', bool_decide (length l' = length l)) ls = false →
  loop_body_standalone key (PySeq (map floats (l :: ls))) m = (m, Ok tt).
Proof.
  intros H. unfold loop_body_standalone, try_except, try_body_standalone.
  cbv [mbind block_bind mret block_ret eval continue to_float_array].
  by rewrite array_float_nested, H.
Qed.

Lemma loop_body_standalone_rows key l ls x xs m :
  forallb (λ l', bool_decide (length l' = length l)) ls = true →
  concat (l :: ls) = x :: xs →
  loop_body_standalone key (PySeq (map floats (l :: ls))) m =
    (let a := np.Float64 (S (length xs)) (x :: xs) in
     <[metric_key key "count" := MInt (Z.of_nat (S (length ls)))]>
       (<[metric_key key "max" := MFloat (foldl np.maximum x xs)]>
          (<[metric_key key "min" := MFloat (foldl np.minimum x xs)]>
             (<[metric_key key "std" := MFloat (np.std a)]>
                (<[metric_key key "mean" := MFloat (np.mean a)]> m)))), Ok tt).
Proof.
  intros H Hc. unfold loop_body_standalone, try_except, try_body_standalone.
  cbv [mbind block_bind mret block_ret eval continue setitem to_float_array].
  rewrite array_float_nested, H, Hc. reflexivity.
Qed.

Lemma concat_rows (l : list float) (ls : list (list float)) :
  Forall (λ l', length l' = length l) ls →
  length (concat (l :: ls)) = (S (length ls) * length l)%nat.
Proof.
  intros H. cbn [concat]. rewrite length_app. simpl. f_equal.
  induction H as [|l' ls Hl _ IH]; [done|].
  cbn [concat]. rewrite length_app, Hl, IH. done.
Qed.

Lemma forallb_same_length (l : list float) (ls : list (list float)) :
  forallb (λ l', bool_decide (length l' = length l)) ls = true ↔
  Forall (λ l', length l' = length l) ls.
Proof.
  rewrite forallb_forall, Forall_forall. split; intros H x Hx.
  - apply list_elem_of_In in Hx. eapply bool_decide_eq_true_1. by apply H.
  - apply list_elem_of_In in Hx. apply bool_decide_eq_true_2. by apply H.
Qed.

(** X16.  [compute_reward_metrics_standalone] counts rows.  For a series
    of lists of floats of one common length that is not zero, under a name
    of a mapping with distinct names, the count it reports is the number of
    lists, while the mean, the deviation, the min and the max are those it
    reports for the flat series of all the elements, whose count is the
    number of elements. *)
Theorem X16_rows_are_counted d r key l ls :
  NoDup d.*1 → (key, PySeq (map floats (l :: ls))) ∈ d →
  l ≠ [] → Forall (λ l', length l' = length l) ls →
  compute_reward_metrics_standalone d = Ok r →
  stat_of r key "count" = Some (MInt (Z.of_nat (S (length ls)))) ∧
  ∃ r', compute_reward_metrics_standalone [(key, floats (concat (l :: ls)))] = Ok r' ∧
    stat_of r' key "count" = Some (MInt (Z.of_nat (S (length ls) * length l))) ∧
    ∀ stat, stat ∈ ["mean"; "std"; "min"; "max"] → stat_of r key stat = stat_of r' key stat.
Proof.
  intros Hnd Hin Hl Hls Hr.
  destruct (concat (l :: ls)) as [|x xs] eqn:Hc; [by destruct l|].
  pose proof (concat_rows l ls Hls) as Hlen. rewrite Hc in Hlen.
  rewrite standalone_unfold in Hr.
  pose proof (λ stat Hs, returning_lookup loop_body_standalone loop_body_standalone_local
                           d r key _ stat Hnd Hin Hs Hr) as H1.
  unfold contribution in H1.
  rewrite (loop_body_standalone_rows key l ls x xs) in H1
    by (done || by apply forallb_same_length).
  cbv zeta in H1. cbn [fst] in H1.
  split; [rewrite H1 by done; by lookup_stat|].
  exists (emit_floats_standalone key (x :: xs) ∅).
  split; [|split].
  - rewrite standalone_unfold. apply returning_Ok. simpl.
    cbv [mbind block_bind mret block_ret]. by rewrite loop_body_standalone_floats.
  - destruct (emit_floats_standalone_stats key x xs) as (_ & _ & _ & _ & ->).
    by rewrite <- Hlen.
  - intros stat Hs. rewrite !elem_of_cons, elem_of_nil in Hs.
    destruct (emit_floats_standalone_stats key x xs) as (E1 & E2 & E3 & E4 & _).
    destruct Hs as [->|[->|[->|[->|[]]]]]; rewrite H1 by done;
      [rewrite E1|rewrite E4|rewrite E3|rewrite E2]; by lookup_stat.
Qed.

(** X16, at an instance: three rows of two elements. *)
Lemma X16_witness :
  ∃ r, compute_reward_metrics_standalone
         [("nested_scores", PySeq (map floats [[0.1; 0.2]; [0.3; 0.4]; [0.5; 0.6]]%float))]
       = Ok r ∧
    stat_of r "nested_scores" "count" = Some (MInt 3).
Proof.
  assert (∃ r, compute_reward_metrics_standalone
                 [("nested_scores",
                   PySeq (map floats [[0.1; 0.2]; [0.3; 0.4]; [0.5; 0.6]]%float))] = Ok r)
    as [r E].
  { rewrite standalone_unfold. unfold returning. cbn [for_items].
    cbv [mbind block_bind mret block_ret].
    rewrite (loop_body_standalone_rows _ _ _ 0.1%float [0.2; 0.3; 0.4; 0.5; 0.6]%float)
      by done.
    by eexists. }
  exists r. split; [done|].
  refine (proj1 (X16_rows_are_counted
                   [("nested_scores",
                     PySeq (map floats [[0.1; 0.2]; [0.3; 0.4]; [0.5; 0.6]]%float))]
                   r "nested_scores" [0.1; 0.2]%float
                   [[0.3; 0.4]; [0.5; 0.6]]%float
                   (NoDup_singleton "nested_scores") _ _ _ E)).
  - by apply list_elem_of_singleton.
  - done.
  - by repeat constructor.
Defined.

(** X17.  [compute_reward_metrics_standalone] passes over a series of
    lists of floats of different lengths: [np.array] with [dtype=float]
    raises [ValueError] on it, which line 39 catches, whereas
    [compute_reward_metrics] flattens such a series. *)
Theorem X17_ragged_series_are_dropped key l ls l' d1 d2 :
  l' ∈ ls → length l' ≠ length l →
  compute_reward_metrics_standalone (d1 ++ (key, PySeq (map floats (l :: ls))) :: d2) =
    compute_reward_metrics_standalone (d1 ++ d2).
Proof.
  intros Hin Hne. rewrite !standalone_unfold. apply returning_skip. intros m.
  apply loop_body_standalone_ragged. apply not_true_is_false. intros H.
  apply forallb_same_length in H. rewrite Forall_forall in H. by apply Hne, H.
Qed.

(** X17, at an instance: rows of two and of one element, beside
    [single_value]. *)
Lemma X17_witness :
  compute_reward_metrics_standalone
    ([] ++ ("ragged", PySeq (map floats [[0.1; 0.2]; [0.3]]%float)) :: single_value) =
  compute_reward_metrics_standalone ([] ++ single_value).
Proof.
  apply (X17_ragged_series_are_dropped "ragged" [0.1; 0.2]%float [[0.3]]%float [0.3]%float).
  - by apply list_elem_of_singleton.
  - simpl. lia.
Defined.

(** ** A NaN in the standalone aggregator *)

(** X18.  [compute_reward_metrics_standalone] does not filter: for a series
    of floats with a NaN among its elements, under a name of a mapping with
    distinct names, the mean, the deviation, the min and the max it reports
    are all NaN, and the count is the number of elements, the NaN
    included. *)
Theorem X18_a_nan_spreads d r key xs :
  NoDup d.*1 → (key, floats xs) ∈ d → has_nan xs →
  compute_reward_metrics_standalone d = Ok r →
  (∀ stat, stat ∈ ["mean"; "std"; "min"; "max"] →
     ∃ v, stat_of r key stat = Some (MFloat v) ∧ is_nan v = true) ∧
  stat_of r key "count" = Some (MInt (Z.of_nat (length xs))).
Proof.
  intros Hnd Hin Hnan Hr.
  pose proof (λ stat Hs, standalone_floats d r key xs stat Hnd Hin Hs Hr) as H.
  destruct xs as [|x xs]; [by apply Exists_nil in Hnan|].
  destruct (emit_floats_standalone_stats key x xs) as (E1 & E2 & E3 & E4 & E5).
  split; [|by rewrite H, E5].
  intros stat Hs. rewrite !elem_of_cons, elem_of_nil in Hs.
  destruct Hs as [->|[->|[->|[->|[]]]]]; rewrite H by done.
  - rewrite E1. eexists. split; [done|]. by apply mean_nan.
  - rewrite E4. eexists. split; [done|]. by apply std_nan.
  - rewrite E3. eexists. split; [done|]. by apply foldl_minimum_nan.
  - rewrite E2. eexists. split; [done|]. by apply foldl_maximum_nan.
Qed.

(** X18, at an instance: the scenario [with_nan]. *)
Lemma X18_witness :
  ∃ r, compute_reward_metrics_standalone with_nan = Ok r ∧
    (∃ v, stat_of r "with_nan" "mean" = Some (MFloat v) ∧ is_nan v = true) ∧
    stat_of r "with_nan" "count" = Some (MInt 3).
Proof.
  destruct (standalone_total_floats with_nan) as [r E].
  { repeat constructor. by eexists. }
  exists r. split; [done|].
  destruct (X18_a_nan_spreads with_nan r "with_nan" [0.5; nan; 0.7]%float
              (NoDup_singleton "with_nan")) as [H1 H2].
  - by apply list_elem_of_singleton.
  - apply Exists_cons. right. apply Exists_cons. by left.
  - done.
  - split; [|done]. apply H1. rewrite !elem_of_cons. auto.
Defined.

(** ** A string among the elements *)

Lemma mapM_raises {A B} (f : A → result B) l v e :
  v ∈ l → f v = Raise e → ∃ e', mapM f l = Raise e'.
Proof.
  intros Hin Hv. induction l as [|x l IH]; [by apply elem_of_nil in Hin|].
  change (mapM f (x :: l)) with (f x ≫= λ y, mapM f l ≫= λ k, mret (y :: k)).
  apply elem_of_cons in Hin as [<-|Hin].
  - rewrite Hv. by eexists.
  - destruct (IH Hin) as [e' ->]. destruct (f x); by eexists.
Qed.

(** X19.  One string silences a series.  A series of scalars with a string
    among its elements is passed over by [compute_reward_metrics], which
    returns what it returns without the signal: [np.array] gives the series
    a string dtype, which is no number.  So it is by
    [compute_reward_metrics_standalone] when the string spells no number
    and the integers of the series convert to floats: [np.array] with
    [dtype=float] raises [ValueError], which line 39 catches. *)
Theorem X19_a_string_silences_the_series key vs s num d1 d2 :
  Forall (λ v, is_scalar v = true) vs → PyStr s num ∈ vs →
  compute_reward_metrics (d1 ++ (key, PySeq vs) :: d2) =
    compute_reward_metrics (d1 ++ d2) ∧
  (num = None → (∀ n, PyInt n ∈ vs → is_infinity (Z2float n) = false) →
   compute_reward_metrics_standalone (d1 ++ (key, PySeq vs) :: d2) =
     compute_reward_metrics_standalone (d1 ++ d2)).
Proof.
  intros Hsc Hin. split.
  - apply returning_skip. intros m.
    apply loop_body_failed. unfold signal_fails.
    destruct vs as [|v vs]; [done|].
    rewrite to_array_scalars by (by apply Forall_cons in Hsc as [? _]).
    unfold np.array. rewrite asarrays_scalars by done. cbn [mbind result_bind].
    rewrite shape_scalars, leaves_scalars by done.
    replace (existsb np.is_str_or_object (v :: vs)) with true; [done|].
    symmetry. apply existsb_exists. exists (PyStr s num).
    split; [by apply list_elem_of_In|done].
  - intros -> Hint. rewrite !standalone_unfold. apply returning_skip. intros m.
    unfold loop_body_standalone, try_except, try_body_standalone.
    cbv [mbind block_bind mret block_ret eval to_float_array].
    destruct (np.array_float vs) as [a|e] eqn:E.
    + exfalso. unfold np.array_float in E.
      rewrite asarrays_scalars in E by done. cbn [mbind result_bind] in E.
      rewrite shape_scalars, leaves_scalars in E by done.
      destruct (mapM_raises np.float_of_scalar vs (PyStr s None) ValueError Hin eq_refl)
        as [e' He']. by rewrite He' in E.
    + apply array_float_raise in E as [->|[->|[(-> & n & Hn & Hinf)|[_ Hg]]]];
        [done|done| |].
      * rewrite leaves_scalars in Hn by done. by rewrite Hint in Hinf.
      * by rewrite scalars_no_grad in Hg.
Qed.

(** X19, at an instance: a float and a word, beside [single_value]. *)
Lemma X19_witness :
  compute_reward_metrics
    ([] ++ ("mixed", PySeq [PyFloat 0.5; PyStr "hello" None]) :: single_value) =
  compute_reward_metrics ([] ++ single_value) ∧
  compute_reward_metrics_standalone
    ([] ++ ("mixed", PySeq [PyFloat 0.5; PyStr "hello" None]) :: single_value) =
  compute_reward_metrics_standalone ([] ++ single_value).
Proof.
  destruct (X19_a_string_silences_the_series "mixed" [PyFloat 0.5; PyStr "hello" None]
              "hello" None [] single_value) as [H1 H2].
  - by repeat constructor.
  - apply elem_of_cons. right. by apply list_elem_of_singleton.
  - split; [done|]. apply H2; [done|].
    intros n Hn. rewrite !elem_of_cons, elem_of_nil in Hn.
    destruct Hn as [Hn|[Hn|[]]]; discriminate Hn.
Defined.

(** ** Upper and lower case *)

Lemma lower_app a b : lower (a +:+ b) = lower a +:+ lower b.
Proof.
  induction a as [|c a IH]; [done|].
  change (String c a +:+ b) with (String c (a +:+ b)). cbn [lower]. rewrite IH.
  reflexivity.
Qed.

Lemma lower_empty s : lower s = EmptyString ↔ s = EmptyString.
Proof. by destruct s. Qed.

Lemma isspace_lower c :
  isspace (if isupper c then ascii_of_nat (nat_of_ascii c + 32) else c) = isspace c.
Proof. destruct c as [[] [] [] [] [] [] [] []]; vm_compute; reflexivity. Qed.

Lemma split_from_lower word s :
  split_from (lower word) (lower s) = map lower (split_from word s).
Proof.
  revert word. induction s as [|c s IH]; intros word; cbn [lower split_from].
  - destruct (decide (word = EmptyString)) as [->|H]; [done|].
    rewrite !bool_decide_eq_false_2; [done|done|by rewrite lower_empty].
  - rewrite isspace_lower. destruct (isspace c).
    + destruct (decide (word = EmptyString)) as [->|H].
      * cbn [lower]. rewrite !bool_decide_eq_true_2 by done. apply (IH EmptyString).
      * rewrite !bool_decide_eq_false_2; [|done|by rewrite lower_empty].
        cbn [map]. f_equal. apply (IH EmptyString).
    + rewrite <- IH. by rewrite lower_app.
Qed.

Lemma split_lower s : split (lower s) = map lower (split s).
Proof. apply (split_from_lower EmptyString). Qed.

Lemma existsb_map {A B} (f : B → bool) (g : A → B) l :
  existsb f (map g l) = existsb (λ x, f (g x)) l.
Proof. induction l as [|x l IH]; [done|]. cbn [map existsb]. by rewrite IH. Qed.

(** X20.  [custom_reward_with_subrewards] does not read [data_source] and
    reads [ground_truth] up to the case of its letters: two calls with the
    same response and with ground truths that are equal once lowered have
    the same outcome. *)
Theorem X20_ground_truth_case c1 c2 :
  solution_str c1 = solution_str c2 →
  lower (ground_truth c1) = lower (ground_truth c2) →
  custom_reward_with_subrewards c1 = custom_reward_with_subrewards c2.
Proof.
  intros Hs Hg.
  assert (∀ c, existsb (λ word, contains (lower word) (lower (solution_str c2)))
                 (split (ground_truth c))
               = existsb (λ word, contains word (lower (solution_str c2)))
                   (split (lower (ground_truth c)))) as Hex.
  { intros c. by rewrite split_lower, existsb_map. }
  assert (negb (bool_decide (ground_truth c1 = EmptyString)) &&
            existsb (λ word, contains (lower word) (lower (solution_str c2)))
              (split (ground_truth c1))
          = negb (bool_decide (ground_truth c2 = EmptyString)) &&
            existsb (λ word, contains (lower word) (lower (solution_str c2)))
              (split (ground_truth c2))) as Hrel.
  { rewrite (Hex c1), (Hex c2), Hg. f_equal. f_equal.
    apply bool_decide_ext.
    by rewrite <- (lower_empty (ground_truth c1)), <- (lower_empty (ground_truth c2)), Hg. }
  unfold custom_reward_with_subrewards. cbv zeta. rewrite Hs, Hrel. reflexivity.
Qed.

(** X20, at an instance: a ground truth in capitals and in small
    letters, with different data sources. *)
Lemma X20_witness :
  custom_reward_with_subrewards (Case "geography" "Paris is the capital." "PARIS") =
  custom_reward_with_subrewards (Case "capitals" "Paris is the capital." "paris").
Proof. apply X20_ground_truth_case; reflexivity. Defined.

(** ** Series without elements in the standalone aggregator *)

(** X21.  [compute_reward_metrics_standalone] passes over a signal whose
    value is an empty list, an empty tensor that does not require grad
    (line 32), or a zero-dimensional tensor that does not require grad
    (its array has no [len]: [TypeError], caught at line 39), wherever
    the signal stands in the mapping: it returns what it returns without
    the signal. *)
Theorem X21_standalone_empty_series key d1 d2 :
  compute_reward_metrics_standalone (d1 ++ (key, PySeq []) :: d2) =
    compute_reward_metrics_standalone (d1 ++ d2) ∧
  (∀ dtype,
     compute_reward_metrics_standalone (d1 ++ (key, PyTensor dtype false []) :: d2) =
       compute_reward_metrics_standalone (d1 ++ d2)) ∧
  (∀ dtype x,
     compute_reward_metrics_standalone (d1 ++ (key, PyTensor0 dtype false x) :: d2) =
       compute_reward_metrics_standalone (d1 ++ d2)).
Proof.
  rewrite !standalone_unfold. split; [|split]; intros; rewrite ?standalone_unfold;
    apply returning_skip; intros m; reflexivity.
Qed.
